(** * Backing stores: address-space accounting, guard regions, managed
      allocation, in-place growth and the global registry.

    A shallow embedding of [src/objects/backing-store.cc].  Machine
    integers are [Z] with the wrap-around of their C++ type written out,
    C++ objects live in finite maps keyed by their address, and every
    function that touches process state is a state transformer over
    [World] that may also end the process, by an abort or by a faulting
    memory access.

    The embedding is that of a release build: [CHECK] and [FATAL] abort,
    while [DCHECK] and [DebugCheckZero] compile to nothing; what a [DCHECK]
    asserts appears, where a property needs it, as a hypothesis of that
    property. *)

From Stdlib Require Import ZArith Lia List Bool.
From stdpp Require Import base option gmap list.

Local Open Scope Z_scope.

(** ** Machine integers and build configuration *)

(** The three build flavours the preprocessor distinguishes. *)
Inductive TargetArch := Arch32 | ArchMips64 | Arch64.

Definition V8_TARGET_ARCH_MIPS64 (a : TargetArch) : bool :=
  match a with ArchMips64 => true | _ => false end.

Definition V8_TARGET_ARCH_64_BIT (a : TargetArch) : bool :=
  match a with Arch32 => false | _ => true end.

(** Width of [size_t] and of a pointer. *)
Definition size_t_bits (a : TargetArch) : Z :=
  if V8_TARGET_ARCH_64_BIT a then 64 else 32.

Definition to_size_t (a : TargetArch) (z : Z) : Z := z mod 2 ^ size_t_bits a.
Definition to_uint64 (z : Z) : Z := z mod 2 ^ 64.

Definition kUseGuardRegions (a : TargetArch) : bool := V8_TARGET_ARCH_64_BIT a.

Definition kAddressSpaceLimit (a : TargetArch) : Z :=
  if V8_TARGET_ARCH_MIPS64 a then 0x4000000000
  else if V8_TARGET_ARCH_64_BIT a then 0x10100000000
  else 0xC0000000.

Definition GB : Z := 1024 * 1024 * 1024.
Definition kNegativeGuardSize : Z := 2 * GB.
Definition kFullGuardSize : Z := 10 * GB.

(** What the build fixes besides the architecture.  The two wasm limits
    come from [wasm-limits.h] and [wasm-constants.h]; they are kept as
    parameters of the build. *)
Record Build := {
  target_arch : TargetArch;
  kV8MaxWasmMemoryPages : Z;
  kWasmPageSize : Z;
  FLAG_correctness_fuzzer_suppressions : bool
}.

(** The limits are positive and the engine maximum is representable in a
    [size_t] of the target. *)
Definition Build_ok (cfg : Build) : Prop :=
  0 < kWasmPageSize cfg /\
  0 <= kV8MaxWasmMemoryPages cfg /\
  kV8MaxWasmMemoryPages cfg * kWasmPageSize cfg < 2 ^ size_t_bits (target_arch cfg).

Inductive AllocationStatus :=
  | kSuccess
  | kSuccessAfterRetry
  | kAddressSpaceLimitReachedFailure
  | kOtherFailure.

(** ** Guard-region layout *)

Record AddressRegion := { region_begin : Z; region_size : Z }.

(** [GetGuardedRegion] asserts an 8-byte [size_t]; [Address] arithmetic is
    therefore modulo 2^64 and the cast of [kFullGuardSize] keeps its value. *)
Definition GetGuardedRegion (buffer_start byte_length : Z) : AddressRegion :=
  let start := buffer_start in
  {| region_begin := to_uint64 (start - 2 * GB);
     region_size := to_uint64 kFullGuardSize |}.

(** ** Address-space accounting *)

(** [reserved_address_space_] is an atomic cell.  One round of the
    compare-and-swap loop loads the cell, runs the two limit checks and
    attempts the exchange.  [others] lists, round by round, the value
    another thread left in the cell between the load and the exchange; with
    no other thread the exchange of the first round succeeds. *)
Fixpoint ReserveAddressSpace_loop (others : list Z) (reservation_limit num_bytes cell : Z)
  : bool * Z :=
  let old_count := cell in
  if reservation_limit <? old_count then (false, cell)
  else if reservation_limit - old_count <? num_bytes then (false, cell)
  else match others with
       | [] => (true, to_uint64 (old_count + num_bytes))
       | v :: others' =>
           if v =? old_count then (true, to_uint64 (old_count + num_bytes))
           else ReserveAddressSpace_loop others' reservation_limit num_bytes v
       end.

Definition ReserveAddressSpace (a : TargetArch) (num_bytes : Z) (reserved : Z) : bool * Z :=
  ReserveAddressSpace_loop [] (kAddressSpaceLimit a) num_bytes reserved.

(** [fetch_sub] on an unsigned 64-bit cell. *)
Definition ReleaseReservation (num_bytes : Z) (reserved : Z) : Z :=
  to_uint64 (reserved - num_bytes).

(** ** External collaborators *)

Definition Isolate := nat.

Inductive Permission := kNoAccess | kReadWrite.
Inductive SharedFlag := kNotShared | kShared.

(** The capabilities the allocator consumes: the platform page allocator
    and the collector's memory-pressure signal.  [P] is their private
    state.  A null pointer is address [0].  A collection may finalise other
    backing stores; what this file's state sees of that is the list of
    reservations their destructors release.  The finalised stores
    themselves are taken to be stores of other owners, outside the heap,
    the registry and the list nodes followed here; what is stated of a run
    across its collections is stated of the counter and of the calls
    made. *)
Class Platform (P : Type) := {
  AllocatePages : Z -> Z -> Z -> Permission -> P -> Z * P;
  FreePages : Z -> Z -> P -> bool * P;
  SetPermissions : Z -> Z -> Permission -> P -> bool * P;
  MemoryPressureNotification : Isolate -> P -> list Z * P
}.

(** Calls that leave this translation unit, in program order. *)
Inductive Event :=
  | EvReserveAddressSpace (num_bytes : Z) (ok : bool)
  | EvReleaseReservation (num_bytes : Z)
  | EvMemoryPressure (isolate : Isolate) (released : list Z)
  | EvAllocatePages (size alignment : Z) (access : Permission) (result : Z)
  | EvFreePages (address size : Z) (ok : bool)
  | EvSetPermissions (address size : Z) (access : Permission) (ok : bool)
  | EvAllocatorFree (address size : Z)
  | EvRecordStatus (isolate : Isolate) (status : AllocationStatus)
  | EvAdjustExternalMemory (isolate : Isolate) (delta : Z)
  | EvMemcpy (dst src n : Z)
  | EvRequestGrowSharedMemory (isolate : Isolate).

(** ** Objects *)

(** The union [type_specific_data_]. *)
Inductive TypeSpecificData :=
  | null_data
  | v8_api_array_buffer_allocator (allocator : positive)
  | shared_wasm_memory_data (anchor : positive).

Record BackingStore := {
  buffer_start_ : Z;
  byte_length_ : Z;
  byte_capacity_ : Z;
  is_shared_ : bool;
  is_wasm_memory_ : bool;
  free_on_destruct_ : bool;
  has_guard_regions_ : bool;
  globally_registered_ : bool;
  type_specific_data_ : TypeSpecificData
}.

Definition is_kShared (s : SharedFlag) : bool :=
  match s with kShared => true | kNotShared => false end.

(** The constructor, with the argument order of its call sites: a fresh
    store is not registered and its union is null. *)
Definition new_BackingStore (start length capacity : Z) (shared : SharedFlag)
    (is_wasm_memory free_on_destruct has_guard_regions : bool) : BackingStore :=
  {| buffer_start_ := start; byte_length_ := length; byte_capacity_ := capacity;
     is_shared_ := is_kShared shared; is_wasm_memory_ := is_wasm_memory;
     free_on_destruct_ := free_on_destruct; has_guard_regions_ := has_guard_regions;
     globally_registered_ := false; type_specific_data_ := null_data |}.

Definition set_byte_length (n : Z) (b : BackingStore) : BackingStore :=
  {| buffer_start_ := buffer_start_ b; byte_length_ := n;
     byte_capacity_ := byte_capacity_ b; is_shared_ := is_shared_ b;
     is_wasm_memory_ := is_wasm_memory_ b; free_on_destruct_ := free_on_destruct_ b;
     has_guard_regions_ := has_guard_regions_ b;
     globally_registered_ := globally_registered_ b;
     type_specific_data_ := type_specific_data_ b |}.

Definition set_globally_registered (r : bool) (b : BackingStore) : BackingStore :=
  {| buffer_start_ := buffer_start_ b; byte_length_ := byte_length_ b;
     byte_capacity_ := byte_capacity_ b; is_shared_ := is_shared_ b;
     is_wasm_memory_ := is_wasm_memory_ b; free_on_destruct_ := free_on_destruct_ b;
     has_guard_regions_ := has_guard_regions_ b;
     globally_registered_ := r;
     type_specific_data_ := type_specific_data_ b |}.

Definition set_type_specific_data (d : TypeSpecificData) (b : BackingStore) : BackingStore :=
  {| buffer_start_ := buffer_start_ b; byte_length_ := byte_length_ b;
     byte_capacity_ := byte_capacity_ b; is_shared_ := is_shared_ b;
     is_wasm_memory_ := is_wasm_memory_ b; free_on_destruct_ := free_on_destruct_ b;
     has_guard_regions_ := has_guard_regions_ b;
     globally_registered_ := globally_registered_ b;
     type_specific_data_ := d |}.

(** [BackingStore::Clear]. *)
Definition Clear (b : BackingStore) : BackingStore :=
  {| buffer_start_ := 0; byte_length_ := 0;
     byte_capacity_ := byte_capacity_ b; is_shared_ := is_shared_ b;
     is_wasm_memory_ := is_wasm_memory_ b; free_on_destruct_ := free_on_destruct_ b;
     has_guard_regions_ := false;
     globally_registered_ := globally_registered_ b;
     type_specific_data_ := null_data |}.

(** A node of the attachment list of a shared wasm memory.  The anchor has
    a null isolate and a null handle. *)
Record SharedWasmMemoryData := {
  next_ : option positive;
  prev_ : option positive;
  isolate_ : option Isolate;
  memory_object_ : option positive
}.

Definition new_SharedWasmMemoryData (isolate : option Isolate)
    (memory_object : option positive) : SharedWasmMemoryData :=
  {| next_ := None; prev_ := None; isolate_ := isolate; memory_object_ := memory_object |}.

Definition set_next (n : option positive) (d : SharedWasmMemoryData) :=
  {| next_ := n; prev_ := prev_ d; isolate_ := isolate_ d;
     memory_object_ := memory_object_ d |}.

Definition set_prev (n : option positive) (d : SharedWasmMemoryData) :=
  {| next_ := next_ d; prev_ := n; isolate_ := isolate_ d;
     memory_object_ := memory_object_ d |}.

(** Modelled from the spec: the memory-view objects are not part of this
    file.  A view holds the buffer object it currently exposes; a buffer
    attached to a backing store is over that store's region and records
    the region's start and its length at the time it is attached (the
    source compares that recorded length with the store's in
    [UpdateSharedWasmMemoryObjects]). *)
Record JSArrayBuffer := {
  array_buffer_backing_store : Z;
  array_buffer_byte_length : Z
}.

Record WasmMemoryObject := { array_buffer : JSArrayBuffer }.

(** ** Process state *)

Section Model.
Context {P : Type} `{!Platform P}.
Variable cfg : Build.

Let arch := target_arch cfg.

Record World := {
  reserved_address_space_ : Z;                       (* the atomic counter *)
  platform : P;                                      (* page allocator and collector *)
  memory : Z -> Byte.byte;                           (* contents of memory *)
  backing_stores : gmap positive BackingStore;       (* live, shared_ptr-owned stores *)
  map_ : gmap Z positive;                            (* registry: start -> weak_ptr *)
  list_nodes : gmap positive SharedWasmMemoryData;   (* live attachment nodes *)
  memory_objects : gmap positive WasmMemoryObject;   (* objects behind live handles *)
  trace : list Event
}.

Definition set_reserved (c : Z) (w : World) : World :=
  {| reserved_address_space_ := c; platform := platform w; memory := memory w;
     backing_stores := backing_stores w; map_ := map_ w; list_nodes := list_nodes w;
     memory_objects := memory_objects w; trace := trace w |}.

Definition set_platform (p : P) (w : World) : World :=
  {| reserved_address_space_ := reserved_address_space_ w; platform := p;
     memory := memory w; backing_stores := backing_stores w; map_ := map_ w;
     list_nodes := list_nodes w; memory_objects := memory_objects w; trace := trace w |}.

Definition set_memory (m : Z -> Byte.byte) (w : World) : World :=
  {| reserved_address_space_ := reserved_address_space_ w; platform := platform w;
     memory := m; backing_stores := backing_stores w; map_ := map_ w;
     list_nodes := list_nodes w; memory_objects := memory_objects w; trace := trace w |}.

Definition set_backing_stores (s : gmap positive BackingStore) (w : World) : World :=
  {| reserved_address_space_ := reserved_address_space_ w; platform := platform w;
     memory := memory w; backing_stores := s; map_ := map_ w;
     list_nodes := list_nodes w; memory_objects := memory_objects w; trace := trace w |}.

Definition set_map (m : gmap Z positive) (w : World) : World :=
  {| reserved_address_space_ := reserved_address_space_ w; platform := platform w;
     memory := memory w; backing_stores := backing_stores w; map_ := m;
     list_nodes := list_nodes w; memory_objects := memory_objects w; trace := trace w |}.

Definition set_list_nodes (l : gmap positive SharedWasmMemoryData) (w : World) : World :=
  {| reserved_address_space_ := reserved_address_space_ w; platform := platform w;
     memory := memory w; backing_stores := backing_stores w; map_ := map_ w;
     list_nodes := l; memory_objects := memory_objects w; trace := trace w |}.

Definition set_memory_objects (o : gmap positive WasmMemoryObject) (w : World) : World :=
  {| reserved_address_space_ := reserved_address_space_ w; platform := platform w;
     memory := memory w; backing_stores := backing_stores w; map_ := map_ w;
     list_nodes := list_nodes w; memory_objects := o; trace := trace w |}.

Definition emit (e : Event) (w : World) : World :=
  {| reserved_address_space_ := reserved_address_space_ w; platform := platform w;
     memory := memory w; backing_stores := backing_stores w; map_ := map_ w;
     list_nodes := list_nodes w; memory_objects := memory_objects w;
     trace := trace w ++ [e] |}.

(** ** The monad of the embedding

    A call returns a value and a new world, aborts the process ([CHECK],
    [FATAL], a null dereference), or, for the pointer-chasing loops only,
    is cut off after the number of rounds the model allows. *)
Inductive Outcome (A : Type) :=
  | Returned (a : A) (w : World)
  | Fatal (w : World)
  | OutOfFuel.

Arguments Returned {A} a w.
Arguments Fatal {A} w.
Arguments OutOfFuel {A}.

Definition M (A : Type) : Type := World -> Outcome A.

Definition ret {A} (a : A) : M A := fun w => Returned a w.

Definition bind {A B} (m : M A) (k : A -> M B) : M B :=
  fun w => match m w with
           | Returned a w' => k a w'
           | Fatal w' => Fatal w'
           | OutOfFuel => OutOfFuel
           end.

Definition fatal {A} : M A := fun w => Fatal w.

Notation "'call' x <- m ; k" := (bind m (fun x => k))
  (at level 10, x pattern, m at level 100, k at level 200).

(** *** Primitive actions *)

Definition do_ReserveAddressSpace (num_bytes : Z) : M bool := fun w =>
  let '(ok, c) := ReserveAddressSpace arch num_bytes (reserved_address_space_ w) in
  Returned ok (emit (EvReserveAddressSpace num_bytes ok) (set_reserved c w)).

Definition do_ReleaseReservation (num_bytes : Z) : M unit := fun w =>
  Returned tt (emit (EvReleaseReservation num_bytes)
                 (set_reserved (ReleaseReservation num_bytes (reserved_address_space_ w)) w)).

(** The reservations released by the stores a collection finalised. *)
Definition release_all (released : list Z) (c : Z) : Z :=
  fold_left (fun c n => ReleaseReservation n c) released c.

Definition do_MemoryPressureNotification (isolate : Isolate) : M unit := fun w =>
  let '(released, p) := MemoryPressureNotification isolate (platform w) in
  Returned tt (emit (EvMemoryPressure isolate released)
                 (set_platform p
                    (set_reserved (release_all released (reserved_address_space_ w)) w))).

Definition do_AllocatePages (hint size alignment : Z) (access : Permission) : M Z := fun w =>
  let '(r, p) := AllocatePages hint size alignment access (platform w) in
  Returned r (emit (EvAllocatePages size alignment access r) (set_platform p w)).

Definition do_FreePages (address size : Z) : M bool := fun w =>
  let '(ok, p) := FreePages address size (platform w) in
  Returned ok (emit (EvFreePages address size ok) (set_platform p w)).

Definition do_SetPermissions (address size : Z) (access : Permission) : M bool := fun w =>
  let '(ok, p) := SetPermissions address size access (platform w) in
  Returned ok (emit (EvSetPermissions address size access ok) (set_platform p w)).

Definition RecordStatus (isolate : Isolate) (status : AllocationStatus) : M unit := fun w =>
  Returned tt (emit (EvRecordStatus isolate status) w).

Definition AdjustAmountOfExternalAllocatedMemory (isolate : Isolate) (delta : Z) : M unit :=
  fun w => Returned tt (emit (EvAdjustExternalMemory isolate delta) w).

(** [memcpy] on disjoint ranges: the [n] bytes from [dst] on become the [n]
    bytes from [src] on. *)
Definition memcpy_bytes (dst src n : Z) (m : Z -> Byte.byte) : Z -> Byte.byte :=
  fun a => if (dst <=? a) && (a <? dst + n) then m (src + (a - dst)) else m a.

(** Page permissions, read off the calls made so far.  The [n] bytes from
    [a] on are accessible once a permission change to read/write that
    covers them has been granted, until pages that overlap them are freed
    or reserved anew (reserved pages are inaccessible). *)
Definition covers (a' s a n : Z) : bool := (a' <=? a) && (a + n <=? a' + s).

Definition overlaps (a' s a n : Z) : bool := (a' <? a + n) && (a <? a' + s).

Definition page_step (a n : Z) (accessible : bool) (e : Event) : bool :=
  match e with
  | EvSetPermissions a' s kReadWrite true =>
      if covers a' s a n then true else accessible
  | EvFreePages a' s true =>
      if overlaps a' s a n then false else accessible
  | EvAllocatePages s _ _ r =>
      if negb (r =? 0) && overlaps r s a n then false else accessible
  | _ => accessible
  end.

Definition committed (evs : list Event) (a n : Z) : bool :=
  fold_left (page_step a n) evs false.

(** [memcpy] of no bytes does nothing.  Otherwise its ranges must not
    overlap and the destination must be accessible: a copy into pages that
    were not made read/write faults, and the run ends there.  The source
    range is the live bytes of a store and is taken to be readable. *)
Definition do_memcpy (dst src n : Z) : M unit := fun w =>
  if (n =? 0) ||
     (committed (trace w) dst n && ((dst + n <=? src) || (src + n <=? dst)))
  then Returned tt
         (emit (EvMemcpy dst src n) (set_memory (memcpy_bytes dst src n (memory w)) w))
  else Fatal w.

(** ** Managed allocation *)

(** The locals the retry helper and the phases capture by reference. *)
Record Locals := { did_retry : bool; allocation_base : Z }.

Definition set_did_retry (b : bool) (l : Locals) : Locals :=
  {| did_retry := b; allocation_base := allocation_base l |}.

Definition set_allocation_base (a : Z) (l : Locals) : Locals :=
  {| did_retry := did_retry l; allocation_base := a |}.

(** [gc_retry]: the loop [for (int i = 0; i < 3; i++)], here counting the
    rounds that remain. *)
Fixpoint gc_retry_rounds (rounds : nat) (isolate : Isolate)
    (fn : Locals -> M (bool * Locals)) (l : Locals) : M (bool * Locals) :=
  match rounds with
  | O => ret (false, l)
  | S rounds' =>
      call (ok, l1) <- fn l;
      if ok then ret (true, l1)
      else
        let l2 := set_did_retry true l1 in
        call _ <- do_MemoryPressureNotification isolate;
        gc_retry_rounds rounds' isolate fn l2
  end.

Definition gc_retry := gc_retry_rounds 3.

Definition reservation_size_for (maximum_pages : Z) : Z :=
  if kUseGuardRegions arch then to_size_t arch kFullGuardSize
  else to_size_t arch (Z.min maximum_pages (kV8MaxWasmMemoryPages cfg) * kWasmPageSize cfg).

Definition byte_capacity_for (maximum_pages : Z) : Z :=
  if kUseGuardRegions arch
  then to_size_t arch (kV8MaxWasmMemoryPages cfg * kWasmPageSize cfg)
  else reservation_size_for maximum_pages.

Definition reserve_memory_space (reservation_size : Z) (l : Locals) : M (bool * Locals) :=
  call ok <- do_ReserveAddressSpace reservation_size;
  ret (ok, l).

Definition allocate_pages (reservation_size : Z) (l : Locals) : M (bool * Locals) :=
  call base <- do_AllocatePages 0 reservation_size (kWasmPageSize cfg) kNoAccess;
  ret (negb (base =? 0), set_allocation_base base l).

Definition commit_memory (buffer_start byte_length : Z) (l : Locals) : M (bool * Locals) :=
  if byte_length =? 0 then ret (true, l)
  else call ok <- do_SetPermissions buffer_start byte_length kReadWrite;
       ret (ok, l).

(** [new SharedWasmMemoryData(...)]: a node at an address no live node has. *)
Definition new_node (d : SharedWasmMemoryData) : M positive := fun w =>
  let p := fresh (dom (list_nodes w)) in
  Returned p (set_list_nodes (<[p := d]> (list_nodes w)) w).

Definition TryAllocateWasmMemory (isolate : Isolate) (initial_pages maximum_pages : Z)
    (shared : SharedFlag) : M (option BackingStore) :=
  let guards := kUseGuardRegions arch in
  let l := {| did_retry := false; allocation_base := 0 |} in
  let reservation_size := reservation_size_for maximum_pages in
  let byte_capacity := byte_capacity_for maximum_pages in
  (* 1. Enforce maximum address space reservation per engine. *)
  call (ok, l) <- gc_retry isolate (reserve_memory_space reservation_size) l;
  if negb ok then
    if FLAG_correctness_fuzzer_suppressions cfg then fatal
    else call _ <- RecordStatus isolate kAddressSpaceLimitReachedFailure;
         ret None
  else
  (* 2. Allocate pages (inaccessible by default). *)
  call (ok, l) <- gc_retry isolate (allocate_pages reservation_size) l;
  if negb ok then
    call _ <- do_ReleaseReservation reservation_size;
    call _ <- RecordStatus isolate kOtherFailure;
    ret None
  else
  let buffer_start :=
    to_size_t arch (allocation_base l + (if guards then kNegativeGuardSize else 0)) in
  (* 3. Commit the initial pages (allow read/write). *)
  let byte_length := to_size_t arch (initial_pages * kWasmPageSize cfg) in
  call (ok, l) <- gc_retry isolate (commit_memory buffer_start byte_length) l;
  if negb ok then fatal
  else
  call _ <- RecordStatus isolate (if did_retry l then kSuccessAfterRetry else kSuccess);
  let result :=
    new_BackingStore buffer_start byte_length byte_capacity shared true true guards in
  if is_kShared shared then
    call anchor <- new_node (new_SharedWasmMemoryData None None);
    ret (Some (set_type_specific_data (shared_wasm_memory_data anchor) result))
  else ret (Some result).

Definition AllocateWasmMemory (isolate : Isolate) (initial_pages maximum_pages : Z)
    (shared : SharedFlag) : M (option BackingStore) :=
  if kV8MaxWasmMemoryPages cfg <? initial_pages then ret None
  else
    call backing_store <- TryAllocateWasmMemory isolate initial_pages maximum_pages shared;
    match backing_store with
    | None =>
        if initial_pages <? maximum_pages
        then TryAllocateWasmMemory isolate initial_pages initial_pages shared
        else ret backing_store
    | Some _ => ret backing_store
    end.

(** ** Growth in place *)

(** A method of a store takes [this] and hands back the store as the call
    leaves it. *)
Definition GrowWasmMemoryInPlace (isolate : Isolate) (new_byte_length : Z)
    (this : BackingStore) : M (bool * BackingStore) :=
  if new_byte_length <=? byte_length_ this then ret (true, this)
  else if byte_capacity_ this <? new_byte_length then ret (false, this)
  else
    call ok <- do_SetPermissions (buffer_start_ this) new_byte_length kReadWrite;
    if negb ok then ret (false, this)
    else
      call _ <- AdjustAmountOfExternalAllocatedMemory isolate
                  (new_byte_length - byte_length_ this);
      ret (true, set_byte_length new_byte_length this).

(** ** The union accessors *)

Definition get_v8_api_array_buffer_allocator (this : BackingStore) : M positive :=
  if is_wasm_memory_ this then fatal
  else match type_specific_data_ this with
       | v8_api_array_buffer_allocator a => ret a
       | _ => fatal
       end.

Definition get_shared_wasm_memory_data (this : BackingStore) : M positive :=
  if negb (is_wasm_memory_ this && is_shared_ this) then fatal
  else match type_specific_data_ this with
       | shared_wasm_memory_data a => ret a
       | _ => fatal
       end.

(** Dereference of a node pointer; a dangling pointer aborts. *)
Definition node_at (p : positive) : M SharedWasmMemoryData := fun w =>
  match list_nodes w !! p with
  | Some d => Returned d w
  | None => Fatal w
  end.

Definition update_node (p : positive) (f : SharedWasmMemoryData -> SharedWasmMemoryData)
  : M unit := fun w =>
  match list_nodes w !! p with
  | Some d => Returned tt (set_list_nodes (<[p := f d]> (list_nodes w)) w)
  | None => Fatal w
  end.

Definition delete_node (p : positive) : M unit := fun w =>
  Returned tt (set_list_nodes (delete p (list_nodes w)) w).

(** ** The global registry *)

Definition Register (backing_store : option positive) : M unit :=
  match backing_store with
  | None => ret tt
  | Some p => fun w =>
      match backing_stores w !! p with
      | None => Fatal w
      | Some bs =>
          if globally_registered_ bs then Returned tt w
          else
            match map_ w !! buffer_start_ bs with
            | Some _ => Fatal w                          (* CHECK(result.second) *)
            | None =>
                Returned tt
                  (set_backing_stores
                     (<[p := set_globally_registered true bs]> (backing_stores w))
                     (set_map (<[buffer_start_ bs := p]> (map_ w)) w))
            end
      end
  end.

Definition Unregister (backing_store : BackingStore) : M (unit * BackingStore) :=
  if negb (globally_registered_ backing_store) then ret (tt, backing_store)
  else fun w =>
    let m := match map_ w !! buffer_start_ backing_store with
             | Some _ => delete (buffer_start_ backing_store) (map_ w)
             | None => map_ w
             end in
    Returned (tt, set_globally_registered false backing_store) (set_map m w).

(** A method called through a pointer to a live store of the heap. *)
Definition on_store {A} (p : positive) (method : BackingStore -> M (A * BackingStore))
  : M A := fun w =>
  match backing_stores w !! p with
  | None => Fatal w
  | Some this =>
      match method this w with
      | Returned (a, this') w' =>
          Returned a (set_backing_stores (<[p := this']> (backing_stores w')) w')
      | Fatal w' => Fatal w'
      | OutOfFuel => OutOfFuel
      end
  end.

(** [weak_ptr::lock]: the store if it is still alive. *)
Definition lock (w : World) (p : positive) : option positive :=
  match backing_stores w !! p with Some _ => Some p | None => None end.

Definition Lookup (buffer_start length : Z) : M (option positive) := fun w =>
  match map_ w !! buffer_start with
  | None => Returned None w
  | Some weak => Returned (lock w weak) w
  end.

(** ** Destruction *)

Fixpoint delete_list (fuel : nat) (node : option positive) : M unit :=
  match node with
  | None => ret tt
  | Some old =>
      match fuel with
      | O => fun _ => OutOfFuel
      | S fuel' =>
          call d <- node_at old;
          call _ <- delete_node old;
          delete_list fuel' (next_ d)
      end
  end.

(** [~BackingStore].  Every round of the list loop frees a live node, so
    one round more than there are live nodes is never exceeded. *)
Definition destroy (this : BackingStore) : M unit :=
  call (_, this) <- (if globally_registered_ this then Unregister this
                     else ret (tt, this));
  if buffer_start_ this =? 0 then ret tt
  else if is_wasm_memory_ this then
    call _ <- (if is_shared_ this then
                 call list <- get_shared_wasm_memory_data this;
                 fun w => delete_list (S (size (list_nodes w))) (Some list) w
               else ret tt);
    let region :=
      if has_guard_regions_ this
      then GetGuardedRegion (buffer_start_ this) (byte_length_ this)
      else {| region_begin := buffer_start_ this; region_size := byte_capacity_ this |} in
    call pages_were_freed <-
      (if region_size region =? 0 then ret true
       else do_FreePages (region_begin region) (region_size region));
    if negb pages_were_freed then fatal
    else
      do_ReleaseReservation
        (if has_guard_regions_ this then kFullGuardSize else byte_capacity_ this)
  else if free_on_destruct_ this then
    call _ <- get_v8_api_array_buffer_allocator this;
    fun w => Returned tt (emit (EvAllocatorFree (buffer_start_ this) (byte_length_ this)) w)
  else ret tt.

(** ** Copy and grow *)

Definition CopyWasmMemory (isolate : Isolate) (old : BackingStore)
    (new_byte_length : Z) : M (option BackingStore) :=
  call new_backing_store <-
    AllocateWasmMemory isolate (new_byte_length / kWasmPageSize cfg)
      (new_byte_length / kWasmPageSize cfg)
      (if is_shared_ old then kShared else kNotShared);
  match new_backing_store with
  | None => ret None
  | Some nbs =>
      if negb (eqb (has_guard_regions_ nbs) (has_guard_regions_ old)) then
        call _ <- destroy nbs;
        ret None
      else
        let old_size := byte_length_ old in
        call _ <- do_memcpy (buffer_start_ nbs) (buffer_start_ old) old_size;
        ret (Some nbs)
  end.

(** ** Wrapping an external allocation *)

Definition array_buffer_allocator (isolate : Isolate) : positive := Pos.of_succ_nat isolate.

Definition WrapAllocation (isolate : Isolate) (allocation_base allocation_length : Z)
    (shared : SharedFlag) (free_on_destruct : bool) : M BackingStore :=
  ret (set_type_specific_data (v8_api_array_buffer_allocator (array_buffer_allocator isolate))
         (new_BackingStore allocation_base allocation_length allocation_length shared
            false free_on_destruct false)).

(** ** Attachments of a shared wasm memory *)

(** A handle is identified with the object it refers to, so the weak
    global handle created for an attachment is the object's key. *)
Definition AddSharedWasmMemoryObject (isolate : Isolate) (backing_store : BackingStore)
    (memory_object : positive) : M unit :=
  let weak_memory := Some memory_object in
  call entry <- new_node (new_SharedWasmMemoryData (Some isolate) weak_memory);
  call list <- get_shared_wasm_memory_data backing_store;
  call anchor <- node_at list;
  let next := next_ anchor in
  call _ <- match next with
            | Some n =>
                call _ <- update_node n (set_prev (Some entry));
                update_node entry (set_next next)
            | None => ret tt
            end;
  call _ <- update_node list (set_next (Some entry));
  update_node entry (set_prev (Some list)).

Definition RequestGrowSharedMemory (isolate : Isolate) : M unit := fun w =>
  Returned tt (emit (EvRequestGrowSharedMemory isolate) w).

Definition owned_by (isolate : Isolate) (d : SharedWasmMemoryData) : bool :=
  match isolate_ d with
  | Some i => Nat.eqb i isolate
  | None => false
  end.

(** Phase A of the broadcast: the loop [while (list)] under the lock. *)
Fixpoint gather (fuel : nat) (isolate : Isolate) (node : option positive)
    (memory_objects : list positive) : M (list positive) :=
  match node with
  | None => ret memory_objects
  | Some p =>
      match fuel with
      | O => fun _ => OutOfFuel
      | S fuel' =>
          call d <- node_at p;
          match owned_by isolate d, memory_object_ d with
          | true, Some h => gather fuel' isolate (next_ d) (memory_objects ++ [h])
          | _, _ =>
              match isolate_ d with
              | None => fatal
              | Some i =>
                  call _ <- RequestGrowSharedMemory i;
                  gather fuel' isolate (next_ d) memory_objects
              end
          end
      end
  end.

(** Modelled from the spec: [NewJSSharedArrayBuffer] followed by [Attach]
    constructs a fresh buffer object over the store's region. *)
Definition Attach (backing_store : BackingStore) : JSArrayBuffer :=
  {| array_buffer_backing_store := buffer_start_ backing_store;
     array_buffer_byte_length := byte_length_ backing_store |}.

(** Modelled from the spec: [update_instances] replaces the buffer the view
    exposes.  A handle whose object is gone cannot be dereferenced. *)
Definition update_instances (memory_object : positive) (new_buffer : JSArrayBuffer)
  : M unit := fun w =>
  match memory_objects w !! memory_object with
  | Some _ =>
      Returned tt (set_memory_objects
                     (<[memory_object := {| array_buffer := new_buffer |}]> (memory_objects w))
                     w)
  | None => Fatal w
  end.

(** Phase B of the broadcast. *)
Fixpoint update_all (backing_store : BackingStore) (memory_objects : list positive)
  : M unit :=
  match memory_objects with
  | [] => ret tt
  | memory_object :: rest =>
      let new_buffer := Attach backing_store in
      call _ <- update_instances memory_object new_buffer;
      update_all backing_store rest
  end.

(** A null-terminated list has at most as many nodes as are alive; the
    walk is given one round more. *)
Definition BroadcastSharedWasmMemoryGrow (isolate : Isolate) (backing_store : BackingStore)
    (new_size : Z) : M unit :=
  call anchor <- get_shared_wasm_memory_data backing_store;
  call a <- node_at anchor;
  call memory_objects <-
    (fun w => gather (S (size (list_nodes w))) isolate (next_ a) [] w);
  update_all backing_store memory_objects.

(** The world a call ends in, whether it returns or aborts. *)
Definition final_world {A} (o : Outcome A) : option World :=
  match o with
  | Returned _ w => Some w
  | Fatal w => Some w
  | OutOfFuel => None
  end.

End Model.

Arguments Returned {P A} a w.
Arguments Fatal {P A} w.
Arguments OutOfFuel {P A}.

(** ** Observations on a trace *)

(** The attempts of the three retried phases of a managed allocation, and
    the reclamation request. *)
Definition is_reserve_attempt (e : Event) : bool :=
  match e with EvReserveAddressSpace _ _ => true | _ => false end.

Definition is_pages_attempt (e : Event) : bool :=
  match e with EvAllocatePages _ _ _ _ => true | _ => false end.

Definition is_commit_attempt (e : Event) : bool :=
  match e with EvSetPermissions _ _ _ _ => true | _ => false end.

Definition is_reclaim (e : Event) : bool :=
  match e with EvMemoryPressure _ _ => true | _ => false end.

Fixpoint attempts (is_attempt : Event -> bool) (evs : list Event) : nat :=
  match evs with
  | [] => O
  | e :: rest => ((if is_attempt e then 1 else 0) + attempts is_attempt rest)%nat
  end.

(** No attempt is made while the previous one still waits for its
    reclamation request ([pending]). *)
Fixpoint reclaim_between (is_attempt : Event -> bool) (pending : bool)
    (evs : list Event) : bool :=
  match evs with
  | [] => true
  | e :: rest =>
      if is_attempt e then negb pending && reclaim_between is_attempt true rest
      else if is_reclaim e then reclaim_between is_attempt false rest
      else reclaim_between is_attempt pending rest
  end.

(** The reservations the collector released during the events. *)
Fixpoint released_by (evs : list Event) : list Z :=
  match evs with
  | [] => []
  | EvMemoryPressure _ released :: rest => released ++ released_by rest
  | _ :: rest => released_by rest
  end.

Definition total (sizes : list Z) : Z := fold_right Z.add 0 sizes.

(** Every reservation, page request and release of the events is of
    [size] bytes. *)
Definition of_size (size : Z) (e : Event) : Prop :=
  match e with
  | EvReserveAddressSpace n _ => n = size
  | EvAllocatePages n _ _ _ => n = size
  | EvReleaseReservation n => n = size
  | _ => True
  end.

(** ** A scripted platform

    The answers of the page allocator and of the collector are read off a
    script, call by call; a call beyond the script fails (and a collection
    beyond it releases nothing). *)
Record Script := {
  allocations : list Z;
  permissions : list bool;
  frees : list bool;
  collections : list (list Z)
}.

#[export] Instance Script_Platform : Platform Script := {
  AllocatePages _ _ _ _ s :=
    match allocations s with
    | [] => (0, s)
    | r :: rest =>
        (r, {| allocations := rest; permissions := permissions s; frees := frees s;
               collections := collections s |})
    end;
  FreePages _ _ s :=
    match frees s with
    | [] => (false, s)
    | r :: rest =>
        (r, {| allocations := allocations s; permissions := permissions s; frees := rest;
               collections := collections s |})
    end;
  SetPermissions _ _ _ s :=
    match permissions s with
    | [] => (false, s)
    | r :: rest =>
        (r, {| allocations := allocations s; permissions := rest; frees := frees s;
               collections := collections s |})
    end;
  MemoryPressureNotification _ s :=
    match collections s with
    | [] => ([], s)
    | r :: rest =>
        (r, {| allocations := allocations s; permissions := permissions s; frees := frees s;
               collections := rest |})
    end
}.

(** A world with counter [c], nothing allocated and nothing registered. *)
Definition fresh_world {P : Type} (c : Z) (p : P) : World :=
  {| reserved_address_space_ := c; platform := p; memory := fun _ => Byte.x00;
     backing_stores := ∅; map_ := ∅; list_nodes := ∅; memory_objects := ∅;
     trace := [] |}.

(** A 64-bit build with 64 KiB pages and a 4 GiB engine maximum, and a
    32-bit build with a 1 GiB engine maximum. *)
Definition x64_build : Build :=
  {| target_arch := Arch64; kV8MaxWasmMemoryPages := 65536; kWasmPageSize := 65536;
     FLAG_correctness_fuzzer_suppressions := false |}.

Definition ia32_build : Build :=
  {| target_arch := Arch32; kV8MaxWasmMemoryPages := 16384; kWasmPageSize := 65536;
     FLAG_correctness_fuzzer_suppressions := false |}.

Definition fuzzer_build : Build :=
  {| target_arch := Arch64; kV8MaxWasmMemoryPages := 65536; kWasmPageSize := 65536;
     FLAG_correctness_fuzzer_suppressions := true |}.

(** ** Sample platforms and worlds *)

(** A platform on which every request fails. *)
Definition no_answers : Script :=
  {| allocations := []; permissions := []; frees := []; collections := [] |}.

(** A 64-bit build with 102 guarded stores alive: 1020 GiB are reserved
    and the ceiling leaves no room for another 10 GiB. *)
Definition full_world : @World Script :=
  fresh_world (102 * kFullGuardSize) no_answers.

(** A platform that hands out the region at [base] once and then grants
    every permission change asked of it three times over. *)
Definition obliging (base : Z) : Script :=
  {| allocations := [base]; permissions := [true; true; true]; frees := [true];
     collections := [] |}.

(** A managed store of one page with room for two, as a 32-bit build lays
    it out at [start]. *)
Definition small_store (start : Z) : BackingStore :=
  new_BackingStore start 65536 131072 kNotShared true true false.

(** A guarded store of two pages at 16 GiB, and a world in which byte
    70000 of its region holds a mark. *)
Definition two_page_store : BackingStore :=
  new_BackingStore (16 * GB) 131072 (65536 * 65536) kNotShared true true true.

Definition marked_world : @World Script :=
  set_memory (fun a => if a =? 16 * GB + 70000 then Byte.x2a else Byte.x00)
    (fresh_world 0 (obliging (4 * GB))).

(** Whether a copy-and-grow returned a store. *)
Definition returned_store (o : @Outcome Script (option BackingStore)) : bool :=
  match o with Returned (Some _) _ => true | _ => false end.

(** ** Consistency of the registry

    Every entry of the map is keyed by the start of a live store that is
    flagged as registered, and every live store flagged as registered has
    its entry. *)
Definition registry_ok {P : Type} (w : @World P) : Prop :=
  (forall a p, map_ w !! a = Some p ->
     exists bs, backing_stores w !! p = Some bs /\
                buffer_start_ bs = a /\ globally_registered_ bs = true) /\
  (forall p bs, backing_stores w !! p = Some bs -> globally_registered_ bs = true ->
     map_ w !! buffer_start_ bs = Some p).

(** Two shared stores wrapping the same external region of 4 KiB at
    address 8192, owned by two shared pointers. *)
Definition wrapped_region : BackingStore :=
  set_type_specific_data (v8_api_array_buffer_allocator (array_buffer_allocator 0%nat))
    (new_BackingStore 8192 4096 4096 kShared false false false).

Definition two_wrappers : @World Script :=
  set_backing_stores (<[1%positive := wrapped_region]> (<[2%positive := wrapped_region]> ∅))
    (fresh_world 0 no_answers).

(** ** The attachment list as a sequence

    [lseg h first l]: following [next_] from [first] through the live
    nodes [h] visits exactly the nodes [l], with their addresses, and ends
    at the null pointer. *)
Inductive lseg (h : gmap positive SharedWasmMemoryData)
  : option positive -> list (positive * SharedWasmMemoryData) -> Prop :=
  | lseg_nil : lseg h None []
  | lseg_cons p d l :
      h !! p = Some d -> lseg h (next_ d) l -> lseg h (Some p) ((p, d) :: l).

(** The handles a broadcast for [isolate] gathers from the nodes, and the
    requests it sends for the nodes it does not gather from. *)
Fixpoint gathered (isolate : Isolate) (l : list (positive * SharedWasmMemoryData))
  : list positive :=
  match l with
  | [] => []
  | (_, d) :: rest =>
      match owned_by isolate d, memory_object_ d with
      | true, Some h => h :: gathered isolate rest
      | _, _ => gathered isolate rest
      end
  end.

Fixpoint signalled (isolate : Isolate) (l : list (positive * SharedWasmMemoryData))
  : list Event :=
  match l with
  | [] => []
  | (_, d) :: rest =>
      match owned_by isolate d, memory_object_ d with
      | true, Some _ => signalled isolate rest
      | _, _ =>
          match isolate_ d with
          | Some i => EvRequestGrowSharedMemory i :: signalled isolate rest
          | None => signalled isolate rest
          end
      end
  end.

Definition emit_all {P : Type} (evs : list Event) (w : @World P) : @World P :=
  fold_left (fun w e => emit e w) evs w.

(** A shared guarded store, grown to two pages, whose list holds, after
    the anchor at node 1, an attachment of isolate 2 (node 3, view 2) and
    an attachment of isolate 1 (node 2, view 1); both views still expose a
    buffer of one page. *)
Definition shared_store : BackingStore :=
  set_type_specific_data (shared_wasm_memory_data 1%positive)
    (new_BackingStore (6 * GB) 131072 (65536 * 65536) kShared true true true).

Definition one_page_view : WasmMemoryObject :=
  {| array_buffer := {| array_buffer_backing_store := 6 * GB;
                        array_buffer_byte_length := 65536 |} |}.

Definition attached_nodes : gmap positive SharedWasmMemoryData :=
  <[1%positive := {| next_ := Some 3%positive; prev_ := None; isolate_ := None;
                     memory_object_ := None |}]>
  (<[2%positive := {| next_ := None; prev_ := Some 3%positive; isolate_ := Some 1%nat;
                      memory_object_ := Some 1%positive |}]>
  (<[3%positive := {| next_ := Some 2%positive; prev_ := Some 1%positive;
                      isolate_ := Some 2%nat; memory_object_ := Some 2%positive |}]> ∅)).

Definition attached_world : @World Script :=
  set_list_nodes attached_nodes
    (set_memory_objects (<[1%positive := one_page_view]> (<[2%positive := one_page_view]> ∅))
       (fresh_world kFullGuardSize no_answers)).

(** The view behind handle [h] after a call, and the requests the call
    sent. *)
Definition view_length_after (h : positive) (o : @Outcome Script unit) : option Z :=
  match o with
  | Returned _ w =>
      match memory_objects w !! h with
      | Some v => Some (array_buffer_byte_length (array_buffer v))
      | None => None
      end
  | _ => None
  end.

(** ** Further observations on a trace *)

(** The allocation results recorded during the events, in order. *)
Fixpoint statuses (evs : list Event) : list AllocationStatus :=
  match evs with
  | [] => []
  | EvRecordStatus _ s :: rest => s :: statuses rest
  | _ :: rest => statuses rest
  end.

(** The regions the page allocator handed out during the events. *)
Fixpoint pages_obtained (evs : list Event) : list Z :=
  match evs with
  | [] => []
  | EvAllocatePages _ _ _ r :: rest =>
      if r =? 0 then pages_obtained rest else r :: pages_obtained rest
  | _ :: rest => pages_obtained rest
  end.

(** The offset of the buffer in the pages reserved for it. *)
Definition guard_offset (a : TargetArch) : Z :=
  if kUseGuardRegions a then kNegativeGuardSize else 0.

(** Whether a run asked for memory to be reclaimed. *)
Definition retried (evs : list Event) : bool :=
  negb (Nat.eqb (attempts is_reclaim evs) 0).

(** ** Dropping the last reference to a store

    The store at [p] is owned by shared pointers; when the last of them
    goes, the destructor runs and the object is gone. *)
Section Lifetime.
Context {P : Type} `{!Platform P}.

Definition delete_store (p : positive) : @M P unit := fun w =>
  match backing_stores w !! p with
  | None => Fatal w
  | Some this =>
      match destroy this w with
      | Returned _ w' =>
          Returned tt (set_backing_stores (delete p (backing_stores w')) w')
      | Fatal w' => Fatal w'
      | OutOfFuel => OutOfFuel
      end
  end.

(** A call that leaves the stores and the registry alone. *)
Definition keeps_registry {A} (m : @M P A) : Prop :=
  forall w a w', m w = Returned a w' ->
    backing_stores w' = backing_stores w /\ map_ w' = map_ w.

End Lifetime.

(** A platform whose first page reservation fails; the collection that
    follows finalises one guarded store, and the second reservation is
    served at 4 GiB.  Two guarded stores are alive to begin with. *)
Definition retrying : Script :=
  {| allocations := [0; 4 * GB]; permissions := [true]; frees := [true];
     collections := [[kFullGuardSize]] |}.

Definition retrying_world : @World Script := fresh_world (2 * kFullGuardSize) retrying.

(** ** Allocation through the embedder's allocator *)

Inductive InitializedFlag := kUninitialized | kZeroInitialized.

(** The array-buffer allocator of the embedder, with its state in [P]. *)
Class ArrayBufferAllocator (P : Type) := {
  allocator_Allocate : Z -> P -> Z * P;
  allocator_AllocateUninitialized : Z -> P -> Z * P
}.

(** The samples [Allocate] adds to the isolate's histograms. *)
Inductive CounterSample :=
  | array_buffer_big_allocations (mb : Z)
  | shared_array_allocations (mb : Z)
  | array_buffer_new_size_failures (mb : Z).

Definition MB : Z := 1024 * 1024.

(** [static_cast<int>] of a [size_t]. *)
Definition to_int (z : Z) : Z := (z + 2 ^ 31) mod 2 ^ 32 - 2 ^ 31.

Section Embedder.
Context {P : Type} `{!Platform P} `{!ArrayBufferAllocator P}.

(** [BackingStore::Allocate]; the samples are handed back with the result,
    in the order they are added.  The zero check of the fresh memory is
    compiled out. *)
Definition Allocate (isolate : Isolate) (byte_length : Z) (shared : SharedFlag)
    (initialized : InitializedFlag) : @M P (list CounterSample * option BackingStore) :=
  fun w =>
  let allocator := array_buffer_allocator isolate in
  let result (buffer_start : Z) :=
    set_type_specific_data (v8_api_array_buffer_allocator allocator)
      (new_BackingStore buffer_start byte_length byte_length shared false true false) in
  if byte_length =? 0 then Returned ([], Some (result 0)) w
  else
    let mb_length := to_int (byte_length / MB) in
    let samples :=
      (if 0 <? mb_length then [array_buffer_big_allocations mb_length] else []) ++
      (if is_kShared shared then [shared_array_allocations mb_length] else []) in
    let '(buffer_start, p) :=
      match initialized with
      | kZeroInitialized => allocator_Allocate byte_length (platform w)
      | kUninitialized => allocator_AllocateUninitialized byte_length (platform w)
      end in
    if buffer_start =? 0
    then Returned (samples ++ [array_buffer_new_size_failures mb_length], None)
           (set_platform p w)
    else Returned (samples, Some (result buffer_start)) (set_platform p w).

End Embedder.

(** The scripted platform serves the embedder's allocator from the same
    script of regions. *)
#[export] Instance Script_Allocator : ArrayBufferAllocator Script := {
  allocator_Allocate _ s :=
    match allocations s with
    | [] => (0, s)
    | r :: rest =>
        (r, {| allocations := rest; permissions := permissions s; frees := frees s;
               collections := collections s |})
    end;
  allocator_AllocateUninitialized _ s :=
    match allocations s with
    | [] => (0, s)
    | r :: rest =>
        (r, {| allocations := rest; permissions := permissions s; frees := frees s;
               collections := collections s |})
    end
}.

(** ** Purging the attachments of an isolate *)

Section Purging.
Context {P : Type} `{!Platform P}.

(** [SharedWasmMemoryData::unlink]. *)
Definition unlink (this : positive) : @M P (option positive) :=
  bind (node_at this) (fun d =>
  let next := next_ d in
  bind (match prev_ d with
        | Some q => update_node q (set_next (next_ d))
        | None => ret tt
        end) (fun _ =>
  bind (match next_ d with
        | Some n => update_node n (set_prev (prev_ d))
        | None => ret tt
        end) (fun _ =>
  ret next))).

(** The loop [while (list)] of [Purge] over one list. *)
Fixpoint purge_list (fuel : nat) (isolate : Isolate) (node : option positive)
  : @M P unit :=
  match node with
  | None => ret tt
  | Some p =>
      match fuel with
      | O => fun _ => OutOfFuel
      | S fuel' =>
          bind (node_at p) (fun d =>
          if owned_by isolate d then
            bind (unlink p) (fun next =>
            bind (delete_node p) (fun _ =>
            purge_list fuel' isolate next))
          else purge_list fuel' isolate (next_ d))
      end
  end.

(** The body of the loop over the registry's entries. *)
Definition purge_entry (isolate : Isolate) (weak : positive) : @M P unit := fun w =>
  match backing_stores w !! weak with
  | None => Returned tt w
  | Some backing_store =>
      if negb (is_wasm_memory_ backing_store) then Returned tt w
      else
        bind (get_shared_wasm_memory_data backing_store) (fun first w0 =>
          purge_list (S (size (list_nodes w0))) isolate (Some first) w0) w
  end.

Fixpoint purge_entries (isolate : Isolate) (entries : list (Z * positive)) : @M P unit :=
  match entries with
  | [] => ret tt
  | (_, weak) :: rest =>
      bind (purge_entry isolate weak) (fun _ => purge_entries isolate rest)
  end.

(** [GlobalBackingStoreRegistry::Purge], visiting the entries in the order
    the map enumerates them. *)
Definition Purge (isolate : Isolate) : @M P unit := fun w =>
  purge_entries isolate (map_to_list (map_ w)) w.

End Purging.

(** ** Doubly linked lists

    [dll h prev first ks]: from [first], whose predecessor is [prev], the
    live nodes [h] are linked forwards and backwards through exactly the
    addresses [ks], up to the null pointer. *)
Inductive dll (h : gmap positive SharedWasmMemoryData)
  : option positive -> option positive -> list positive -> Prop :=
  | dll_nil prev : dll h prev None []
  | dll_cons prev p d ks :
      h !! p = Some d -> prev_ d = prev -> dll h (Some p) (next_ d) ks ->
      dll h prev (Some p) (p :: ks).

(** Whether the node at [p] is owned by [isolate]. *)
Definition owned_at (h : gmap positive SharedWasmMemoryData) (isolate : Isolate)
    (p : positive) : bool :=
  match h !! p with
  | Some d => owned_by isolate d
  | None => false
  end.

(** The owner and the handle of the node at [p]. *)
Definition payload_at (h : gmap positive SharedWasmMemoryData) (p : positive)
  : option (option Isolate * option positive) :=
  match h !! p with
  | Some d => Some (isolate_ d, memory_object_ d)
  | None => None
  end.

(** The live nodes once the nodes at [ks] are deleted. *)
Definition remove_all (ks : list positive) (h : gmap positive SharedWasmMemoryData)
  : gmap positive SharedWasmMemoryData :=
  fold_left (fun h k => delete k h) ks h.

(** The region the destructor frees for a managed store, and the
    reservation it releases. *)
Definition region_of (this : BackingStore) : AddressRegion :=
  if has_guard_regions_ this
  then GetGuardedRegion (buffer_start_ this) (byte_length_ this)
  else {| region_begin := buffer_start_ this; region_size := byte_capacity_ this |}.

Definition reservation_of (this : BackingStore) : Z :=
  if has_guard_regions_ this then kFullGuardSize else byte_capacity_ this.

(** A shared store at 8192 that wraps external memory and owns it, and a
    world in which it is the registered store 1, beside the unregistered
    wrapper 2 of another region. *)
Definition owned_region : BackingStore :=
  set_type_specific_data (v8_api_array_buffer_allocator (array_buffer_allocator 0%nat))
    (new_BackingStore 8192 4096 4096 kShared false true false).

Definition other_region : BackingStore :=
  set_type_specific_data (v8_api_array_buffer_allocator (array_buffer_allocator 0%nat))
    (new_BackingStore 16384 4096 4096 kShared false false false).

Definition registered_world : @World Script :=
  set_map (<[8192 := 1%positive]> ∅)
    (set_backing_stores
       (<[1%positive := set_globally_registered true owned_region]>
          (<[2%positive := other_region]> ∅))
       (fresh_world 0 no_answers)).

(** The same world once the wrapper 2 is registered too. *)
Definition both_registered : @World Script :=
  set_backing_stores
    (<[2%positive := set_globally_registered true other_region]>
       (backing_stores registered_world))
    (set_map (<[16384 := 2%positive]> (map_ registered_world)) registered_world).

(** The node before [o], if there is one, is live and points at [o]. *)
Definition links_to (h : gmap positive SharedWasmMemoryData) (prev o : option positive)
  : Prop :=
  match prev with
  | None => True
  | Some q => exists dq, h !! q = Some dq /\ next_ dq = o
  end.

(** The nodes of [ks] that [isolate] does not own. *)
Fixpoint kept (h : gmap positive SharedWasmMemoryData) (isolate : Isolate)
    (ks : list positive) : list positive :=
  match ks with
  | [] => []
  | k :: rest =>
      if owned_at h isolate k then kept h isolate rest else k :: kept h isolate rest
  end.

(** What unlinking a node between [prev] and [next] makes of the node
    [dk] at [k]. *)
Definition relink (prev next : option positive) (k : positive)
    (dk : SharedWasmMemoryData) : SharedWasmMemoryData :=
  if decide (prev = Some k) then set_next next dk
  else if decide (next = Some k) then set_prev prev dk
  else dk.

(** A skipped entry of the registry: its store is gone or is no wasm
    memory. *)
Definition skipped {P : Type} (w : @World P) (weak : positive) : Prop :=
  forall bs, backing_stores w !! weak = Some bs -> is_wasm_memory_ bs = false.

(** The shared store with its two attachments, registered as store 1. *)
Definition purge_world : @World Script :=
  set_map (<[6 * GB := 1%positive]> ∅)
    (set_backing_stores (<[1%positive := set_globally_registered true shared_store]> ∅)
       attached_world).

(** A registry that holds a wasm memory that is not shared. *)
Definition unshared_world : @World Script :=
  set_map (<[16 * GB := 1%positive]> ∅)
    (set_backing_stores (<[1%positive := set_globally_registered true two_page_store]> ∅)
       (fresh_world kFullGuardSize no_answers)).

(** The shared store with its two attachments on a platform that frees
    its region. *)
Definition detachable_world : @World Script :=
  set_platform (obliging 0) attached_world.

Definition attached_list : list (positive * SharedWasmMemoryData) :=
  [(1%positive, {| next_ := Some 3%positive; prev_ := None; isolate_ := None;
                   memory_object_ := None |});
   (3%positive, {| next_ := Some 2%positive; prev_ := Some 1%positive;
                   isolate_ := Some 2%nat; memory_object_ := Some 2%positive |});
   (2%positive, {| next_ := None; prev_ := Some 3%positive; isolate_ := Some 1%nat;
                   memory_object_ := Some 1%positive |})].

(** A platform that hands out the region at 4 GiB and refuses every
    permission change. *)
Definition refusing : Script :=
  {| allocations := [4 * GB]; permissions := []; frees := []; collections := [] |}.

(** The registered shared store on a platform that grants permission
    changes. *)
Definition growable_world : @World Script := set_platform (obliging 0) purge_world.

(** A 32-bit build that allows 65536 pages: the engine maximum is 4 GiB,
    one more than the size type holds. *)
Definition ia32_wide_build : Build :=
  {| target_arch := Arch32; kV8MaxWasmMemoryPages := 65536; kWasmPageSize := 65536;
     FLAG_correctness_fuzzer_suppressions := false |}.

(** The live nodes once the anchor of a shared wasm memory is deleted. *)
Definition without_anchor (this : BackingStore) (h : gmap positive SharedWasmMemoryData)
  : gmap positive SharedWasmMemoryData :=
  match type_specific_data_ this with
  | shared_wasm_memory_data anchor => delete anchor h
  | _ => h
  end.

(** Calls that give memory or address space back. *)
Definition is_hand_back (e : Event) : bool :=
  match e with
  | EvFreePages _ _ _ => true
  | EvReleaseReservation _ => true
  | _ => false
  end.

(** ** Symbolic execution of the allocation

    [run_in H] unfolds the monad and the phases in [H]; [oracle_step H]
    splits on the answer of the next external call met in [H];
    [trace_checks] settles the checks on an explicit list of events. *)
Ltac run_in H :=
  cbv beta iota zeta delta
    [bind ret fatal negb gc_retry gc_retry_rounds reserve_memory_space allocate_pages
     commit_memory do_ReserveAddressSpace do_AllocatePages do_SetPermissions
     do_MemoryPressureNotification do_ReleaseReservation RecordStatus new_node
     set_did_retry set_allocation_base did_retry allocation_base] in H.

Ltac oracle_step H :=
  match type of H with
  | context [ReserveAddressSpace ?a ?n ?c] =>
      let ok := fresh "ok" in let c' := fresh "c" in let E := fresh "Hres" in
      destruct (ReserveAddressSpace a n c) as [ok c'] eqn:E; destruct ok
  | context [MemoryPressureNotification ?i ?p] =>
      let r := fresh "released" in let p' := fresh "p" in let E := fresh "Hgc" in
      destruct (MemoryPressureNotification i p) as [r p'] eqn:E
  | context [AllocatePages ?h ?s ?al ?ac ?p] =>
      let r := fresh "base" in let p' := fresh "p" in let E := fresh "Hpages" in
      let Z0 := fresh "Hnull" in
      destruct (AllocatePages h s al ac p) as [r p'] eqn:E;
      destruct (r =? 0) eqn:Z0
  | context [SetPermissions ?a ?s ?ac ?p] =>
      let ok := fresh "ok" in let p' := fresh "p" in let E := fresh "Hperm" in
      destruct (SetPermissions a s ac p) as [ok p'] eqn:E; destruct ok
  end;
  run_in H.

Ltac trace_checks :=
  repeat split;
  first [ reflexivity
        | cbn; lia
        | repeat (constructor; try exact I; try reflexivity) ].

(** [phase_leaves H] runs one retried phase in [H] through every answer of
    the platform and leaves the world it ends in. *)
Ltac phase_leaves H :=
  unfold gc_retry in H; run_in H;
  repeat oracle_step H; inversion H; subst; clear H;
  cbn [trace emit set_platform set_reserved reserved_address_space_ platform
       list_nodes memory backing_stores map_ memory_objects] in *;
  rewrite <- ?app_assoc; cbn [app].

(** * Properties *)

Section Accounting.

Lemma to_uint64_small z : 0 <= z < 2 ^ 64 -> to_uint64 z = z.
Proof. intros. unfold to_uint64. apply Z.mod_small. assumption. Qed.

Lemma to_uint64_range z : 0 <= to_uint64 z < 2 ^ 64.
Proof. unfold to_uint64. apply Z.mod_pos_bound. lia. Qed.

Lemma kAddressSpaceLimit_range a : 0 < kAddressSpaceLimit a < 2 ^ 64.
Proof. destruct a; vm_compute; split; reflexivity. Qed.

(** Without interference the loop is its first round. *)
Lemma ReserveAddressSpace_eq a n c :
  ReserveAddressSpace a n c =
    if kAddressSpaceLimit a <? c then (false, c)
    else if kAddressSpaceLimit a - c <? n then (false, c)
    else (true, to_uint64 (c + n)).
Proof. reflexivity. Qed.

Lemma ReserveAddressSpace_false a n c c' :
  ReserveAddressSpace a n c = (false, c') -> c' = c.
Proof.
  rewrite ReserveAddressSpace_eq.
  destruct (kAddressSpaceLimit a <? c); [congruence |].
  destruct (kAddressSpaceLimit a - c <? n); congruence.
Qed.

Lemma ReserveAddressSpace_true a n c c' :
  0 <= c -> 0 <= n ->
  ReserveAddressSpace a n c = (true, c') ->
  c' = c + n /\ c + n <= kAddressSpaceLimit a.
Proof.
  intros Hc Hn. rewrite ReserveAddressSpace_eq.
  destruct (Z.ltb_spec (kAddressSpaceLimit a) c); [congruence |].
  destruct (Z.ltb_spec (kAddressSpaceLimit a - c) n); [congruence |].
  intros [= <-]. pose proof (kAddressSpaceLimit_range a).
  rewrite to_uint64_small by lia. lia.
Qed.

(** Whatever other threads store in the cell between the rounds, a
    successful exchange leaves the counter within the limit. *)
Lemma ReserveAddressSpace_loop_bound others limit n c c' :
  0 <= n -> 0 <= c -> Forall (fun v => 0 <= v) others -> limit < 2 ^ 64 ->
  ReserveAddressSpace_loop others limit n c = (true, c') -> c' <= limit.
Proof.
  intros Hn Hc Hothers Hlimit. revert c Hc.
  induction Hothers as [| v others Hv _ IH]; intros c Hc; simpl.
  - destruct (Z.ltb_spec limit c); [congruence |].
    destruct (Z.ltb_spec (limit - c) n); [congruence |].
    intros [= <-]. rewrite to_uint64_small by lia. lia.
  - destruct (Z.ltb_spec limit c); [congruence |].
    destruct (Z.ltb_spec (limit - c) n); [congruence |].
    destruct (v =? c).
    + intros [= <-]. rewrite to_uint64_small by lia. lia.
    + apply IH. exact Hv.
Qed.

(** C4.  From a counter [c], reserving [n] bytes with [c + n] within the
    ceiling succeeds and adds exactly [n], and releasing [n] afterwards
    gives [c] back; a reservation that would exceed the ceiling fails and
    leaves the counter as it was; so a counter within the ceiling stays
    within it. *)
Theorem reserve_release_counter (a : TargetArch) (c n : Z) :
  0 <= c < 2 ^ 64 -> 0 <= n < 2 ^ 64 ->
  (c + n <= kAddressSpaceLimit a ->
     ReserveAddressSpace a n c = (true, c + n) /\
     ReleaseReservation n (c + n) = c) /\
  (kAddressSpaceLimit a < c + n -> ReserveAddressSpace a n c = (false, c)) /\
  (c <= kAddressSpaceLimit a ->
     snd (ReserveAddressSpace a n c) <= kAddressSpaceLimit a).
Proof.
  intros Hc Hn. pose proof (kAddressSpaceLimit_range a) as Hl.
  rewrite ReserveAddressSpace_eq. repeat split.
  - destruct (Z.ltb_spec (kAddressSpaceLimit a) c); [lia |].
    destruct (Z.ltb_spec (kAddressSpaceLimit a - c) n); [lia |].
    rewrite to_uint64_small by lia. reflexivity.
  - unfold ReleaseReservation. replace (c + n - n) with c by lia.
    apply to_uint64_small. exact Hc.
  - intros Hover.
    destruct (Z.ltb_spec (kAddressSpaceLimit a) c); [reflexivity |].
    destruct (Z.ltb_spec (kAddressSpaceLimit a - c) n); [reflexivity | lia].
  - intros Hin.
    destruct (Z.ltb_spec (kAddressSpaceLimit a) c); [simpl; lia |].
    destruct (Z.ltb_spec (kAddressSpaceLimit a - c) n); [simpl; lia |].
    simpl. rewrite to_uint64_small by lia. lia.
Qed.

Lemma reserve_release_counter_witness :
  ReserveAddressSpace Arch64 kFullGuardSize 4096 = (true, 4096 + kFullGuardSize) /\
  ReleaseReservation kFullGuardSize (4096 + kFullGuardSize) = 4096.
Proof.
  assert (Hc : 0 <= 4096 < 2 ^ 64) by (vm_compute; split; congruence).
  assert (Hn : 0 <= kFullGuardSize < 2 ^ 64) by (vm_compute; split; congruence).
  destruct (reserve_release_counter Arch64 4096 kFullGuardSize Hc Hn) as (Hok & _ & _).
  apply Hok. vm_compute. congruence.
Defined.

(** C5.  The envelope of a guarded buffer starts 2 GiB below the buffer
    (in 64-bit address arithmetic, and literally so for every start from
    2 GiB up), is 10 GiB long, and does not depend on the length passed. *)
Theorem guarded_region_layout (start length length' : Z) :
  0 <= start < 2 ^ 64 ->
  to_uint64 (region_begin (GetGuardedRegion start length) + kNegativeGuardSize) = start /\
  (kNegativeGuardSize <= start ->
     region_begin (GetGuardedRegion start length) = start - kNegativeGuardSize) /\
  region_size (GetGuardedRegion start length) = kFullGuardSize /\
  GetGuardedRegion start length = GetGuardedRegion start length'.
Proof.
  intros Hs. unfold GetGuardedRegion; simpl.
  change (2 * GB) with kNegativeGuardSize.
  assert (Hg : kNegativeGuardSize = 2147483648) by reflexivity.
  repeat split.
  - unfold to_uint64. rewrite Zplus_mod_idemp_l.
    replace (start - kNegativeGuardSize + kNegativeGuardSize) with start by lia.
    apply Z.mod_small. exact Hs.
  - intros Hge. apply to_uint64_small. lia.
Qed.

Lemma guarded_region_layout_witness :
  region_begin (GetGuardedRegion (4 * GB) 65536) = 2 * GB /\
  region_size (GetGuardedRegion (4 * GB) 65536) = 10 * GB.
Proof.
  destruct (guarded_region_layout (4 * GB) 65536 0) as (_ & Hb & Hs & _).
  - vm_compute. split; congruence.
  - split; [apply Hb; vm_compute; congruence | exact Hs].
Defined.

Lemma total_app (xs ys : list Z) : total (xs ++ ys) = total xs + total ys.
Proof. induction xs as [| x xs IH]; simpl; [reflexivity | rewrite IH; lia]. Qed.

Lemma released_by_app (xs ys : list Event) :
  released_by (xs ++ ys) = released_by xs ++ released_by ys.
Proof.
  induction xs as [| e xs IH]; simpl; [reflexivity |].
  destruct e; try exact IH. rewrite IH. apply app_assoc.
Qed.

Lemma release_all_range rel c : 0 <= c < 2 ^ 64 -> 0 <= release_all rel c < 2 ^ 64.
Proof.
  revert c. induction rel as [| n rel IH]; intros c Hc; simpl; [exact Hc |].
  apply IH. apply to_uint64_range.
Qed.

(** Releasing reservation after reservation subtracts their total. *)
Lemma release_all_total rel c :
  0 <= c < 2 ^ 64 -> release_all rel c = to_uint64 (c - total rel).
Proof.
  revert c. induction rel as [| n rel IH]; intros c Hc; simpl.
  - rewrite Z.sub_0_r. symmetry. apply to_uint64_small. exact Hc.
  - change (fold_left (fun c0 n0 => ReleaseReservation n0 c0) rel (ReleaseReservation n c))
      with (release_all rel (ReleaseReservation n c)).
    rewrite IH by apply to_uint64_range.
    unfold ReleaseReservation, to_uint64. rewrite Zminus_mod_idemp_l.
    f_equal. lia.
Qed.

Lemma release_all_app r1 r2 c :
  release_all (r1 ++ r2) c = release_all r2 (release_all r1 c).
Proof. unfold release_all. apply fold_left_app. Qed.

Lemma reserve_after_release c rel rs limit :
  0 <= c < 2 ^ 64 -> 0 <= rs -> limit < 2 ^ 64 ->
  release_all rel c + rs <= limit ->
  release_all rel c + rs = to_uint64 (c + rs - total rel).
Proof.
  intros Hc Hrs Hlim Hle. pose proof (release_all_range rel c Hc) as Hr.
  rewrite <- (to_uint64_small (release_all rel c + rs)) by lia.
  rewrite release_all_total by exact Hc.
  unfold to_uint64. rewrite Zplus_mod_idemp_l. f_equal. lia.
Qed.

End Accounting.

Section Allocation.
Context {P : Type} `{!Platform P}.

Lemma TryAllocateWasmMemory_Some cfg isolate initial_pages maximum_pages shared w bs w' :
  TryAllocateWasmMemory cfg isolate initial_pages maximum_pages shared w = Returned (Some bs) w' ->
  byte_length_ bs = to_size_t (target_arch cfg) (initial_pages * kWasmPageSize cfg) /\
  byte_capacity_ bs = byte_capacity_for cfg maximum_pages /\
  has_guard_regions_ bs = kUseGuardRegions (target_arch cfg) /\
  is_wasm_memory_ bs = true /\
  is_shared_ bs = is_kShared shared /\
  globally_registered_ bs = false /\
  memory w' = memory w.
Proof.
  unfold TryAllocateWasmMemory. intros H0. run_in H0.
  destruct (FLAG_correctness_fuzzer_suppressions cfg);
  destruct (to_size_t (target_arch cfg) (initial_pages * kWasmPageSize cfg) =? 0) eqn:Hlen;
  repeat oracle_step H0; try discriminate H0.
  all: destruct shared; cbn in H0; inversion H0; subst; cbn; repeat split; reflexivity.
Qed.

Lemma TryAllocateWasmMemory_frame cfg isolate initial_pages maximum_pages shared w r w' :
  TryAllocateWasmMemory cfg isolate initial_pages maximum_pages shared w = Returned r w' ->
  memory w' = memory w.
Proof.
  unfold TryAllocateWasmMemory. intros H0. run_in H0.
  destruct (FLAG_correctness_fuzzer_suppressions cfg);
  destruct (to_size_t (target_arch cfg) (initial_pages * kWasmPageSize cfg) =? 0) eqn:Hlen;
  repeat oracle_step H0; try discriminate H0.
  all: destruct shared; cbn in H0; inversion H0; subst; cbn; repeat split; reflexivity.
Qed.

(** Every run of a managed allocation extends the trace by events in
    which no phase is attempted more than three times, a reclamation
    request separates consecutive attempts of a phase, and every
    reservation and page request is of the computed reservation size. *)
Lemma TryAllocateWasmMemory_trace cfg isolate initial_pages maximum_pages shared w :
  exists w' evs,
    final_world (TryAllocateWasmMemory cfg isolate initial_pages maximum_pages shared w)
      = Some w' /\
    trace w' = trace w ++ evs /\
    ((attempts is_reserve_attempt evs <= 3)%nat /\
     reclaim_between is_reserve_attempt false evs = true) /\
    ((attempts is_pages_attempt evs <= 3)%nat /\
     reclaim_between is_pages_attempt false evs = true) /\
    ((attempts is_commit_attempt evs <= 3)%nat /\
     reclaim_between is_commit_attempt false evs = true) /\
    Forall (of_size (reservation_size_for cfg maximum_pages)) evs.
Proof.
  destruct (TryAllocateWasmMemory cfg isolate initial_pages maximum_pages shared w)
    as [r w1 | w1 |] eqn:H0;
  unfold TryAllocateWasmMemory in H0; run_in H0;
  destruct (FLAG_correctness_fuzzer_suppressions cfg);
  destruct (to_size_t (target_arch cfg) (initial_pages * kWasmPageSize cfg) =? 0) eqn:Hlen;
  repeat oracle_step H0; try discriminate H0.
  all: destruct shared; cbn in H0; inversion H0; subst; clear H0.
  all: eexists; eexists; split; [reflexivity |].
  all: cbn [trace emit set_platform set_reserved set_list_nodes];
       rewrite <- ?app_assoc; cbn [app].
  all: split; [reflexivity |].
  all: trace_checks.
Qed.

Lemma bind_Returned {A B} (m : M A) (k : A -> M B) (w w1 : @World P) (a : A) :
  m w = Returned a w1 -> bind m k w = k a w1.
Proof. intros E. unfold bind. rewrite E. reflexivity. Qed.

(** The counter across the retried reservation: it gains the reservation
    when the phase succeeds and loses what the collector released. *)
Lemma gc_retry_reserve_counter cfg isolate rs l w ok l' w' :
  0 <= reserved_address_space_ w < 2 ^ 64 -> 0 <= rs ->
  gc_retry isolate (reserve_memory_space cfg rs) l w = Returned (ok, l') w' ->
  exists evs,
    trace w' = trace w ++ evs /\
    0 <= reserved_address_space_ w' < 2 ^ 64 /\
    reserved_address_space_ w' =
      to_uint64 (reserved_address_space_ w + (if ok then rs else 0)
                 - total (released_by evs)).
Proof.
  intros Hc Hrs H0. unfold gc_retry in H0. run_in H0.
  repeat oracle_step H0; inversion H0; subst; clear H0.
  all: cbn [trace emit set_platform set_reserved reserved_address_space_ platform] in *.
  all: repeat match goal with
       | E : ReserveAddressSpace _ _ _ = (false, _) |- _ =>
           apply ReserveAddressSpace_false in E; subst
       end.
  all: cbn [trace emit set_platform set_reserved reserved_address_space_];
       rewrite <- ?app_assoc; cbn [app].
  all: eexists; split; [reflexivity |]; cbn [released_by app].
  all: rewrite ?app_nil_r; rewrite <- ?release_all_app in *.
  all: pose proof (kAddressSpaceLimit_range (target_arch cfg)) as Hlim.
  all: try match goal with
       | E : ReserveAddressSpace _ _ ?c = (true, _) |- _ =>
           assert (Hk : 0 <= c < 2 ^ 64) by (try apply release_all_range; exact Hc);
           apply ReserveAddressSpace_true in E; [| lia | lia];
           destruct E as [-> Hle]; split; [lia |];
           match goal with
           | |- _ = to_uint64 (?c0 + _ - total ?rel) =>
               apply (reserve_after_release c0 rel rs (kAddressSpaceLimit (target_arch cfg)));
               [exact Hc | exact Hrs | lia | exact Hle]
           end
       end.
  split; [apply release_all_range; exact Hc |].
  rewrite release_all_total by exact Hc. f_equal. lia.
Qed.

(** Three failed reservations, each followed by a reclamation request. *)
Lemma gc_retry_reserve_exhausted cfg isolate rs l w l' w' :
  gc_retry isolate (reserve_memory_space cfg rs) l w = Returned (false, l') w' ->
  exists r1 r2 r3,
    trace w' = trace w ++
      [EvReserveAddressSpace rs false; EvMemoryPressure isolate r1;
       EvReserveAddressSpace rs false; EvMemoryPressure isolate r2;
       EvReserveAddressSpace rs false; EvMemoryPressure isolate r3] /\
    reserved_address_space_ w' = release_all (r1 ++ r2 ++ r3) (reserved_address_space_ w).
Proof.
  intros H0. unfold gc_retry in H0. run_in H0.
  repeat oracle_step H0; inversion H0; subst; clear H0.
  cbn [trace emit set_platform set_reserved reserved_address_space_ platform] in *.
  repeat match goal with
         | E : ReserveAddressSpace _ _ _ = (false, _) |- _ =>
             apply ReserveAddressSpace_false in E; subst
         end.
  rewrite <- ?app_assoc; cbn [app].
  do 3 eexists. split; [reflexivity |].
  rewrite !release_all_app. reflexivity.
Qed.

(** Three failed page reservations, each followed by a reclamation
    request. *)
Lemma gc_retry_pages_exhausted cfg isolate rs l w l' w' :
  gc_retry isolate (allocate_pages cfg rs) l w = Returned (false, l') w' ->
  exists r1 r2 r3,
    trace w' = trace w ++
      [EvAllocatePages rs (kWasmPageSize cfg) kNoAccess 0; EvMemoryPressure isolate r1;
       EvAllocatePages rs (kWasmPageSize cfg) kNoAccess 0; EvMemoryPressure isolate r2;
       EvAllocatePages rs (kWasmPageSize cfg) kNoAccess 0; EvMemoryPressure isolate r3] /\
    reserved_address_space_ w' = release_all (r1 ++ r2 ++ r3) (reserved_address_space_ w).
Proof.
  intros H0. unfold gc_retry in H0. run_in H0.
  repeat oracle_step H0; inversion H0; subst; clear H0.
  cbn [trace emit set_platform set_reserved reserved_address_space_ platform] in *.
  repeat match goal with
         | E : (_ =? 0) = true |- _ => apply Z.eqb_eq in E; subst
         end.
  rewrite <- ?app_assoc; cbn [app].
  do 3 eexists. split; [reflexivity |].
  rewrite !release_all_app. reflexivity.
Qed.

Lemma reservation_size_for_nonneg cfg maximum_pages :
  0 <= reservation_size_for cfg maximum_pages.
Proof.
  unfold reservation_size_for, to_size_t, size_t_bits.
  destruct (kUseGuardRegions (target_arch cfg));
    destruct (V8_TARGET_ARCH_64_BIT (target_arch cfg));
    apply Z.mod_pos_bound; reflexivity.
Qed.

(** C3 (as amended).  In every run of a managed allocation each phase is
    attempted at most three times and a reclamation request separates
    consecutive attempts.  When the reservation fails three times the
    counter has moved only by what the reclamation requests released, and
    the call, with the correctness-fuzzer flag off, records the
    address-space-limit status and returns nothing, and with the flag on
    aborts without recording anything.  When the page reservation fails
    three times the call, whatever the flag, releases its reservation,
    records the other-failure status and returns nothing, and the counter
    is again its prior value less what the reclamation requests
    released. *)
Theorem managed_allocation_failures cfg isolate initial_pages maximum_pages shared
    (w : @World P) :
  0 <= reserved_address_space_ w < 2 ^ 64 ->
  let rs := reservation_size_for cfg maximum_pages in
  let l0 := {| did_retry := false; allocation_base := 0 |} in
  (exists w' evs,
     final_world (TryAllocateWasmMemory cfg isolate initial_pages maximum_pages shared w)
       = Some w' /\
     trace w' = trace w ++ evs /\
     ((attempts is_reserve_attempt evs <= 3)%nat /\
      reclaim_between is_reserve_attempt false evs = true) /\
     ((attempts is_pages_attempt evs <= 3)%nat /\
      reclaim_between is_pages_attempt false evs = true) /\
     ((attempts is_commit_attempt evs <= 3)%nat /\
      reclaim_between is_commit_attempt false evs = true)) /\
  (forall l1 w1,
     gc_retry isolate (reserve_memory_space cfg rs) l0 w = Returned (false, l1) w1 ->
     exists r1 r2 r3,
       let failed :=
         [EvReserveAddressSpace rs false; EvMemoryPressure isolate r1;
          EvReserveAddressSpace rs false; EvMemoryPressure isolate r2;
          EvReserveAddressSpace rs false; EvMemoryPressure isolate r3] in
       (FLAG_correctness_fuzzer_suppressions cfg = false ->
          exists w',
            TryAllocateWasmMemory cfg isolate initial_pages maximum_pages shared w
              = Returned None w' /\
            trace w' = trace w ++ failed ++
              [EvRecordStatus isolate kAddressSpaceLimitReachedFailure] /\
            reserved_address_space_ w' =
              release_all (r1 ++ r2 ++ r3) (reserved_address_space_ w)) /\
       (FLAG_correctness_fuzzer_suppressions cfg = true ->
          exists w',
            TryAllocateWasmMemory cfg isolate initial_pages maximum_pages shared w
              = Fatal w' /\
            trace w' = trace w ++ failed /\
            reserved_address_space_ w' =
              release_all (r1 ++ r2 ++ r3) (reserved_address_space_ w))) /\
  (forall l1 w1 l2 w2,
     gc_retry isolate (reserve_memory_space cfg rs) l0 w = Returned (true, l1) w1 ->
     gc_retry isolate (allocate_pages cfg rs) l1 w1 = Returned (false, l2) w2 ->
     exists evs r1 r2 r3 w',
       TryAllocateWasmMemory cfg isolate initial_pages maximum_pages shared w
         = Returned None w' /\
       trace w1 = trace w ++ evs /\
       trace w' = trace w1 ++
         [EvAllocatePages rs (kWasmPageSize cfg) kNoAccess 0; EvMemoryPressure isolate r1;
          EvAllocatePages rs (kWasmPageSize cfg) kNoAccess 0; EvMemoryPressure isolate r2;
          EvAllocatePages rs (kWasmPageSize cfg) kNoAccess 0; EvMemoryPressure isolate r3;
          EvReleaseReservation rs; EvRecordStatus isolate kOtherFailure] /\
       reserved_address_space_ w' =
         to_uint64 (reserved_address_space_ w
                    - total (released_by evs) - total (r1 ++ r2 ++ r3))).
Proof.
  intros Hc rs l0. split; [| split].
  - destruct (TryAllocateWasmMemory_trace cfg isolate initial_pages maximum_pages shared w)
      as (w' & evs & Hfin & Htr & H1 & H2 & H3 & _).
    exists w', evs. auto.
  - intros l1 w1 Hp1.
    destruct (gc_retry_reserve_exhausted _ _ _ _ _ _ _ Hp1) as (r1 & r2 & r3 & Htr & Hcount).
    exists r1, r2, r3. cbv zeta. split; intros Hflag.
    + exists (emit (EvRecordStatus isolate kAddressSpaceLimitReachedFailure) w1).
      split; [| split].
      * unfold TryAllocateWasmMemory. fold rs l0.
        rewrite (bind_Returned _ _ _ _ _ Hp1). cbn [negb]. rewrite Hflag. reflexivity.
      * cbn [trace emit]. rewrite Htr, <- app_assoc. reflexivity.
      * exact Hcount.
    + exists w1. split; [| split].
      * unfold TryAllocateWasmMemory. fold rs l0.
        rewrite (bind_Returned _ _ _ _ _ Hp1). cbn [negb]. rewrite Hflag. reflexivity.
      * exact Htr.
      * exact Hcount.
  - intros l1 w1 l2 w2 Hp1 Hp2.
    destruct (gc_retry_reserve_counter _ _ _ _ _ _ _ _ Hc
                (reservation_size_for_nonneg cfg maximum_pages) Hp1)
      as (evs1 & Htr1 & Hc1 & Hcount1).
    destruct (gc_retry_pages_exhausted _ _ _ _ _ _ _ Hp2) as (r1 & r2 & r3 & Htr2 & Hcount2).
    exists evs1, r1, r2, r3.
    exists (emit (EvRecordStatus isolate kOtherFailure)
              (emit (EvReleaseReservation rs)
                 (set_reserved (ReleaseReservation rs (reserved_address_space_ w2)) w2))).
    split_and!.
    + unfold TryAllocateWasmMemory. fold rs l0.
      rewrite (bind_Returned _ _ _ _ _ Hp1). cbn [negb].
      rewrite (bind_Returned _ _ _ _ _ Hp2). reflexivity.
    + exact Htr1.
    + cbn [trace emit set_reserved]. rewrite Htr2, <- !app_assoc. reflexivity.
    + cbn [reserved_address_space_ emit set_reserved].
      rewrite Hcount2, release_all_total by exact Hc1. rewrite Hcount1.
      fold rs. unfold ReleaseReservation, to_uint64.
      rewrite Zminus_mod_idemp_l, <- Z.sub_add_distr, Zminus_mod_idemp_l.
      f_equal. lia.
Qed.

End Allocation.

Lemma managed_allocation_failures_witness :
  (exists w', TryAllocateWasmMemory x64_build 0%nat 1 10 kNotShared full_world
              = Returned None w') /\
  (exists w', TryAllocateWasmMemory fuzzer_build 0%nat 1 10 kNotShared full_world
              = Fatal w').
Proof.
  assert (Hc : 0 <= reserved_address_space_ full_world < 2 ^ 64)
    by (vm_compute; split; congruence).
  split.
  - destruct (managed_allocation_failures x64_build 0%nat 1 10 kNotShared full_world Hc)
      as (_ & Hphase1 & _).
    edestruct Hphase1 as (r1 & r2 & r3 & Hoff & _).
    + vm_compute. reflexivity.
    + destruct (Hoff eq_refl) as (w' & Hrun & _). exists w'. exact Hrun.
  - destruct (managed_allocation_failures fuzzer_build 0%nat 1 10 kNotShared full_world Hc)
      as (_ & Hphase1 & _).
    edestruct Hphase1 as (r1 & r2 & r3 & _ & Hon).
    + vm_compute. reflexivity.
    + destruct (Hon eq_refl) as (w' & Hrun & _). exists w'. exact Hrun.
Defined.

(** C3 as stated fails when the correctness-fuzzer flag is on: an
    exhausted address space aborts the process instead of being reported. *)
Lemma managed_allocation_fuzzer_abort :
  exists w', TryAllocateWasmMemory fuzzer_build 0%nat 1 10 kNotShared full_world = Fatal w' /\
             forall w'', TryAllocateWasmMemory fuzzer_build 0%nat 1 10 kNotShared full_world
                         <> Returned None w''.
Proof.
  eexists. split.
  - vm_compute. reflexivity.
  - intros w'' Hrun. vm_compute in Hrun. discriminate Hrun.
Qed.

Section Growth.
Context {P : Type} `{!Platform P}.

(** C1 (as amended).  On every store, growing in place to a length that
    is not larger than the current one succeeds and changes neither the
    store nor the world, even when that length is beyond the capacity; to
    a larger length beyond the capacity it fails and changes neither, so
    that on a store whose length is within its capacity every length
    beyond the capacity fails; otherwise read/write access is requested
    for the range from the start up to the new length, which holds the
    delta: when the request fails the call fails and the store is as
    before, when it succeeds the call succeeds and the length is the new
    length. *)
Theorem grow_in_place (isolate : Isolate) (n : Z) (this : BackingStore) (w : @World P) :
  (n <= byte_length_ this ->
     GrowWasmMemoryInPlace isolate n this w = Returned (true, this) w) /\
  (byte_length_ this < n -> byte_capacity_ this < n ->
     GrowWasmMemoryInPlace isolate n this w = Returned (false, this) w) /\
  (byte_length_ this <= byte_capacity_ this -> byte_capacity_ this < n ->
     GrowWasmMemoryInPlace isolate n this w = Returned (false, this) w) /\
  (byte_length_ this < n <= byte_capacity_ this ->
     forall p',
       SetPermissions (buffer_start_ this) n kReadWrite (platform w) = (false, p') ->
       GrowWasmMemoryInPlace isolate n this w =
         Returned (false, this)
           (emit (EvSetPermissions (buffer_start_ this) n kReadWrite false)
              (set_platform p' w))) /\
  (byte_length_ this < n <= byte_capacity_ this ->
     forall p',
       SetPermissions (buffer_start_ this) n kReadWrite (platform w) = (true, p') ->
       GrowWasmMemoryInPlace isolate n this w =
         Returned (true, set_byte_length n this)
           (emit (EvAdjustExternalMemory isolate (n - byte_length_ this))
              (emit (EvSetPermissions (buffer_start_ this) n kReadWrite true)
                 (set_platform p' w))) /\
       byte_length_ (set_byte_length n this) = n).
Proof.
  unfold GrowWasmMemoryInPlace. split_and!.
  - intros Hle. destruct (Z.leb_spec n (byte_length_ this)); [reflexivity | lia].
  - intros Hlen Hgt. destruct (Z.leb_spec n (byte_length_ this)); [lia |].
    destruct (Z.ltb_spec (byte_capacity_ this) n); [reflexivity | lia].
  - intros Hinv Hgt. destruct (Z.leb_spec n (byte_length_ this)); [lia |].
    destruct (Z.ltb_spec (byte_capacity_ this) n); [reflexivity | lia].
  - intros Hin p' Hperm. destruct (Z.leb_spec n (byte_length_ this)); [lia |].
    destruct (Z.ltb_spec (byte_capacity_ this) n); [lia |].
    unfold bind, do_SetPermissions. rewrite Hperm. reflexivity.
  - intros Hin p' Hperm. split; [| reflexivity].
    destruct (Z.leb_spec n (byte_length_ this)); [lia |].
    destruct (Z.ltb_spec (byte_capacity_ this) n); [lia |].
    unfold bind, do_SetPermissions. rewrite Hperm. reflexivity.
Qed.

(** A finished call of the growth never leaves the length above the
    capacity. *)
Lemma GrowWasmMemoryInPlace_invariant isolate n this (w : @World P) ok this' w' :
  byte_length_ this <= byte_capacity_ this ->
  GrowWasmMemoryInPlace isolate n this w = Returned (ok, this') w' ->
  byte_length_ this' <= byte_capacity_ this'.
Proof.
  intros Hinv. unfold GrowWasmMemoryInPlace.
  destruct (Z.leb_spec n (byte_length_ this)); [intros [= _ <- _]; exact Hinv |].
  destruct (Z.ltb_spec (byte_capacity_ this) n); [intros [= _ <- _]; exact Hinv |].
  unfold bind, do_SetPermissions.
  destruct (SetPermissions _ _ _ _) as [[] p']; cbn.
  - intros [= _ <- _]. cbn. lia.
  - intros [= _ <- _]. exact Hinv.
Qed.

Lemma to_size_t_small a z : 0 <= z < 2 ^ size_t_bits a -> to_size_t a z = z.
Proof. intros. unfold to_size_t. apply Z.mod_small. assumption. Qed.

(** What the entry point hands out is what one of its two attempts made:
    the first, with the requested maximum, or the second, with the maximum
    lowered to the initial size. *)
Lemma AllocateWasmMemory_Some cfg isolate initial_pages maximum_pages shared
    (w : @World P) bs w' :
  AllocateWasmMemory cfg isolate initial_pages maximum_pages shared w = Returned (Some bs) w' ->
  initial_pages <= kV8MaxWasmMemoryPages cfg /\
  (exists maximum,
     (maximum = maximum_pages \/ (maximum = initial_pages /\ initial_pages < maximum_pages)) /\
     byte_capacity_ bs = byte_capacity_for cfg maximum) /\
  byte_length_ bs = to_size_t (target_arch cfg) (initial_pages * kWasmPageSize cfg) /\
  has_guard_regions_ bs = kUseGuardRegions (target_arch cfg) /\
  is_wasm_memory_ bs = true /\
  is_shared_ bs = is_kShared shared /\
  memory w' = memory w.
Proof.
  unfold AllocateWasmMemory.
  destruct (Z.ltb_spec (kV8MaxWasmMemoryPages cfg) initial_pages); [discriminate |].
  unfold bind.
  destruct (TryAllocateWasmMemory cfg isolate initial_pages maximum_pages shared w)
    as [[bs1 |] w1 | w1 |] eqn:E1; try discriminate.
  - intros [= <- <-].
    destruct (TryAllocateWasmMemory_Some _ _ _ _ _ _ _ _ E1)
      as (Hl & Hcap & Hg & Hw & Hs & _ & Hm).
    repeat split; try assumption. exists maximum_pages. auto.
  - destruct (Z.ltb_spec initial_pages maximum_pages); [| discriminate].
    intros E2.
    destruct (TryAllocateWasmMemory_Some _ _ _ _ _ _ _ _ E2)
      as (Hl & Hcap & Hg & Hw & Hs & _ & Hm).
    pose proof (TryAllocateWasmMemory_frame _ _ _ _ _ _ _ _ E1) as Hm1.
    repeat split; try assumption; [| congruence].
    exists initial_pages. auto.
Qed.

(** C2 (as amended).  On a build whose page size is positive and whose
    engine maximum, in bytes, fits the size type, and for an initial size
    that is not negative: a store handed out by the allocation entry point
    has its length within its capacity whenever guard regions are in use
    or the initial size does not exceed the requested maximum; and, on
    every build, growth in place keeps the length within the capacity. *)
Theorem length_within_capacity cfg isolate initial_pages maximum_pages shared
    (w : @World P) :
  Build_ok cfg -> 0 <= initial_pages ->
  kUseGuardRegions (target_arch cfg) = true \/ initial_pages <= maximum_pages ->
  (forall bs w',
     AllocateWasmMemory cfg isolate initial_pages maximum_pages shared w
       = Returned (Some bs) w' ->
     byte_length_ bs <= byte_capacity_ bs) /\
  (forall n this (w1 : @World P) ok this' w',
     byte_length_ this <= byte_capacity_ this ->
     GrowWasmMemoryInPlace isolate n this w1 = Returned (ok, this') w' ->
     byte_length_ this' <= byte_capacity_ this').
Proof.
  intros (Hpage & Hmax & Hfit) Hinit Hcase. split.
  - intros bs w' Hrun.
    destruct (AllocateWasmMemory_Some _ _ _ _ _ _ _ _ Hrun)
      as (Hle & (maximum & Hmaximum & Hcap) & Hlen & _).
    rewrite Hlen, Hcap. unfold byte_capacity_for, reservation_size_for.
    assert (Hbytes : 0 <= initial_pages * kWasmPageSize cfg
                       <= kV8MaxWasmMemoryPages cfg * kWasmPageSize cfg) by nia.
    rewrite (to_size_t_small _ (initial_pages * _)) by lia.
    destruct (kUseGuardRegions (target_arch cfg)) eqn:Hguards.
    + rewrite to_size_t_small by lia. lia.
    + assert (Hmp : initial_pages <= maximum)
        by (destruct Hcase as [? | ?]; [discriminate | lia]).
      assert (Hmin : initial_pages <= Z.min maximum (kV8MaxWasmMemoryPages cfg)
                       <= kV8MaxWasmMemoryPages cfg) by lia.
      rewrite to_size_t_small by nia. nia.
  - intros n this w1 ok this' w' Hinv Hrun.
    exact (GrowWasmMemoryInPlace_invariant _ _ _ _ _ _ _ Hinv Hrun).
Qed.

(** C10.  With more initial pages than the engine allows, the entry point
    returns nothing and the world is as it was: no reservation, no page
    request, no status record. *)
Theorem too_many_initial_pages cfg isolate initial_pages maximum_pages shared
    (w : @World P) :
  kV8MaxWasmMemoryPages cfg < initial_pages ->
  AllocateWasmMemory cfg isolate initial_pages maximum_pages shared w = Returned None w.
Proof.
  intros Hgt. unfold AllocateWasmMemory.
  destruct (Z.ltb_spec (kV8MaxWasmMemoryPages cfg) initial_pages); [reflexivity | lia].
Qed.


End Growth.

Lemma grow_in_place_witness :
  GrowWasmMemoryInPlace 0%nat 131072 (small_store 4096) (fresh_world 0 (obliging 0)) =
    Returned (true, set_byte_length 131072 (small_store 4096))
      (emit (EvAdjustExternalMemory 0%nat 65536)
         (emit (EvSetPermissions 4096 131072 kReadWrite true)
            (set_platform
               {| allocations := [0]; permissions := [true; true]; frees := [true];
                  collections := [] |}
               (fresh_world 0 (obliging 0))))).
Proof.
  destruct (grow_in_place 0%nat 131072 (small_store 4096) (fresh_world 0 (obliging 0)))
    as (_ & _ & _ & _ & Hgrow).
  apply Hgrow.
  - vm_compute. split; congruence.
  - reflexivity.
Defined.

(** C1 as stated fails on a store whose length exceeds its capacity, such
    as the entry point hands out on a 32-bit build for two initial pages
    with a maximum of one: growth to 128 KiB, beyond the capacity of
    64 KiB, succeeds, because the length is tested first. *)
Lemma grow_beyond_capacity_succeeds :
  exists bs w',
    AllocateWasmMemory ia32_build 0%nat 2 1 kNotShared (fresh_world 0 (obliging 0x10000000))
      = Returned (Some bs) w' /\
    is_wasm_memory_ bs = true /\
    byte_length_ bs = 131072 /\ byte_capacity_ bs = 65536 /\
    byte_capacity_ bs < 131072 /\
    GrowWasmMemoryInPlace 0%nat 131072 bs w' = Returned (true, bs) w'.
Proof.
  eexists. eexists. split; [vm_compute; reflexivity |].
  cbn. split_and!; try reflexivity.
Qed.

Lemma x64_build_ok : Build_ok x64_build.
Proof. vm_compute. repeat split; congruence. Defined.

Lemma length_within_capacity_witness :
  exists bs w',
    AllocateWasmMemory x64_build 0%nat 1 10 kNotShared (fresh_world 0 (obliging (4 * GB)))
      = Returned (Some bs) w' /\
    byte_length_ bs <= byte_capacity_ bs.
Proof.
  eexists. eexists. split.
  - vm_compute. reflexivity.
  - refine (proj1 (length_within_capacity x64_build 0%nat 1 10 kNotShared
                     (fresh_world 0 (obliging (4 * GB))) x64_build_ok _ _) _ _ _).
    + vm_compute. congruence.
    + left. reflexivity.
    + vm_compute. reflexivity.
Defined.

(** C2 as stated fails without guard regions when the requested maximum
    is below the initial size: two initial pages with a maximum of one
    give a store of 128 KiB with a capacity of 64 KiB. *)
Lemma length_above_capacity_without_guards :
  exists bs w',
    AllocateWasmMemory ia32_build 0%nat 2 1 kNotShared (fresh_world 0 (obliging 0x10000000))
      = Returned (Some bs) w' /\
    byte_length_ bs = 131072 /\ byte_capacity_ bs = 65536 /\
    ~ byte_length_ bs <= byte_capacity_ bs.
Proof.
  eexists. eexists. split; [vm_compute; reflexivity |].
  cbn. repeat split. lia.
Qed.

(** Nor does it hold on a build whose engine maximum does not fit the
    size type: with 65536 pages of 64 KiB on a 32-bit build the capacity
    wraps to zero, whatever the initial size. *)
Lemma length_above_capacity_when_maximum_wraps :
  ~ Build_ok ia32_wide_build /\
  exists bs w',
    AllocateWasmMemory ia32_wide_build 0%nat 1 65536 kNotShared
      (fresh_world 0 (obliging 0x10000000)) = Returned (Some bs) w' /\
    byte_length_ bs = 65536 /\ byte_capacity_ bs = 0.
Proof.
  split.
  - intros (_ & _ & Hfit). vm_compute in Hfit. discriminate Hfit.
  - eexists. eexists. split; [vm_compute; reflexivity |]. split; reflexivity.
Qed.

Lemma too_many_initial_pages_witness :
  AllocateWasmMemory x64_build 0%nat 65537 65537 kNotShared (fresh_world 0 (obliging (4 * GB)))
    = Returned None (fresh_world 0 (obliging (4 * GB))).
Proof.
  apply (too_many_initial_pages x64_build). vm_compute. reflexivity.
Defined.


Section Copy.
Context {P : Type} `{!Platform P}.

Lemma memcpy_bytes_inside dst src n m i :
  0 <= i < n -> memcpy_bytes dst src n m (dst + i) = m (src + i).
Proof.
  intros Hi. unfold memcpy_bytes.
  destruct (Z.leb_spec dst (dst + i)); [| lia].
  destruct (Z.ltb_spec (dst + i) (dst + n)); [| lia].
  cbn. f_equal. lia.
Qed.

Lemma memcpy_bytes_outside dst src n m a :
  ~ (dst <= a < dst + n) -> memcpy_bytes dst src n m a = m a.
Proof.
  intros Ha. unfold memcpy_bytes.
  destruct (Z.leb_spec dst a); [| reflexivity].
  destruct (Z.ltb_spec a (dst + n)); [lia | reflexivity].
Qed.

(** The destructor's list loop frees a live node in every round, so with
    more rounds than live nodes it is never cut off. *)
Lemma delete_list_not_cut_off fuel : forall node (w : @World P),
  (size (list_nodes w) < fuel)%nat -> delete_list fuel node w <> OutOfFuel.
Proof.
  induction fuel as [| fuel IH]; intros node w Hfuel; [lia |].
  destruct node as [old |]; [| discriminate].
  cbn [delete_list]. unfold bind at 1. unfold node_at.
  destruct (list_nodes w !! old) as [d |] eqn:Hold; [| discriminate].
  unfold bind, delete_node. apply IH. cbn.
  rewrite map_size_delete_Some by eauto.
  assert (size (list_nodes w) <> 0%nat); [| lia].
  intros Hempty. apply map_size_empty_inv in Hempty.
  rewrite Hempty, lookup_empty in Hold. discriminate.
Qed.

Lemma destroy_not_cut_off this (w : @World P) : destroy this w <> OutOfFuel.
Proof.
  unfold destroy. unfold bind at 1.
  destruct (if globally_registered_ this then Unregister this else ret (tt, this))
    as [[[] this'] w1 | w1 |] eqn:Hun; [| discriminate |].
  - destruct (buffer_start_ this' =? 0); [discriminate |].
    destruct (is_wasm_memory_ this').
    + unfold bind at 1.
      destruct (is_shared_ this').
      * unfold bind at 1.
        destruct (get_shared_wasm_memory_data this' w1) as [anchor w2 | w2 |] eqn:Hdata;
          [| discriminate |].
        -- destruct (delete_list (S (size (list_nodes w2))) (Some anchor) w2)
             as [[] w3 | w3 |] eqn:Hloop; [| discriminate |].
           ++ unfold bind at 1.
              destruct (if region_size _ =? 0 then ret true else do_FreePages _ _) as [ok w4 | w4 |] eqn:Hfree.
              ** destruct ok; discriminate.
              ** discriminate.
              ** exfalso. destruct (region_size _ =? 0); [discriminate |].
                 unfold do_FreePages in Hfree. destruct (FreePages _ _ _); discriminate.
           ++ exfalso. apply (delete_list_not_cut_off _ _ _ (Nat.lt_succ_diag_r _) Hloop).
        -- exfalso. unfold get_shared_wasm_memory_data in Hdata.
           destruct (negb _); [discriminate |].
           destruct (type_specific_data_ this'); discriminate.
      * unfold ret at 1. unfold bind at 1.
        destruct (if region_size _ =? 0 then ret true else do_FreePages _ _) as [ok w4 | w4 |] eqn:Hfree.
        -- destruct ok; discriminate.
        -- discriminate.
        -- exfalso. destruct (region_size _ =? 0); [discriminate |].
           unfold do_FreePages in Hfree. destruct (FreePages _ _ _); discriminate.
    + destruct (free_on_destruct_ this'); [| discriminate].
      unfold bind. destruct (get_v8_api_array_buffer_allocator this' w1) eqn:Hget;
        try discriminate.
      exfalso. unfold get_v8_api_array_buffer_allocator in Hget.
      destruct (is_wasm_memory_ this'); [discriminate |].
      destruct (type_specific_data_ this'); discriminate.
  - exfalso. destruct (globally_registered_ this); [| discriminate].
    unfold Unregister in Hun. destruct (negb _); discriminate.
Qed.

(** A managed allocation that returns a store of a length other than
    zero ends on the grant of read/write access to the store's bytes and
    the record of its status. *)
Lemma TryAllocateWasmMemory_committed cfg isolate initial_pages maximum_pages shared
    (w : @World P) bs w' :
  TryAllocateWasmMemory cfg isolate initial_pages maximum_pages shared w
    = Returned (Some bs) w' ->
  byte_length_ bs <> 0 ->
  exists evs status,
    trace w' = evs ++ [EvSetPermissions (buffer_start_ bs) (byte_length_ bs) kReadWrite true;
                       EvRecordStatus isolate status].
Proof.
  unfold TryAllocateWasmMemory. intros H0. run_in H0.
  destruct (FLAG_correctness_fuzzer_suppressions cfg);
  destruct (to_size_t (target_arch cfg) (initial_pages * kWasmPageSize cfg) =? 0) eqn:Hlen;
  repeat oracle_step H0; try discriminate H0.
  all: destruct shared; cbn in H0; inversion H0; subst; cbn.
  all: intros Hne; try (apply Z.eqb_eq in Hlen; contradiction).
  all: rewrite <- app_assoc; cbn [app]; do 2 eexists; reflexivity.
Qed.

Lemma AllocateWasmMemory_committed cfg isolate initial_pages maximum_pages shared
    (w : @World P) bs w' :
  AllocateWasmMemory cfg isolate initial_pages maximum_pages shared w
    = Returned (Some bs) w' ->
  byte_length_ bs <> 0 ->
  exists evs status,
    trace w' = evs ++ [EvSetPermissions (buffer_start_ bs) (byte_length_ bs) kReadWrite true;
                       EvRecordStatus isolate status].
Proof.
  unfold AllocateWasmMemory.
  destruct (kV8MaxWasmMemoryPages cfg <? initial_pages); [discriminate |].
  unfold bind.
  destruct (TryAllocateWasmMemory cfg isolate initial_pages maximum_pages shared w)
    as [[bs1 |] w1 | w1 |] eqn:E1; try discriminate.
  - intros [= <- <-]. exact (TryAllocateWasmMemory_committed _ _ _ _ _ _ _ _ E1).
  - destruct (initial_pages <? maximum_pages); [| discriminate].
    apply TryAllocateWasmMemory_committed.
Qed.

(** Bytes within a range just made read/write are accessible. *)
Lemma committed_last evs a' s isolate status a n :
  covers a' s a n = true ->
  committed (evs ++ [EvSetPermissions a' s kReadWrite true; EvRecordStatus isolate status])
    a n = true.
Proof.
  intros Hcov. unfold committed. rewrite fold_left_app. cbn. rewrite Hcov. reflexivity.
Qed.

(** C6 (as amended).  On a build whose page size is positive and whose
    engine maximum fits the size type, for a page-multiple new length that
    is not below the source's length: a store returned by copy-and-grow is
    a fresh managed store of the new length with the source's sharing and
    guard-region flag; the call copied exactly the source's length, which
    is the smaller of the two lengths, from the source's start to the new
    start, left every byte outside the destination range as it was, and
    left the source's bytes unmodified.  When the fresh store's
    guard-region flag differs from the source's, the fresh store is
    destroyed and nothing is returned; when the flags agree and the fresh
    bytes do not overlap the source's, the fresh store is returned after
    the copy; when the allocation fails nothing is returned. *)
Theorem copy_wasm_memory cfg isolate old n (w : @World P) :
  Build_ok cfg ->
  0 <= byte_length_ old <= n ->
  n mod kWasmPageSize cfg = 0 ->
  (forall nbs w',
     CopyWasmMemory cfg isolate old n w = Returned (Some nbs) w' ->
     let copied := Z.min (byte_length_ old) n in
     is_wasm_memory_ nbs = true /\
     byte_length_ nbs = n /\
     is_shared_ nbs = is_shared_ old /\
     has_guard_regions_ nbs = has_guard_regions_ old /\
     memory w' = memcpy_bytes (buffer_start_ nbs) (buffer_start_ old) copied (memory w) /\
     (forall i, 0 <= i < copied ->
        memory w' (buffer_start_ nbs + i) = memory w (buffer_start_ old + i)) /\
     (forall a, ~ (buffer_start_ nbs <= a < buffer_start_ nbs + copied) ->
        memory w' a = memory w a) /\
     (forall i, 0 <= i < byte_length_ old ->
        memory w' (buffer_start_ old + i) = memory w (buffer_start_ old + i))) /\
  (forall nbs w1,
     AllocateWasmMemory cfg isolate (n / kWasmPageSize cfg) (n / kWasmPageSize cfg)
       (if is_shared_ old then kShared else kNotShared) w = Returned (Some nbs) w1 ->
     has_guard_regions_ nbs <> has_guard_regions_ old ->
     CopyWasmMemory cfg isolate old n w =
       match destroy nbs w1 with
       | Returned _ w2 => Returned None w2
       | Fatal w2 => Fatal w2
       | OutOfFuel => OutOfFuel
       end) /\
  (forall nbs w1,
     AllocateWasmMemory cfg isolate (n / kWasmPageSize cfg) (n / kWasmPageSize cfg)
       (if is_shared_ old then kShared else kNotShared) w = Returned (Some nbs) w1 ->
     has_guard_regions_ nbs = has_guard_regions_ old ->
     buffer_start_ nbs + byte_length_ old <= buffer_start_ old \/
     buffer_start_ old + byte_length_ old <= buffer_start_ nbs ->
     CopyWasmMemory cfg isolate old n w =
       Returned (Some nbs)
         (emit (EvMemcpy (buffer_start_ nbs) (buffer_start_ old) (byte_length_ old))
            (set_memory
               (memcpy_bytes (buffer_start_ nbs) (buffer_start_ old) (byte_length_ old)
                  (memory w1)) w1))) /\
  (forall w1,
     AllocateWasmMemory cfg isolate (n / kWasmPageSize cfg) (n / kWasmPageSize cfg)
       (if is_shared_ old then kShared else kNotShared) w = Returned None w1 ->
     CopyWasmMemory cfg isolate old n w = Returned None w1).
Proof.
  intros (Hpage & Hmax & Hfit) Hlen Hmul.
  assert (Hn : n / kWasmPageSize cfg * kWasmPageSize cfg = n).
  { pose proof (Z.div_mod n (kWasmPageSize cfg)). lia. }
  assert (Hnew : forall nbs w1,
            AllocateWasmMemory cfg isolate (n / kWasmPageSize cfg) (n / kWasmPageSize cfg)
              (if is_shared_ old then kShared else kNotShared) w = Returned (Some nbs) w1 ->
            byte_length_ nbs = n).
  { intros nbs w1 Halloc.
    destruct (AllocateWasmMemory_Some _ _ _ _ _ _ _ _ Halloc) as (Hle & _ & Hbytes & _).
    rewrite Hbytes, Hn. apply to_size_t_small. nia. }
  split_and!.
  - intros nbs w' Hrun copied. unfold CopyWasmMemory, bind in Hrun.
    destruct (AllocateWasmMemory cfg isolate (n / kWasmPageSize cfg)
                (n / kWasmPageSize cfg) (if is_shared_ old then kShared else kNotShared) w)
      as [[nbs1 |] w1 | w1 |] eqn:Halloc; try discriminate.
    destruct (AllocateWasmMemory_Some _ _ _ _ _ _ _ _ Halloc)
      as (Hle & _ & Hbytes & Hg & Hw & Hs & Hm).
    destruct (eqb (has_guard_regions_ nbs1) (has_guard_regions_ old)) eqn:Hflags; cbn in Hrun.
    2: { destruct (destroy nbs1 w1); discriminate. }
    unfold do_memcpy in Hrun.
    destruct ((byte_length_ old =? 0) ||
              (committed (trace w1) (buffer_start_ nbs1) (byte_length_ old) &&
               ((buffer_start_ nbs1 + byte_length_ old <=? buffer_start_ old) ||
                (buffer_start_ old + byte_length_ old <=? buffer_start_ nbs1)))) eqn:Hok;
      [| discriminate].
    injection Hrun as <- <-. apply eqb_prop in Hflags.
    assert (Hcopied : copied = byte_length_ old) by (unfold copied; lia).
    rewrite Hcopied. cbn [memory emit set_memory]. rewrite Hm.
    split_and!.
    + exact Hw.
    + rewrite Hbytes, Hn. apply to_size_t_small. nia.
    + rewrite Hs. destruct (is_shared_ old); reflexivity.
    + exact Hflags.
    + reflexivity.
    + intros i Hi. apply memcpy_bytes_inside. exact Hi.
    + intros a Ha. apply memcpy_bytes_outside. exact Ha.
    + intros i Hi. apply memcpy_bytes_outside.
      apply orb_true_iff in Hok as [Hzero | Hok]; [apply Z.eqb_eq in Hzero; lia |].
      apply andb_true_iff in Hok as [_ Hapart].
      apply orb_true_iff in Hapart as [Hapart | Hapart]; apply Z.leb_le in Hapart; lia.
  - intros nbs w1 Halloc Hflags. unfold CopyWasmMemory, bind. rewrite Halloc.
    destruct (eqb (has_guard_regions_ nbs) (has_guard_regions_ old)) eqn:E.
    + apply eqb_prop in E. contradiction.
    + cbn. destruct (destroy nbs w1); reflexivity.
  - intros nbs w1 Halloc Hflags Hapart. unfold CopyWasmMemory, bind.
    rewrite Halloc, Hflags. rewrite eqb_reflx. cbn [negb]. unfold do_memcpy.
    assert (Hok : (byte_length_ old =? 0) ||
                  (committed (trace w1) (buffer_start_ nbs) (byte_length_ old) &&
                   ((buffer_start_ nbs + byte_length_ old <=? buffer_start_ old) ||
                    (buffer_start_ old + byte_length_ old <=? buffer_start_ nbs))) = true).
    { destruct (Z.eqb_spec (byte_length_ old) 0) as [Hzero | Hpos]; [reflexivity |].
      cbn [orb]. apply andb_true_iff. split.
      - pose proof (Hnew _ _ Halloc) as Hbytes.
        destruct (AllocateWasmMemory_committed _ _ _ _ _ _ _ _ Halloc)
          as (evs & status & Htr); [lia |].
        rewrite Htr. apply committed_last. unfold covers.
        apply andb_true_iff. split; apply Z.leb_le; lia.
      - apply orb_true_iff. destruct Hapart as [Hapart | Hapart];
          [left | right]; apply Z.leb_le; exact Hapart. }
    rewrite Hok. reflexivity.
  - intros w1 Halloc. unfold CopyWasmMemory, bind. rewrite Halloc. reflexivity.
Qed.

End Copy.

Lemma copy_wasm_memory_witness :
  exists nbs w',
    CopyWasmMemory x64_build 0%nat two_page_store (3 * 65536) marked_world
      = Returned (Some nbs) w' /\
    byte_length_ nbs = 3 * 65536 /\
    memory w' (buffer_start_ nbs + 70000) = Byte.x2a /\
    memory w' (buffer_start_ two_page_store + 70000) = Byte.x2a.
Proof.
  assert (Hlen : 0 <= byte_length_ two_page_store <= 3 * 65536)
    by (vm_compute; split; congruence).
  destruct (copy_wasm_memory x64_build 0%nat two_page_store (3 * 65536) marked_world
              x64_build_ok Hlen eq_refl) as (Hcopy & _ & _ & _).
  assert (Hsome : returned_store
                    (CopyWasmMemory x64_build 0%nat two_page_store (3 * 65536) marked_world)
                  = true) by (vm_compute; reflexivity).
  destruct (CopyWasmMemory x64_build 0%nat two_page_store (3 * 65536) marked_world)
    as [[nbs |] w' | w' |]; try discriminate Hsome.
  exists nbs, w'. split; [reflexivity |].
  destruct (Hcopy nbs w' eq_refl) as (_ & Hnew & _ & _ & _ & Hin & _ & Hold).
  split; [exact Hnew |]. split.
  - rewrite Hin; [vm_compute; reflexivity | vm_compute; split; congruence].
  - rewrite Hold; [vm_compute; reflexivity | vm_compute; split; congruence].
Defined.

(** C6 as stated fails for a new length below the source's: asked to copy
    a two-page store into one page, the call allocates one page, of which
    64 KiB are made read/write, and asks for a copy of the source's
    128 KiB, not of the smaller length; the copy runs past the accessible
    bytes and no store is returned. *)
Lemma copy_wasm_memory_faults_below_old_length :
  exists nbs w1,
    AllocateWasmMemory x64_build 0%nat 1 1 kNotShared marked_world
      = Returned (Some nbs) w1 /\
    has_guard_regions_ nbs = has_guard_regions_ two_page_store /\
    byte_length_ nbs = 65536 /\
    byte_length_ two_page_store = 131072 /\
    Z.min (byte_length_ two_page_store) 65536 = 65536 /\
    committed (trace w1) (buffer_start_ nbs) 65536 = true /\
    committed (trace w1) (buffer_start_ nbs) (byte_length_ two_page_store) = false /\
    CopyWasmMemory x64_build 0%nat two_page_store 65536 marked_world = Fatal w1.
Proof.
  eexists. eexists. split; [vm_compute; reflexivity |].
  split_and!; vm_compute; reflexivity.
Qed.

Section Registry.
Context {P : Type} `{!Platform P}.

Lemma set_backing_stores_id (w : @World P) p bs :
  backing_stores w !! p = Some bs ->
  set_backing_stores (<[p := bs]> (backing_stores w)) w = w.
Proof.
  intros Hlive. rewrite insert_id by exact Hlive. destruct w; reflexivity.
Qed.

Lemma Lookup_registered (w : @World P) p bs len :
  registry_ok w -> backing_stores w !! p = Some bs -> globally_registered_ bs = true ->
  Lookup (buffer_start_ bs) len w = Returned (Some p) w.
Proof.
  intros [_ Hreg] Hlive Hflag. unfold Lookup, lock.
  rewrite (Hreg p bs Hlive Hflag), Hlive. reflexivity.
Qed.

Lemma Register_free (w : @World P) p bs :
  registry_ok w -> backing_stores w !! p = Some bs ->
  globally_registered_ bs = false -> map_ w !! buffer_start_ bs = None ->
  exists w1,
    Register (Some p) w = Returned tt w1 /\
    registry_ok w1 /\
    backing_stores w1 !! p = Some (set_globally_registered true bs).
Proof.
  intros [Hmap Hreg] Hlive Hflag Hfree. eexists. split; [| split].
  - unfold Register. rewrite Hlive, Hflag, Hfree. reflexivity.
  - split; cbn.
    + intros a q Hq. destruct (decide (a = buffer_start_ bs)) as [-> | Hne].
      * rewrite lookup_insert_eq in Hq. injection Hq as <-.
        exists (set_globally_registered true bs). rewrite lookup_insert_eq. auto.
      * rewrite lookup_insert_ne in Hq by congruence.
        destruct (Hmap a q Hq) as (bs' & Hlive' & Hstart & Hflag').
        exists bs'. rewrite lookup_insert_ne; [auto |].
        intros ->. congruence.
    + intros q bs' Hq Hflag'. destruct (decide (q = p)) as [-> | Hne].
      * rewrite lookup_insert_eq in Hq. injection Hq as <-. cbn.
        apply lookup_insert_eq.
      * rewrite lookup_insert_ne in Hq by congruence.
        pose proof (Hreg q bs' Hq Hflag') as Hentry.
        rewrite lookup_insert_ne; [exact Hentry | congruence].
  - cbn. apply lookup_insert_eq.
Qed.

Lemma Unregister_registered (w : @World P) p bs len :
  registry_ok w -> backing_stores w !! p = Some bs -> globally_registered_ bs = true ->
  exists w2,
    on_store p Unregister w = Returned tt w2 /\
    registry_ok w2 /\
    Lookup (buffer_start_ bs) len w2 = Returned None w2.
Proof.
  intros [Hmap Hreg] Hlive Hflag. pose proof (Hreg p bs Hlive Hflag) as Hentry.
  eexists. split; [| split].
  - unfold on_store, Unregister. rewrite Hlive, Hflag. cbn. rewrite Hentry. reflexivity.
  - split; cbn.
    + intros a q Hq. apply lookup_delete_Some in Hq as [Hne Hq].
      destruct (Hmap a q Hq) as (bs' & Hlive' & Hstart & Hflag').
      exists bs'. rewrite lookup_insert_ne; [auto |].
      intros ->. congruence.
    + intros q bs' Hq Hflag'. destruct (decide (q = p)) as [-> | Hne].
      * rewrite lookup_insert_eq in Hq. injection Hq as <-. discriminate Hflag'.
      * rewrite lookup_insert_ne in Hq by congruence.
        pose proof (Hreg q bs' Hq Hflag') as Hentry'.
        rewrite lookup_delete_ne; [exact Hentry' |].
        intros Heq. rewrite Heq, Hentry' in Hentry. congruence.
  - unfold Lookup. cbn. rewrite lookup_delete_eq. reflexivity.
Qed.

(** C7 (as amended).  In a consistent registry, for a live store that is
    registered already or whose start address keys no entry: registering
    it and looking its start address up yields that store, and
    unregistering it then and looking the address up yields nothing.
    Registering a registered store and unregistering an unregistered one
    change nothing.  Registering an unregistered store whose start address
    keys an entry aborts. *)
Theorem register_lookup_unregister (w : @World P) (p : positive) (bs : BackingStore)
    (len : Z) :
  registry_ok w ->
  backing_stores w !! p = Some bs ->
  (globally_registered_ bs = true \/ map_ w !! buffer_start_ bs = None ->
     exists w1 w2,
       Register (Some p) w = Returned tt w1 /\
       Lookup (buffer_start_ bs) len w1 = Returned (Some p) w1 /\
       on_store p Unregister w1 = Returned tt w2 /\
       Lookup (buffer_start_ bs) len w2 = Returned None w2 /\
       registry_ok w1 /\ registry_ok w2) /\
  (globally_registered_ bs = true -> Register (Some p) w = Returned tt w) /\
  (globally_registered_ bs = false -> on_store p Unregister w = Returned tt w) /\
  (globally_registered_ bs = false -> is_Some (map_ w !! buffer_start_ bs) ->
     Register (Some p) w = Fatal w).
Proof.
  intros Hok Hlive. split; [| split; [| split]].
  - intros Hcase. destruct (globally_registered_ bs) eqn:Hflag.
    + destruct (Unregister_registered w p bs len Hok Hlive Hflag) as (w2 & Hun & Hok2 & Hgone).
      exists w, w2. split_and!; try assumption.
      * unfold Register. rewrite Hlive, Hflag. reflexivity.
      * apply Lookup_registered; assumption.
    + destruct Hcase as [Hcase | Hfree]; [discriminate |].
      destruct (Register_free w p bs Hok Hlive Hflag Hfree) as (w1 & Hreg & Hok1 & Hlive1).
      destruct (Unregister_registered w1 p _ len Hok1 Hlive1 eq_refl)
        as (w2 & Hun & Hok2 & Hgone).
      exists w1, w2. split_and!; try assumption.
      exact (Lookup_registered w1 p _ len Hok1 Hlive1 eq_refl).
  - intros Hflag. unfold Register. rewrite Hlive, Hflag. reflexivity.
  - intros Hflag. unfold on_store, Unregister. rewrite Hlive, Hflag. cbn.
    rewrite set_backing_stores_id by exact Hlive. reflexivity.
  - intros Hflag [q Hq]. unfold Register. rewrite Hlive, Hflag, Hq. reflexivity.
Qed.

End Registry.

Lemma two_wrappers_ok : registry_ok two_wrappers.
Proof.
  split.
  - intros a p Hp. vm_compute in Hp. discriminate Hp.
  - intros p bs Hp Hflag. cbn in Hp.
    destruct (decide (p = 1%positive)) as [-> | H1].
    + rewrite lookup_insert_eq in Hp. injection Hp as <-. discriminate Hflag.
    + rewrite lookup_insert_ne in Hp by congruence.
      destruct (decide (p = 2%positive)) as [-> | H2].
      * rewrite lookup_insert_eq in Hp. injection Hp as <-. discriminate Hflag.
      * rewrite lookup_insert_ne in Hp by congruence. discriminate Hp.
Defined.

Lemma register_lookup_unregister_witness :
  exists w1 w2,
    Register (Some 1%positive) two_wrappers = Returned tt w1 /\
    Lookup 8192 4096 w1 = Returned (Some 1%positive) w1 /\
    on_store 1%positive Unregister w1 = Returned tt w2 /\
    Lookup 8192 4096 w2 = Returned None w2.
Proof.
  destruct (register_lookup_unregister two_wrappers 1%positive wrapped_region 4096
              two_wrappers_ok eq_refl) as (Hround & _).
  destruct Hround as (w1 & w2 & Hreg & Hfound & Hun & Hgone & _).
  - right. reflexivity.
  - exists w1, w2. auto.
Defined.

(** C7 as stated fails for a store whose start address already keys an
    entry: with the first wrapper of the region registered, registering
    the second one aborts. *)
Lemma register_second_wrapper_aborts :
  exists w1,
    Register (Some 1%positive) two_wrappers = Returned tt w1 /\
    backing_stores w1 !! 2%positive = Some wrapped_region /\
    Register (Some 2%positive) w1 = Fatal w1 /\
    forall w2, Register (Some 2%positive) w1 <> Returned tt w2.
Proof.
  eexists. split; [vm_compute; reflexivity |].
  split_and!; [vm_compute; reflexivity | vm_compute; reflexivity |].
  intros w2 Hrun. vm_compute in Hrun. discriminate Hrun.
Qed.

Section Broadcast.
Context {P : Type} `{!Platform P}.

Lemma lseg_functional h o l1 l2 : lseg h o l1 -> lseg h o l2 -> l1 = l2.
Proof.
  intros H1. revert l2. induction H1 as [| p d l Hp _ IH]; intros l2 H2.
  - inversion H2. reflexivity.
  - inversion H2 as [| p' d' l' Hp' Hrest]; subst.
    rewrite Hp in Hp'. injection Hp' as <-. f_equal. apply IH. exact Hrest.
Qed.

(** From any node of the sequence onwards the rest of the sequence is a
    sequence of its own, and a shorter one. *)
Lemma lseg_from h o l p d :
  lseg h o l -> (p, d) ∈ l ->
  exists l', lseg h (Some p) l' /\ (length l' <= length l)%nat.
Proof.
  intros Hl. induction Hl as [| q e l Hq Hrest IH]; intros Hin.
  - inversion Hin.
  - apply elem_of_cons in Hin as [Heq | Hin].
    + injection Heq as -> ->. exists ((q, e) :: l). split; [| reflexivity].
      constructor; assumption.
    + destruct (IH Hin) as (l' & Hl' & Hlen). exists l'. split; [exact Hl' |].
      cbn. lia.
Qed.

(** A null-terminated sequence passes through no node twice. *)
Lemma lseg_NoDup h o l : lseg h o l -> NoDup l.*1.
Proof.
  intros Hl. induction Hl as [| p d l Hp Hrest IH]; cbn; constructor; [| exact IH].
  intros Hin. apply list_elem_of_fmap in Hin as ([q e] & Hq & Hin). cbn in Hq. subst q.
  destruct (lseg_from _ _ _ _ _ Hrest Hin) as (l' & Hl' & Hlen).
  assert (Heq : l' = (p, d) :: l)
    by (eapply lseg_functional; [exact Hl' | constructor; assumption]).
  subst l'. cbn in Hlen. lia.
Qed.

Lemma lseg_length h o l : lseg h o l -> (length l <= size h)%nat.
Proof.
  intros Hl. pose proof (lseg_NoDup _ _ _ Hl) as Hnd.
  assert (Hsub : l.*1 ⊆ elements (dom h)).
  { clear Hnd. induction Hl as [| p d l Hp Hrest IH]; cbn.
    - apply list_subseteq_nil.
    - intros q Hq. apply elem_of_cons in Hq as [-> | Hq]; [| apply IH; exact Hq].
      apply elem_of_elements, elem_of_dom. eauto. }
  rewrite <- (length_fmap fst l), <- size_dom.
  apply submseteq_length, NoDup_submseteq; assumption.
Qed.

Lemma list_nodes_emit_all evs (w : @World P) : list_nodes (emit_all evs w) = list_nodes w.
Proof.
  revert w. induction evs as [| e evs IH]; intros w; cbn;
    [reflexivity | exact (IH (emit e w))].
Qed.

Lemma emit_all_snoc evs e (w : @World P) : emit e (emit_all evs w) = emit_all (evs ++ [e]) w.
Proof. unfold emit_all. rewrite fold_left_app. reflexivity. Qed.

Lemma trace_emit_all evs (w : @World P) : trace (emit_all evs w) = trace w ++ evs.
Proof.
  revert w. induction evs as [| e evs IH]; intros w; cbn.
  - symmetry. apply app_nil_r.
  - change (fold_left (fun w0 e0 => emit e0 w0) evs (emit e w)) with (emit_all evs (emit e w)).
    rewrite IH. cbn. rewrite <- app_assoc. reflexivity.
Qed.

Lemma emit_all_fields evs (w : @World P) :
  backing_stores (emit_all evs w) = backing_stores w /\
  map_ (emit_all evs w) = map_ w /\
  memory_objects (emit_all evs w) = memory_objects w.
Proof.
  revert w. induction evs as [| e evs IH]; intros w; cbn; [auto |].
  apply (IH (emit e w)).
Qed.

(** Phase A on a well-formed list: with a round to spare, the walk gathers
    the live handles of the isolate's nodes, in order, sends a request for
    every other node, and touches nothing else. *)
Lemma gather_lseg isolate l : forall o acc fuel (w : @World P),
  lseg (list_nodes w) o l ->
  (length l < fuel)%nat ->
  Forall (fun pd => is_Some (isolate_ pd.2)) l ->
  gather fuel isolate o acc w =
    Returned (acc ++ gathered isolate l) (emit_all (signalled isolate l) w).
Proof.
  induction l as [| [p d] l IH]; intros o acc fuel w Hl Hfuel Hown.
  - inversion Hl; subst. destruct fuel; cbn; rewrite app_nil_r; reflexivity.
  - inversion Hl as [| p' d' l' Hp Hrest]; subst.
    destruct fuel as [| fuel]; [cbn in Hfuel; lia |].
    cbn [gather]. unfold bind at 1. unfold node_at. rewrite Hp.
    apply Forall_cons in Hown as [[i Hi] Hown]. cbn in Hi.
    cbn [gathered signalled].
    destruct (owned_by isolate d) eqn:Ho; destruct (memory_object_ d) as [h |] eqn:Hh.
    + rewrite IH with (w := w); [| assumption | cbn in Hfuel; lia | assumption].
      rewrite <- app_assoc. reflexivity.
    + rewrite Hi. unfold bind, RequestGrowSharedMemory.
      rewrite IH; [reflexivity | assumption | cbn in Hfuel; lia | assumption].
    + rewrite Hi. unfold bind, RequestGrowSharedMemory.
      rewrite IH; [reflexivity | assumption | cbn in Hfuel; lia | assumption].
    + rewrite Hi. unfold bind, RequestGrowSharedMemory.
      rewrite IH; [reflexivity | assumption | cbn in Hfuel; lia | assumption].
Qed.

(** Phase B: every gathered view is given the buffer attached to the
    store, and no other view is touched. *)
Lemma update_all_live bs hs : forall (w : @World P),
  Forall (fun h => is_Some (memory_objects w !! h)) hs ->
  exists m,
    update_all bs hs w = Returned tt (set_memory_objects m w) /\
    (forall h, h ∈ hs -> m !! h = Some {| array_buffer := Attach bs |}) /\
    (forall h, h ∉ hs -> m !! h = memory_objects w !! h).
Proof.
  induction hs as [| h hs IH]; intros w Hlive.
  - exists (memory_objects w). split; [| split].
    + cbn. unfold ret. destruct w; reflexivity.
    + intros h Hh. inversion Hh.
    + reflexivity.
  - apply Forall_cons in Hlive as [[v Hv] Hlive].
    set (w1 := set_memory_objects
                 (<[h := {| array_buffer := Attach bs |}]> (memory_objects w)) w).
    destruct (IH w1) as (m & Hrun & Hin & Hout).
    { eapply Forall_impl; [exact Hlive |]. intros h' [v' Hv']. cbn.
      destruct (decide (h = h')) as [-> | Hne].
      - rewrite lookup_insert_eq. eauto.
      - rewrite lookup_insert_ne by exact Hne. eauto. }
    exists m. split; [| split].
    + cbn [update_all]. unfold bind, update_instances. rewrite Hv. fold w1.
      rewrite Hrun. reflexivity.
    + intros h' Hh'. destruct (decide (h' ∈ hs)) as [Hmem | Hmem]; [apply Hin; exact Hmem |].
      apply elem_of_cons in Hh' as [-> | Hh']; [| contradiction].
      rewrite (Hout h Hmem). cbn. apply lookup_insert_eq.
    + intros h' Hh'. apply not_elem_of_cons in Hh' as [Hne Hh'].
      rewrite (Hout h' Hh'). cbn. apply lookup_insert_ne. congruence.
Qed.

Lemma gathered_elem isolate l p d h :
  (p, d) ∈ l -> isolate_ d = Some isolate -> memory_object_ d = Some h ->
  h ∈ gathered isolate l.
Proof.
  intros Hin Hi Hh. induction l as [| [q e] l IH]; [inversion Hin |].
  apply elem_of_cons in Hin as [Heq | Hin].
  - injection Heq as <- <-. cbn. unfold owned_by. rewrite Hi, Nat.eqb_refl, Hh.
    apply list_elem_of_here.
  - cbn. destruct (owned_by isolate e), (memory_object_ e);
      try (apply IH; exact Hin). apply list_elem_of_further, IH, Hin.
Qed.

Lemma signalled_elem isolate l p d i :
  (p, d) ∈ l -> isolate_ d = Some i -> i <> isolate ->
  EvRequestGrowSharedMemory i ∈ signalled isolate l.
Proof.
  intros Hin Hi Hne. induction l as [| [q e] l IH]; [inversion Hin |].
  apply elem_of_cons in Hin as [Heq | Hin].
  - injection Heq as <- <-. cbn. unfold owned_by. rewrite Hi.
    destruct (Nat.eqb_spec i isolate); [contradiction |]. apply list_elem_of_here.
  - cbn. destruct (owned_by isolate e), (memory_object_ e), (isolate_ e);
      try (apply IH; exact Hin); apply list_elem_of_further, IH, Hin.
Qed.

(** The broadcast never reads the size it is given. *)
Lemma broadcast_independent_of_new_size C bs S S' (w : @World P) :
  BroadcastSharedWasmMemoryGrow C bs S w = BroadcastSharedWasmMemoryGrow C bs S' w.
Proof. reflexivity. Qed.

(** C8 (as amended).  On a shared managed store whose attachment list is
    well formed, a broadcast for context [C] returns; every attachment of
    [C] with a live view has that view replaced by a fresh buffer over the
    store, which reports the store's current length, and so the broadcast
    size [S] whenever the store has been grown to [S] beforehand; the
    context of every other attachment is asked to poll for the growth and
    no view but the gathered ones is touched; the list itself, the stores
    and the registry are as before. *)
Theorem broadcast_growth (C : Isolate) (bs : BackingStore) (S : Z) (w : @World P)
    (anchor : positive) (a : SharedWasmMemoryData)
    (l : list (positive * SharedWasmMemoryData)) :
  is_wasm_memory_ bs = true -> is_shared_ bs = true ->
  type_specific_data_ bs = shared_wasm_memory_data anchor ->
  list_nodes w !! anchor = Some a ->
  lseg (list_nodes w) (next_ a) l ->
  Forall (fun pd => is_Some (isolate_ pd.2)) l ->
  Forall (fun h => is_Some (memory_objects w !! h)) (gathered C l) ->
  exists w',
    BroadcastSharedWasmMemoryGrow C bs S w = Returned tt w' /\
    (forall p d h,
       (p, d) ∈ l -> isolate_ d = Some C -> memory_object_ d = Some h ->
       exists v,
         memory_objects w' !! h = Some v /\
         array_buffer v = Attach bs /\
         array_buffer_byte_length (array_buffer v) = byte_length_ bs /\
         (byte_length_ bs = S -> array_buffer_byte_length (array_buffer v) = S)) /\
    (forall p d i,
       (p, d) ∈ l -> isolate_ d = Some i -> i <> C ->
       EvRequestGrowSharedMemory i ∈ signalled C l) /\
    (forall h, h ∉ gathered C l -> memory_objects w' !! h = memory_objects w !! h) /\
    trace w' = trace w ++ signalled C l /\
    list_nodes w' = list_nodes w /\
    backing_stores w' = backing_stores w /\
    map_ w' = map_ w.
Proof.
  intros Hwasm Hshared Hdata Hanchor Hl Hown Hlive.
  destruct (emit_all_fields (signalled C l) w) as (Hstores & Hmap & Hobjs).
  destruct (update_all_live bs (gathered C l) (emit_all (signalled C l) w))
    as (m & Hupdate & Hin & Hout).
  { rewrite Hobjs. exact Hlive. }
  exists (set_memory_objects m (emit_all (signalled C l) w)).
  split_and!.
  - unfold BroadcastSharedWasmMemoryGrow, get_shared_wasm_memory_data.
    rewrite Hwasm, Hshared, Hdata. cbn [andb negb].
    unfold bind at 1. unfold ret at 1.
    unfold bind at 1. unfold node_at at 1. rewrite Hanchor.
    unfold bind at 1.
    rewrite (gather_lseg C l (next_ a) [] _ w Hl); [| | exact Hown].
    + cbn [app]. exact Hupdate.
    + pose proof (lseg_length _ _ _ Hl). lia.
  - intros p d h Hpd Hi Hh.
    exists {| array_buffer := Attach bs |}. cbn.
    split_and!; try reflexivity; [| auto].
    apply Hin. eapply gathered_elem; eassumption.
  - intros p d i Hpd Hi Hne. eapply signalled_elem; eassumption.
  - intros h Hh. cbn. rewrite (Hout h Hh). rewrite Hobjs. reflexivity.
  - cbn. apply trace_emit_all.
  - cbn. apply list_nodes_emit_all.
  - cbn. exact Hstores.
  - cbn. exact Hmap.
Qed.

End Broadcast.

Lemma attached_world_list :
  lseg (list_nodes attached_world) (Some 3%positive)
    [(3%positive, {| next_ := Some 2%positive; prev_ := Some 1%positive;
                     isolate_ := Some 2%nat; memory_object_ := Some 2%positive |});
     (2%positive, {| next_ := None; prev_ := Some 3%positive; isolate_ := Some 1%nat;
                     memory_object_ := Some 1%positive |})].
Proof. repeat (constructor; [reflexivity |]). constructor. Defined.

(** Context 1 broadcasts the growth to the two pages the store has: its
    view reports two pages, the view of context 2 is as before, and
    context 2 is asked to poll. *)
Lemma broadcast_growth_witness :
  exists w' v,
    BroadcastSharedWasmMemoryGrow 1%nat shared_store 131072 attached_world
      = Returned tt w' /\
    memory_objects w' !! 1%positive = Some v /\
    array_buffer_byte_length (array_buffer v) = 131072 /\
    memory_objects w' !! 2%positive = Some one_page_view /\
    trace w' = [EvRequestGrowSharedMemory 2%nat].
Proof.
  destruct (broadcast_growth 1%nat shared_store 131072 attached_world 1%positive _ _
              eq_refl eq_refl eq_refl eq_refl attached_world_list)
    as (w' & Hrun & Hmine & _ & Hothers & Htrace & _).
  - repeat constructor; cbn; eauto.
  - repeat constructor; cbn; eauto.
  - destruct (Hmine 2%positive _ 1%positive
                (list_elem_of_further _ _ _ (list_elem_of_here _ _)) eq_refl eq_refl)
      as (v & Hv & _ & _ & Hsize).
    exists w', v. split_and!.
    + exact Hrun.
    + exact Hv.
    + apply Hsize. reflexivity.
    + rewrite Hothers; [reflexivity |]. cbn. intros Hin.
      apply elem_of_cons in Hin as [Hin | Hin]; [discriminate | inversion Hin].
    + exact Htrace.
Defined.

(** C8 as stated fails when the store does not have the broadcast size:
    broadcasting three pages on the store of two leaves the view of
    context 1 reporting two pages. *)
Lemma broadcast_ignores_new_size :
  byte_length_ shared_store = 131072 /\
  view_length_after 1%positive
    (BroadcastSharedWasmMemoryGrow 1%nat shared_store 196608 attached_world)
    = Some 131072 /\
  131072 <> 196608 /\
  BroadcastSharedWasmMemoryGrow 1%nat shared_store 196608 attached_world
    = BroadcastSharedWasmMemoryGrow 1%nat shared_store 131072 attached_world.
Proof.
  split_and!; [reflexivity | vm_compute; reflexivity | discriminate | reflexivity].
Qed.

(** ** The sample states are states of the program *)

(** The wrapped region is what [WrapAllocation] returns. *)
Lemma wrapped_region_by_WrapAllocation :
  WrapAllocation 0%nat 8192 4096 kShared false (fresh_world 0 no_answers)
    = Returned wrapped_region (fresh_world 0 no_answers).
Proof. reflexivity. Qed.

(** The two-page store is what a managed allocation of two pages returns
    when the pages are reserved at 14 GiB. *)
Lemma two_page_store_by_allocation :
  exists w',
    AllocateWasmMemory x64_build 0%nat 2 65536 kNotShared (fresh_world 0 (obliging (14 * GB)))
      = Returned (Some two_page_store) w'.
Proof. eexists. vm_compute. reflexivity. Qed.

(** The shared store is a shared managed allocation of one page, its
    anchor at node 1, grown in place to two pages. *)
Lemma shared_store_by_allocation_and_growth :
  exists bs w' w'',
    AllocateWasmMemory x64_build 1%nat 1 65536 kShared (fresh_world 0 (obliging (4 * GB)))
      = Returned (Some bs) w' /\
    list_nodes w' = <[1%positive := new_SharedWasmMemoryData None None]> ∅ /\
    GrowWasmMemoryInPlace 1%nat 131072 bs w' = Returned (true, shared_store) w''.
Proof. do 3 eexists. split_and!; vm_compute; reflexivity. Qed.

(** The attached nodes are what attaching view 1 for isolate 1 and then
    view 2 for isolate 2 makes of the anchor. *)
Lemma attached_nodes_by_attachment :
  exists w',
    bind (AddSharedWasmMemoryObject 1%nat shared_store 1%positive)
         (fun _ => AddSharedWasmMemoryObject 2%nat shared_store 2%positive)
         (set_list_nodes (<[1%positive := new_SharedWasmMemoryData None None]> ∅)
            (fresh_world (P := Script) kFullGuardSize no_answers))
      = Returned tt w' /\
    list_nodes w' = attached_nodes.
Proof. eexists. split; vm_compute; reflexivity. Qed.

(** * Further properties: the life of a managed store *)

Section ManagedLife.
Context {P : Type} `{!Platform P}.

Lemma attempts_app f xs ys :
  attempts f (xs ++ ys) = (attempts f xs + attempts f ys)%nat.
Proof. induction xs as [| e xs IH]; cbn; [reflexivity | rewrite IH; lia]. Qed.

Lemma statuses_app xs ys : statuses (xs ++ ys) = statuses xs ++ statuses ys.
Proof.
  induction xs as [| e xs IH]; cbn; [reflexivity |].
  destruct e; try exact IH. cbn. rewrite IH. reflexivity.
Qed.

Lemma pages_obtained_app xs ys :
  pages_obtained (xs ++ ys) = pages_obtained xs ++ pages_obtained ys.
Proof.
  induction xs as [| e xs IH]; cbn; [reflexivity |].
  destruct e; try exact IH. destruct (result =? 0); [exact IH |].
  cbn. rewrite IH. reflexivity.
Qed.

Lemma retried_app xs ys : retried (xs ++ ys) = retried xs || retried ys.
Proof.
  unfold retried. rewrite attempts_app.
  destruct (attempts is_reclaim xs), (attempts is_reclaim ys); reflexivity.
Qed.

(** What the retried reservation leaves besides the counter. *)
Lemma reserve_phase cfg isolate rs l (w : @World P) ok l' w' :
  gc_retry isolate (reserve_memory_space cfg rs) l w = Returned (ok, l') w' ->
  exists evs,
    trace w' = trace w ++ evs /\
    statuses evs = [] /\ pages_obtained evs = [] /\
    did_retry l' = did_retry l || retried evs /\
    (ok = true -> allocation_base l' = allocation_base l) /\
    list_nodes w' = list_nodes w.
Proof.
  intros H0. phase_leaves H0.
  all: eexists; split; [reflexivity |].
  all: cbn; rewrite ?orb_true_r, ?orb_false_r; auto.
Qed.

(** The retried page reservation: the counter moves by what the collector
    released, and on success the pages are the last ones handed out. *)
Lemma pages_phase cfg isolate rs l (w : @World P) ok l' w' :
  0 <= reserved_address_space_ w < 2 ^ 64 ->
  gc_retry isolate (allocate_pages cfg rs) l w = Returned (ok, l') w' ->
  exists evs,
    trace w' = trace w ++ evs /\
    0 <= reserved_address_space_ w' < 2 ^ 64 /\
    reserved_address_space_ w' =
      to_uint64 (reserved_address_space_ w - total (released_by evs)) /\
    statuses evs = [] /\
    did_retry l' = did_retry l || retried evs /\
    (ok = true ->
       allocation_base l' <> 0 /\ pages_obtained evs = [allocation_base l'] /\
       In (EvAllocatePages rs (kWasmPageSize cfg) kNoAccess (allocation_base l')) evs) /\
    (ok = false -> pages_obtained evs = []) /\
    list_nodes w' = list_nodes w.
Proof.
  intros Hc H0. phase_leaves H0.
  all: eexists; split; [reflexivity |]; cbn [released_by app].
  all: rewrite ?app_nil_r; rewrite <- ?release_all_app.
  all: split; [try apply release_all_range; exact Hc |].
  all: split; [first [ rewrite release_all_total by exact Hc; reflexivity
                     | simpl total; rewrite Z.sub_0_r; symmetry;
                       apply to_uint64_small; exact Hc ] |].
  all: repeat match goal with
         | E : (_ =? 0) = true |- _ => apply Z.eqb_eq in E; subst
         | E : (_ =? 0) = false |- _ => apply Z.eqb_neq in E
         end.
  all: cbn; rewrite ?orb_true_r, ?orb_false_r.
  all: repeat match goal with
         | E : ?b <> 0 |- context [?b =? 0] =>
             rewrite (proj2 (Z.eqb_neq b 0) E)
         end.
  all: split_and!; try reflexivity; try discriminate; intros _; split_and!;
       auto 10.
Qed.

(** The retried commit. *)
Lemma commit_phase isolate start len l (w : @World P) ok l' w' :
  0 <= reserved_address_space_ w < 2 ^ 64 ->
  gc_retry isolate (commit_memory start len) l w = Returned (ok, l') w' ->
  exists evs,
    trace w' = trace w ++ evs /\
    0 <= reserved_address_space_ w' < 2 ^ 64 /\
    reserved_address_space_ w' =
      to_uint64 (reserved_address_space_ w - total (released_by evs)) /\
    statuses evs = [] /\ pages_obtained evs = [] /\
    did_retry l' = did_retry l || retried evs /\
    allocation_base l' = allocation_base l /\
    (ok = true -> len <> 0 -> In (EvSetPermissions start len kReadWrite true) evs) /\
    list_nodes w' = list_nodes w.
Proof.
  intros Hc H0. unfold gc_retry, commit_memory in H0.
  destruct (Z.eqb_spec len 0) as [Hlen | Hlen].
  - cbn in H0. inversion H0; subst; clear H0. exists [].
    rewrite app_nil_r, orb_false_r. cbn.
    split_and!; try reflexivity; try assumption; try tauto.
    rewrite Z.sub_0_r. symmetry. apply to_uint64_small. exact Hc.
  - run_in H0. repeat oracle_step H0; inversion H0; subst; clear H0.
    all: cbn [trace emit set_platform set_reserved reserved_address_space_ platform
              list_nodes] in *; rewrite <- ?app_assoc; cbn [app].
    all: eexists; split; [reflexivity |]; cbn [released_by app].
    all: rewrite ?app_nil_r; rewrite <- ?release_all_app.
    all: split; [try apply release_all_range; exact Hc |].
    all: split; [first [ rewrite release_all_total by exact Hc; reflexivity
                       | simpl total; rewrite Z.sub_0_r; symmetry;
                         apply to_uint64_small; exact Hc ] |].
    all: cbn; rewrite ?orb_true_r, ?orb_false_r.
    all: split_and!; try reflexivity; try discriminate; auto 10.
Qed.


Lemma fresh_node_absent (h : gmap positive SharedWasmMemoryData) :
  h !! fresh (dom h) = None.
Proof. apply not_elem_of_dom, is_fresh. Qed.

(** A successful managed allocation, phase by phase. *)
Lemma TryAllocateWasmMemory_Some_inv cfg isolate initial_pages maximum_pages shared
    (w : @World P) bs w' :
  TryAllocateWasmMemory cfg isolate initial_pages maximum_pages shared w
    = Returned (Some bs) w' ->
  let rs := reservation_size_for cfg maximum_pages in
  let len := to_size_t (target_arch cfg) (initial_pages * kWasmPageSize cfg) in
  exists l1 w1 l2 w2 l3 w3,
    gc_retry isolate (reserve_memory_space cfg rs)
      {| did_retry := false; allocation_base := 0 |} w = Returned (true, l1) w1 /\
    gc_retry isolate (allocate_pages cfg rs) l1 w1 = Returned (true, l2) w2 /\
    let start := to_size_t (target_arch cfg)
                   (allocation_base l2 + guard_offset (target_arch cfg)) in
    gc_retry isolate (commit_memory start len) l2 w2 = Returned (true, l3) w3 /\
    let result := new_BackingStore start len (byte_capacity_for cfg maximum_pages) shared
                    true true (kUseGuardRegions (target_arch cfg)) in
    let w4 := emit (EvRecordStatus isolate
                      (if did_retry l3 then kSuccessAfterRetry else kSuccess)) w3 in
    let anchor := fresh (dom (list_nodes w3)) in
    bs = (if is_kShared shared
          then set_type_specific_data (shared_wasm_memory_data anchor) result
          else result) /\
    w' = (if is_kShared shared
          then set_list_nodes
                 (<[anchor := new_SharedWasmMemoryData None None]> (list_nodes w3)) w4
          else w4).
Proof.
  intros Hrun rs len. unfold TryAllocateWasmMemory in Hrun. fold rs len in Hrun.
  destruct (gc_retry isolate (reserve_memory_space cfg rs)
              {| did_retry := false; allocation_base := 0 |} w)
    as [[[] l1] w1 | w1 |] eqn:E1;
    [ | rewrite (bind_Returned _ _ _ _ _ E1) in Hrun; cbn [negb] in Hrun;
        destruct (FLAG_correctness_fuzzer_suppressions cfg); discriminate Hrun
      | unfold bind in Hrun; rewrite E1 in Hrun; discriminate Hrun
      | unfold bind in Hrun; rewrite E1 in Hrun; discriminate Hrun ].
  rewrite (bind_Returned _ _ _ _ _ E1) in Hrun. cbn [negb] in Hrun.
  destruct (gc_retry isolate (allocate_pages cfg rs) l1 w1)
    as [[[] l2] w2 | w2 |] eqn:E2;
    [ | rewrite (bind_Returned _ _ _ _ _ E2) in Hrun; discriminate Hrun
      | unfold bind in Hrun; rewrite E2 in Hrun; discriminate Hrun
      | unfold bind in Hrun; rewrite E2 in Hrun; discriminate Hrun ].
  rewrite (bind_Returned _ _ _ _ _ E2) in Hrun. cbn [negb] in Hrun.
  fold (guard_offset (target_arch cfg)) in Hrun.
  destruct (gc_retry isolate
              (commit_memory
                 (to_size_t (target_arch cfg)
                    (allocation_base l2 + guard_offset (target_arch cfg))) len) l2 w2)
    as [[[] l3] w3 | w3 |] eqn:E3;
    [ | rewrite (bind_Returned _ _ _ _ _ E3) in Hrun; discriminate Hrun
      | unfold bind in Hrun; rewrite E3 in Hrun; discriminate Hrun
      | unfold bind in Hrun; rewrite E3 in Hrun; discriminate Hrun ].
  rewrite (bind_Returned _ _ _ _ _ E3) in Hrun. cbn [negb] in Hrun.
  exists l1, w1, l2, w2, l3, w3.
  split; [reflexivity |]. split; [exact E2 |]. cbv zeta. split; [exact E3 |].
  destruct shared; cbn in Hrun |- *; injection Hrun as <- <-; split; reflexivity.
Qed.


Lemma to_uint64_sub_idemp a b : to_uint64 (to_uint64 a - b) = to_uint64 (a - b).
Proof. unfold to_uint64. apply Zminus_mod_idemp_l. Qed.

Lemma to_uint64_sub2 a b c : to_uint64 (to_uint64 a - b - c) = to_uint64 (a - b - c).
Proof.
  unfold to_uint64. rewrite <- Z.sub_add_distr, Zminus_mod_idemp_l. f_equal. lia.
Qed.

(** Everything a successful managed allocation did. *)
Lemma TryAllocateWasmMemory_success cfg isolate initial_pages maximum_pages shared
    (w : @World P) bs w' :
  0 <= reserved_address_space_ w < 2 ^ 64 ->
  TryAllocateWasmMemory cfg isolate initial_pages maximum_pages shared w
    = Returned (Some bs) w' ->
  let rs := reservation_size_for cfg maximum_pages in
  exists evs base w3,
    trace w' = trace w ++ evs /\
    pages_obtained evs = [base] /\ base <> 0 /\
    In (EvAllocatePages rs (kWasmPageSize cfg) kNoAccess base) evs /\
    buffer_start_ bs =
      to_size_t (target_arch cfg) (base + guard_offset (target_arch cfg)) /\
    (byte_length_ bs <> 0 ->
       In (EvSetPermissions (buffer_start_ bs) (byte_length_ bs) kReadWrite true) evs) /\
    reserved_address_space_ w' =
      to_uint64 (reserved_address_space_ w + rs - total (released_by evs)) /\
    statuses evs = [if retried evs then kSuccessAfterRetry else kSuccess] /\
    list_nodes w3 = list_nodes w /\
    platform w' = platform w3 /\
    bs = (if is_kShared shared
          then set_type_specific_data
                 (shared_wasm_memory_data (fresh (dom (list_nodes w)))) 
                 (new_BackingStore (buffer_start_ bs) (byte_length_ bs)
                    (byte_capacity_for cfg maximum_pages) shared true true
                    (kUseGuardRegions (target_arch cfg)))
          else new_BackingStore (buffer_start_ bs) (byte_length_ bs)
                 (byte_capacity_for cfg maximum_pages) shared true true
                 (kUseGuardRegions (target_arch cfg))) /\
    list_nodes w' =
      (if is_kShared shared
       then <[fresh (dom (list_nodes w)) := new_SharedWasmMemoryData None None]>
              (list_nodes w)
       else list_nodes w).
Proof.
  intros Hc Hrun rs.
  destruct (TryAllocateWasmMemory_Some_inv _ _ _ _ _ _ _ _ Hrun)
    as (l1 & w1 & l2 & w2 & l3 & w3 & E1 & E2 & E3 & Hbs & Hw').
  fold rs in E1, E2.
  destruct (gc_retry_reserve_counter _ _ _ _ _ _ _ _ Hc
              (reservation_size_for_nonneg cfg maximum_pages) E1)
    as (evs1 & Htr1 & Hc1 & Hcount1).
  destruct (reserve_phase _ _ _ _ _ _ _ _ E1)
    as (evs1' & Htr1' & Hst1 & Hpg1 & Hdr1 & Hab1 & Hln1).
  assert (evs1' = evs1) as -> by (eapply app_inv_head; rewrite <- Htr1', Htr1; reflexivity).
  destruct (pages_phase _ _ _ _ _ _ _ _ Hc1 E2)
    as (evs2 & Htr2 & Hc2 & Hcount2 & Hst2 & Hdr2 & Hok2 & _ & Hln2).
  destruct (Hok2 eq_refl) as (Hbase & Hpg2 & Hin2).
  destruct (commit_phase _ _ _ _ _ _ _ _ Hc2 E3)
    as (evs3 & Htr3 & Hc3 & Hcount3 & Hst3 & Hpg3 & Hdr3 & Hab3 & Hin3 & Hln3).
  set (st := if did_retry l3 then kSuccessAfterRetry else kSuccess) in *.
  exists (evs1 ++ evs2 ++ evs3 ++ [EvRecordStatus isolate st]), (allocation_base l2), w3.
  assert (Hretry : retried (evs1 ++ evs2 ++ evs3 ++ [EvRecordStatus isolate st])
                   = did_retry l3).
  { rewrite !retried_app, Hdr3, Hdr2, Hdr1. cbn.
    rewrite orb_false_r, !orb_assoc. reflexivity. }
  assert (Hstart : buffer_start_ bs =
                     to_size_t (target_arch cfg)
                       (allocation_base l2 + guard_offset (target_arch cfg)))
    by (rewrite Hbs; destruct shared; reflexivity).
  assert (Hlen : byte_length_ bs =
                   to_size_t (target_arch cfg) (initial_pages * kWasmPageSize cfg))
    by (rewrite Hbs; destruct shared; reflexivity).
  assert (Hnodes : list_nodes w3 = list_nodes w) by congruence.
  split_and!.
  - rewrite Hw'. destruct shared; cbn; rewrite Htr3, Htr2, Htr1, <- !app_assoc; reflexivity.
  - rewrite !pages_obtained_app, Hpg1, Hpg2, Hpg3. reflexivity.
  - exact Hbase.
  - apply in_or_app. right. apply in_or_app. left. exact Hin2.
  - exact Hstart.
  - intros Hne. apply in_or_app. right. apply in_or_app. right. apply in_or_app. left.
    rewrite Hstart, Hlen. apply Hin3; [reflexivity | rewrite <- Hlen; exact Hne].
  - rewrite Hw'. 
    replace (reserved_address_space_ (if is_kShared shared then _ else _))
      with (reserved_address_space_ w3) by (destruct shared; reflexivity).
    rewrite Hcount3, Hcount2, to_uint64_sub_idemp, Hcount1.
    rewrite <- Z.sub_add_distr, to_uint64_sub_idemp.
    rewrite !released_by_app, !total_app. cbn [released_by total fold_right].
    f_equal. lia.
  - rewrite Hretry, !statuses_app, Hst1, Hst2, Hst3. reflexivity.
  - exact Hnodes.
  - rewrite Hw'. destruct shared; reflexivity.
  - rewrite <- Hnodes, Hstart, Hlen. exact Hbs.
  - rewrite <- Hnodes, Hw'. destruct shared; reflexivity.
Qed.


(** The region the destructor frees and the reservation it releases, for
    a store laid out by the managed allocation over pages at [base]. *)
Lemma destroy_fresh_store cfg maximum_pages shared len base (w w' : @World P) :
  let a := target_arch cfg in
  let rs := reservation_size_for cfg maximum_pages in
  let start := to_size_t a (base + guard_offset a) in
  let result := new_BackingStore start len (byte_capacity_for cfg maximum_pages) shared
                  true true (kUseGuardRegions a) in
  let anchor := fresh (dom (list_nodes w)) in
  let bs := if is_kShared shared
            then set_type_specific_data (shared_wasm_memory_data anchor) result
            else result in
  list_nodes w' =
    (if is_kShared shared
     then <[anchor := new_SharedWasmMemoryData None None]> (list_nodes w)
     else list_nodes w) ->
  0 < base -> base + guard_offset a < 2 ^ size_t_bits a -> rs <> 0 ->
  forall ok p',
    FreePages base rs (platform w') = (ok, p') ->
    let w1 := emit (EvFreePages base rs ok)
                (set_platform p' (set_list_nodes (list_nodes w) w')) in
    destroy bs w' =
      if ok
      then Returned tt
             (emit (EvReleaseReservation rs)
                (set_reserved (ReleaseReservation rs (reserved_address_space_ w')) w1))
      else Fatal w1.
Proof.
  intros a rs start result anchor bs Hnodes Hbase Hfit Hrs ok p' Hfree w1.
  assert (Hstart : start = base + guard_offset a).
  { unfold start. apply to_size_t_small. unfold guard_offset in *.
    destruct (kUseGuardRegions a); [change kNegativeGuardSize with 2147483648 in * |]; lia. }
  assert (Hstart0 : (start =? 0) = false).
  { apply Z.eqb_neq. rewrite Hstart. unfold guard_offset.
    destruct (kUseGuardRegions a); [change kNegativeGuardSize with 2147483648 |]; lia. }
  assert (Hregion :
    (if kUseGuardRegions a
     then GetGuardedRegion start len
     else {| region_begin := start; region_size := byte_capacity_for cfg maximum_pages |})
    = {| region_begin := base; region_size := rs |}).
  { unfold rs, byte_capacity_for, reservation_size_for, GetGuardedRegion. fold a.
    rewrite Hstart. unfold guard_offset in *.
    destruct (kUseGuardRegions a) eqn:Hg.
    - assert (Hbits : size_t_bits a = 64)
        by (unfold size_t_bits; unfold kUseGuardRegions in Hg; rewrite Hg; reflexivity).
      rewrite Hbits in Hfit. change kNegativeGuardSize with (2 * GB) in *.
      replace (base + 2 * GB - 2 * GB) with base by lia.
      f_equal.
      + apply to_uint64_small. change (2 * GB) with 2147483648 in Hfit. lia.
      + unfold to_size_t. rewrite Hbits. reflexivity.
    - rewrite Z.add_0_r. reflexivity. }
  assert (Hsize :
    (if kUseGuardRegions a then kFullGuardSize else byte_capacity_for cfg maximum_pages)
    = rs).
  { unfold rs, byte_capacity_for, reservation_size_for. fold a.
    destruct (kUseGuardRegions a) eqn:Hg; [| reflexivity].
    assert (Hbits : size_t_bits a = 64)
      by (unfold size_t_bits; unfold kUseGuardRegions in Hg; rewrite Hg; reflexivity).
    unfold to_size_t. rewrite Hbits. reflexivity. }
  assert (Hrs0 : (rs =? 0) = false) by (apply Z.eqb_neq; exact Hrs).
  unfold destroy.
  replace (globally_registered_ bs) with false by (unfold bs; destruct shared; reflexivity).
  unfold bind at 1. unfold ret at 1.
  replace (buffer_start_ bs) with start by (unfold bs; destruct shared; reflexivity).
  rewrite Hstart0.
  replace (is_wasm_memory_ bs) with true by (unfold bs; destruct shared; reflexivity).
  replace (has_guard_regions_ bs) with (kUseGuardRegions a)
    by (unfold bs; destruct shared; reflexivity).
  replace (byte_length_ bs) with len by (unfold bs; destruct shared; reflexivity).
  replace (byte_capacity_ bs) with (byte_capacity_for cfg maximum_pages)
    by (unfold bs; destruct shared; reflexivity).
  rewrite Hregion, Hsize. cbn [region_begin region_size]. rewrite Hrs0.
  assert (Hlist :
    (if is_shared_ bs
     then bind (get_shared_wasm_memory_data bs)
            (fun list w0 => delete_list (S (size (list_nodes w0))) (Some list) w0)
     else ret tt) w' = Returned tt (set_list_nodes (list_nodes w) w')).
  { unfold bs, result. destruct shared; cbn in Hnodes |- *.
    - unfold ret. rewrite <- Hnodes. destruct w'; reflexivity.
    - unfold bind at 1. unfold node_at.
      rewrite Hnodes, lookup_insert_eq. unfold bind, delete_node. cbn.
      rewrite Hnodes, delete_insert_id by apply fresh_node_absent.
      destruct (size _); reflexivity. }
  unfold bind at 1. rewrite Hlist.
  unfold bind, do_FreePages. cbn [platform set_list_nodes]. rewrite Hfree.
  destruct ok; reflexivity.
Qed.


(** X1.  A successful managed allocation obtained exactly one region from
    the page allocator, of the reservation size; the buffer starts the
    negative guard size past it (at it, without guard regions); the
    initial bytes, if any, were made read/write; and the counter has gained
    exactly the reservation size, less what the collections of the retries
    released. *)
Theorem successful_allocation cfg isolate initial_pages maximum_pages shared
    (w : @World P) bs w' :
  0 <= reserved_address_space_ w < 2 ^ 64 ->
  TryAllocateWasmMemory cfg isolate initial_pages maximum_pages shared w
    = Returned (Some bs) w' ->
  let rs := reservation_size_for cfg maximum_pages in
  exists evs base,
    trace w' = trace w ++ evs /\
    pages_obtained evs = [base] /\ base <> 0 /\
    In (EvAllocatePages rs (kWasmPageSize cfg) kNoAccess base) evs /\
    buffer_start_ bs =
      to_size_t (target_arch cfg) (base + guard_offset (target_arch cfg)) /\
    (byte_length_ bs <> 0 ->
       In (EvSetPermissions (buffer_start_ bs) (byte_length_ bs) kReadWrite true) evs) /\
    reserved_address_space_ w' =
      to_uint64 (reserved_address_space_ w + rs - total (released_by evs)).
Proof.
  intros Hc Hrun rs.
  destruct (TryAllocateWasmMemory_success _ _ _ _ _ _ _ _ Hc Hrun)
    as (evs & base & w3 & Htr & Hpg & Hbase & Hin & Hstart & Hcommit & Hcount & _).
  exists evs, base. auto 10.
Qed.

(** X2.  Destroying a store right after its managed allocation with a
    reservation other than zero, in a region that lies with its guard
    offset within the address space, frees exactly the region the page
    allocator handed out, at its full reservation size, releases exactly
    the reservation, and deletes the anchor of a shared store and no other
    node: the counter is back at its value before the allocation (less
    what collections released).  When the page allocator refuses to free,
    the process aborts and the reservation is not released. *)
Theorem allocate_then_destroy cfg isolate initial_pages maximum_pages shared
    (w : @World P) bs w' :
  0 <= reserved_address_space_ w < 2 ^ 64 ->
  TryAllocateWasmMemory cfg isolate initial_pages maximum_pages shared w
    = Returned (Some bs) w' ->
  let rs := reservation_size_for cfg maximum_pages in
  rs <> 0 ->
  exists evs base,
    trace w' = trace w ++ evs /\
    pages_obtained evs = [base] /\
    (0 <= base ->
     base + guard_offset (target_arch cfg) < 2 ^ size_t_bits (target_arch cfg) ->
     (forall p',
        FreePages base rs (platform w') = (true, p') ->
        exists w'',
          destroy bs w' = Returned tt w'' /\
          trace w'' = trace w' ++ [EvFreePages base rs true; EvReleaseReservation rs] /\
          reserved_address_space_ w'' =
            to_uint64 (reserved_address_space_ w - total (released_by evs)) /\
          list_nodes w'' = without_anchor bs (list_nodes w')) /\
     (forall p',
        FreePages base rs (platform w') = (false, p') ->
        exists w'',
          destroy bs w' = Fatal w'' /\
          reserved_address_space_ w'' = reserved_address_space_ w')).
Proof.
  intros Hc Hrun rs Hrs.
  destruct (TryAllocateWasmMemory_success _ _ _ _ _ _ _ _ Hc Hrun)
    as (evs & base & w3 & Htr & Hpg & Hbase & Hin & Hstart & Hcommit & Hcount & _ & _
        & _ & Hbs & Hnodes).
  exists evs, base. split; [exact Htr |]. split; [exact Hpg |].
  intros Hbase0 Hfit.
  assert (Hpos : 0 < base) by lia.
  rewrite Hstart in Hbs.
  split; intros p' Hfree.
  - eexists. split; [| split_and!].
    + rewrite Hbs.
      rewrite (destroy_fresh_store cfg maximum_pages shared (byte_length_ bs) base w w'
                 Hnodes Hpos Hfit Hrs true p' Hfree).
      reflexivity.
    + cbn. rewrite <- app_assoc. reflexivity.
    + cbn. rewrite Hcount. unfold ReleaseReservation. rewrite to_uint64_sub_idemp.
      f_equal. fold rs. lia.
    + cbn [list_nodes emit set_reserved set_platform set_list_nodes].
      unfold without_anchor. rewrite Hnodes, Hbs.
      destruct (is_kShared shared); cbn; [| reflexivity].
      rewrite delete_insert_id by apply fresh_node_absent. reflexivity.
  - eexists. split.
    + rewrite Hbs.
      rewrite (destroy_fresh_store cfg maximum_pages shared (byte_length_ bs) base w w'
                 Hnodes Hpos Hfit Hrs false p' Hfree).
      reflexivity.
    + reflexivity.
Qed.


(** Growth in place touches neither the list nodes, nor the reservation
    counter, nor the registry, and of the store only its length. *)
Lemma GrowWasmMemoryInPlace_frame isolate n this (w : @World P) ok this' w' :
  GrowWasmMemoryInPlace isolate n this w = Returned (ok, this') w' ->
  list_nodes w' = list_nodes w /\
  reserved_address_space_ w' = reserved_address_space_ w /\
  this' = set_byte_length (byte_length_ this') this /\
  backing_stores w' = backing_stores w /\ map_ w' = map_ w.
Proof.
  assert (Hsame : this = set_byte_length (byte_length_ this) this)
    by (destruct this; reflexivity).
  unfold GrowWasmMemoryInPlace.
  destruct (n <=? byte_length_ this); [intros [= _ <- <-]; auto 10 |].
  destruct (byte_capacity_ this <? n); [intros [= _ <- <-]; auto 10 |].
  unfold bind, do_SetPermissions.
  destruct (SetPermissions _ _ _ _) as [[] p']; cbn.
  - intros [= _ <- <-]. auto 10.
  - intros [= _ <- <-]. auto 10.
Qed.

(** X3.  However a store has grown in place since its managed
    allocation with a reservation other than zero, in a region that lies
    with its guard offset within the address space, its destructor frees
    the region the page allocator handed out at the full reservation size,
    releases the full reservation, and deletes the anchor of a shared
    store and no other node: the counter is back at its value before the
    allocation (less what collections released). *)
Theorem grow_then_destroy cfg isolate initial_pages maximum_pages shared
    (w : @World P) bs w1 isolate' new_byte_length ok bs' w2 :
  0 <= reserved_address_space_ w < 2 ^ 64 ->
  TryAllocateWasmMemory cfg isolate initial_pages maximum_pages shared w
    = Returned (Some bs) w1 ->
  GrowWasmMemoryInPlace isolate' new_byte_length bs w1 = Returned (ok, bs') w2 ->
  let rs := reservation_size_for cfg maximum_pages in
  rs <> 0 ->
  exists evs base,
    trace w1 = trace w ++ evs /\
    pages_obtained evs = [base] /\
    (0 <= base ->
     base + guard_offset (target_arch cfg) < 2 ^ size_t_bits (target_arch cfg) ->
     forall p',
       FreePages base rs (platform w2) = (true, p') ->
       exists w3,
         destroy bs' w2 = Returned tt w3 /\
         trace w3 = trace w2 ++ [EvFreePages base rs true; EvReleaseReservation rs] /\
         reserved_address_space_ w3 =
           to_uint64 (reserved_address_space_ w - total (released_by evs)) /\
         list_nodes w3 = without_anchor bs' (list_nodes w2)).
Proof.
  intros Hc Hrun Hgrow rs Hrs.
  destruct (TryAllocateWasmMemory_success _ _ _ _ _ _ _ _ Hc Hrun)
    as (evs & base & w3 & Htr & Hpg & Hbase & Hin & Hstart & Hcommit & Hcount & _ & _
        & _ & Hbs & Hnodes).
  destruct (GrowWasmMemoryInPlace_frame _ _ _ _ _ _ _ Hgrow)
    as (Hnodes2 & Hcount2 & Hbs' & _).
  exists evs, base. split; [exact Htr |]. split; [exact Hpg |].
  intros Hbase0 Hfit p' Hfree.
  assert (Hpos : 0 < base) by lia.
  rewrite Hstart in Hbs. rewrite <- Hnodes2 in Hnodes.
  assert (Hshape : bs' =
            (if is_kShared shared
             then set_type_specific_data
                    (shared_wasm_memory_data (fresh (dom (list_nodes w))))
                    (new_BackingStore
                       (to_size_t (target_arch cfg) (base + guard_offset (target_arch cfg)))
                       (byte_length_ bs') (byte_capacity_for cfg maximum_pages) shared
                       true true (kUseGuardRegions (target_arch cfg)))
             else new_BackingStore
                    (to_size_t (target_arch cfg) (base + guard_offset (target_arch cfg)))
                    (byte_length_ bs') (byte_capacity_for cfg maximum_pages) shared
                    true true (kUseGuardRegions (target_arch cfg)))).
  { rewrite Hbs', Hbs. destruct (is_kShared shared); reflexivity. }
  eexists. split; [| split_and!].
  - rewrite Hshape.
    rewrite (destroy_fresh_store cfg maximum_pages shared (byte_length_ bs') base w w2
               Hnodes Hpos Hfit Hrs true p' Hfree).
    reflexivity.
  - cbn. rewrite <- app_assoc. reflexivity.
  - cbn. rewrite Hcount2, Hcount. unfold ReleaseReservation. rewrite to_uint64_sub_idemp.
    f_equal. fold rs. lia.
  - cbn [list_nodes emit set_reserved set_platform set_list_nodes].
    unfold without_anchor. rewrite Hnodes, Hshape.
    destruct (is_kShared shared); cbn; [| reflexivity].
    rewrite delete_insert_id by apply fresh_node_absent. reflexivity.
Qed.

(** The phases never abort and never run out of rounds; the first two
    give nothing back. *)
Lemma reserve_phase_returns cfg isolate rs l (w : @World P) :
  exists ok l' w' evs,
    gc_retry isolate (reserve_memory_space cfg rs) l w = Returned (ok, l') w' /\
    trace w' = trace w ++ evs /\
    statuses evs = [] /\ pages_obtained evs = [] /\
    attempts is_pages_attempt evs = 0%nat /\
    attempts is_commit_attempt evs = 0%nat /\
    attempts is_hand_back evs = 0%nat.
Proof.
  destruct (gc_retry isolate (reserve_memory_space cfg rs) l w) as [[ok l'] w' | w' |] eqn:H0.
  - exists ok, l', w'. phase_leaves H0.
    all: eexists; split; [reflexivity |]; split; [reflexivity |]; cbn; auto 10.
  - unfold gc_retry in H0. run_in H0. repeat oracle_step H0; discriminate H0.
  - unfold gc_retry in H0. run_in H0. repeat oracle_step H0; discriminate H0.
Qed.

Lemma pages_phase_returns cfg isolate rs l (w : @World P) :
  exists ok l' w' evs,
    gc_retry isolate (allocate_pages cfg rs) l w = Returned (ok, l') w' /\
    trace w' = trace w ++ evs /\
    statuses evs = [] /\ attempts is_commit_attempt evs = 0%nat /\
    attempts is_hand_back evs = 0%nat /\
    (ok = true -> pages_obtained evs = [allocation_base l']).
Proof.
  destruct (gc_retry isolate (allocate_pages cfg rs) l w) as [[ok l'] w' | w' |] eqn:H0.
  - exists ok, l', w'. phase_leaves H0.
    all: eexists; split; [reflexivity |]; split; [reflexivity |]; split; [reflexivity |].
    all: split; [reflexivity |]; split; [reflexivity |].
    all: repeat match goal with
           | E : (_ =? 0) = true |- _ => apply Z.eqb_eq in E; subst
           end.
    all: cbn; rewrite ?Hnull, ?Hnull0, ?Hnull1; try discriminate; intros _; reflexivity.
  - unfold gc_retry in H0. run_in H0. repeat oracle_step H0; discriminate H0.
  - unfold gc_retry in H0. run_in H0. repeat oracle_step H0; discriminate H0.
Qed.

(** The commit returns too; refused, it has made three requests, each
    followed by a reclamation request. *)
Lemma commit_phase_returns isolate start len l (w : @World P) :
  exists ok l' w',
    gc_retry isolate (commit_memory start len) l w = Returned (ok, l') w' /\
    (ok = false ->
       len <> 0 /\
       exists r1 r2 r3,
         trace w' = trace w ++
           [EvSetPermissions start len kReadWrite false; EvMemoryPressure isolate r1;
            EvSetPermissions start len kReadWrite false; EvMemoryPressure isolate r2;
            EvSetPermissions start len kReadWrite false; EvMemoryPressure isolate r3] /\
         reserved_address_space_ w' =
           release_all (r1 ++ r2 ++ r3) (reserved_address_space_ w)).
Proof.
  destruct (gc_retry isolate (commit_memory start len) l w) as [[ok l'] w' | w' |] eqn:H0;
    unfold gc_retry, commit_memory in H0;
    destruct (Z.eqb_spec len 0) as [Hlen | Hlen].
  - cbn in H0. inversion H0; subst; clear H0. do 3 eexists.
    split; [reflexivity |]. discriminate.
  - exists ok, l', w'. run_in H0. repeat oracle_step H0; inversion H0; subst; clear H0.
    all: split; [reflexivity |]; try discriminate.
    intros _. split; [exact Hlen |].
    cbn [trace emit set_platform set_reserved reserved_address_space_ platform] in *.
    rewrite <- ?app_assoc; cbn [app].
    do 3 eexists. split; [reflexivity |].
    rewrite !release_all_app. reflexivity.
  - cbn in H0. discriminate H0.
  - run_in H0. repeat oracle_step H0; discriminate H0.
  - cbn in H0. discriminate H0.
  - run_in H0. repeat oracle_step H0; discriminate H0.
Qed.

(** X4.  A managed allocation aborts in two cases only.  Either the
    correctness-fuzzer flag is set and the reservation failed three times,
    a reclamation request after each: these six calls are all the run
    made, so no page was requested.  Or the commit of an initial size
    other than zero was refused three times, a reclamation request after
    each, as the last calls of the run: before them the page allocator
    handed out one region, nothing was given back, and no commit was
    attempted, so the region is still held, and the counter still
    includes the reservation.  No status is recorded either way. *)
Theorem allocation_abort_causes cfg isolate initial_pages maximum_pages shared
    (w : @World P) w' :
  0 <= reserved_address_space_ w < 2 ^ 64 ->
  TryAllocateWasmMemory cfg isolate initial_pages maximum_pages shared w = Fatal w' ->
  let rs := reservation_size_for cfg maximum_pages in
  let len := to_size_t (target_arch cfg) (initial_pages * kWasmPageSize cfg) in
  (FLAG_correctness_fuzzer_suppressions cfg = true /\
   exists r1 r2 r3,
     trace w' = trace w ++
       [EvReserveAddressSpace rs false; EvMemoryPressure isolate r1;
        EvReserveAddressSpace rs false; EvMemoryPressure isolate r2;
        EvReserveAddressSpace rs false; EvMemoryPressure isolate r3] /\
     reserved_address_space_ w' =
       release_all (r1 ++ r2 ++ r3) (reserved_address_space_ w)) \/
  (len <> 0 /\
   exists evs base r1 r2 r3,
     let start := to_size_t (target_arch cfg) (base + guard_offset (target_arch cfg)) in
     trace w' = trace w ++ evs ++
       [EvSetPermissions start len kReadWrite false; EvMemoryPressure isolate r1;
        EvSetPermissions start len kReadWrite false; EvMemoryPressure isolate r2;
        EvSetPermissions start len kReadWrite false; EvMemoryPressure isolate r3] /\
     base <> 0 /\
     pages_obtained evs = [base] /\
     In (EvAllocatePages rs (kWasmPageSize cfg) kNoAccess base) evs /\
     attempts is_hand_back evs = 0%nat /\
     attempts is_commit_attempt evs = 0%nat /\
     statuses evs = [] /\
     reserved_address_space_ w' =
       to_uint64 (reserved_address_space_ w + rs
                  - total (released_by evs) - total (r1 ++ r2 ++ r3))).
Proof.
  intros Hc Hrun rs len. unfold TryAllocateWasmMemory in Hrun. fold rs len in Hrun.
  destruct (reserve_phase_returns cfg isolate rs
              {| did_retry := false; allocation_base := 0 |} w)
    as (ok1 & l1 & w1 & evs1 & E1 & Htr1 & Hst1 & Hpg1 & _ & Hcm1 & Hhb1).
  rewrite (bind_Returned _ _ _ _ _ E1) in Hrun.
  destruct (gc_retry_reserve_counter _ _ _ _ _ _ _ _ Hc
              (reservation_size_for_nonneg cfg maximum_pages) E1)
    as (evs1' & Htr1' & Hc1 & Hcount1).
  assert (evs1' = evs1) as -> by (eapply app_inv_head; rewrite <- Htr1', Htr1; reflexivity).
  destruct ok1; cbn [negb] in Hrun.
  2: { destruct (FLAG_correctness_fuzzer_suppressions cfg) eqn:Hflag;
         [| discriminate Hrun].
       injection Hrun as <-. left. split; [reflexivity |].
       destruct (gc_retry_reserve_exhausted _ _ _ _ _ _ _ E1) as (r1 & r2 & r3 & Htr & Hcount).
       exists r1, r2, r3. auto. }
  destruct (pages_phase_returns cfg isolate rs l1 w1)
    as (ok2 & l2 & w2 & evs2 & E2 & Htr2 & Hst2 & Hcm2 & Hhb2 & Hpg2).
  rewrite (bind_Returned _ _ _ _ _ E2) in Hrun.
  destruct (pages_phase _ _ _ _ _ _ _ _ Hc1 E2)
    as (evs2' & Htr2' & Hc2 & Hcount2 & _ & _ & Hok2 & _).
  assert (evs2' = evs2) as -> by (eapply app_inv_head; rewrite <- Htr2', Htr2; reflexivity).
  destruct ok2; cbn [negb] in Hrun; [| discriminate Hrun].
  destruct (Hok2 eq_refl) as (Hbase & _ & Hin).
  fold (guard_offset (target_arch cfg)) in Hrun.
  destruct (commit_phase_returns isolate
              (to_size_t (target_arch cfg)
                 (allocation_base l2 + guard_offset (target_arch cfg))) len l2 w2)
    as (ok3 & l3 & w3 & E3 & Hfail3).
  rewrite (bind_Returned _ _ _ _ _ E3) in Hrun.
  destruct ok3; cbn [negb] in Hrun.
  { cbn in Hrun. destruct (is_kShared shared); discriminate Hrun. }
  injection Hrun as <-. right.
  destruct (Hfail3 eq_refl) as (Hlen & r1 & r2 & r3 & Htr3 & Hcount3).
  split; [exact Hlen |].
  exists (evs1 ++ evs2), (allocation_base l2), r1, r2, r3. cbv zeta. split_and!.
  - rewrite Htr3, Htr2, Htr1, <- !app_assoc. reflexivity.
  - exact Hbase.
  - rewrite pages_obtained_app, Hpg1, (Hpg2 eq_refl). reflexivity.
  - apply in_or_app. right. exact Hin.
  - rewrite attempts_app, Hhb1, Hhb2. reflexivity.
  - rewrite attempts_app, Hcm1, Hcm2. reflexivity.
  - rewrite statuses_app, Hst1, Hst2. reflexivity.
  - rewrite Hcount3, release_all_total by exact Hc2.
    rewrite Hcount2, Hcount1, to_uint64_sub_idemp, to_uint64_sub2.
    f_equal. rewrite released_by_app, !total_app. subst rs. lia.
Qed.

(** X5.  A managed allocation that returns has recorded exactly one
    allocation result: success when a store is returned and no attempt had
    to be repeated, success-after-retry when a store is returned after a
    reclamation request, the address-space-limit failure when nothing is
    returned and no pages were ever requested, the other failure when
    nothing is returned after page requests.  An allocation that aborts has
    recorded none. *)
Theorem allocation_result_recorded cfg isolate initial_pages maximum_pages shared
    (w : @World P) :
  exists w' evs,
    final_world (TryAllocateWasmMemory cfg isolate initial_pages maximum_pages shared w)
      = Some w' /\
    trace w' = trace w ++ evs /\
    statuses evs =
      match TryAllocateWasmMemory cfg isolate initial_pages maximum_pages shared w with
      | Returned (Some _) _ => [if retried evs then kSuccessAfterRetry else kSuccess]
      | Returned None _ =>
          [if Nat.eqb (attempts is_pages_attempt evs) 0
           then kAddressSpaceLimitReachedFailure else kOtherFailure]
      | _ => []
      end.
Proof.
  destruct (TryAllocateWasmMemory cfg isolate initial_pages maximum_pages shared w)
    as [r w1 | w1 |] eqn:H0;
  unfold TryAllocateWasmMemory in H0; run_in H0;
  destruct (FLAG_correctness_fuzzer_suppressions cfg);
  destruct (to_size_t (target_arch cfg) (initial_pages * kWasmPageSize cfg) =? 0) eqn:Hlen;
  repeat oracle_step H0; try discriminate H0.
  all: destruct shared; cbn in H0; inversion H0; subst; clear H0.
  all: eexists; eexists; split; [reflexivity |].
  all: cbn [trace emit set_platform set_reserved set_list_nodes];
       rewrite <- ?app_assoc; cbn [app].
  all: split; reflexivity.
Qed.

(** A managed allocation that returns nothing. *)
Lemma TryAllocateWasmMemory_None cfg isolate initial_pages maximum_pages shared
    (w : @World P) w' :
  0 <= reserved_address_space_ w < 2 ^ 64 ->
  TryAllocateWasmMemory cfg isolate initial_pages maximum_pages shared w
    = Returned None w' ->
  exists evs,
    trace w' = trace w ++ evs /\
    reserved_address_space_ w' =
      to_uint64 (reserved_address_space_ w - total (released_by evs)) /\
    pages_obtained evs = [] /\
    (statuses evs = [kAddressSpaceLimitReachedFailure] \/ statuses evs = [kOtherFailure]).
Proof.
  intros Hc Hrun. unfold TryAllocateWasmMemory in Hrun.
  set (rs := reservation_size_for cfg maximum_pages) in *.
  destruct (gc_retry isolate (reserve_memory_space cfg rs)
              {| did_retry := false; allocation_base := 0 |} w)
    as [[ok1 l1] w1 | w1 |] eqn:E1;
    [ | unfold bind in Hrun; rewrite E1 in Hrun; discriminate Hrun
      | unfold bind in Hrun; rewrite E1 in Hrun; discriminate Hrun ].
  rewrite (bind_Returned _ _ _ _ _ E1) in Hrun.
  destruct (gc_retry_reserve_counter _ _ _ _ _ _ _ _ Hc
              (reservation_size_for_nonneg cfg maximum_pages) E1)
    as (evs1 & Htr1 & Hc1 & Hcount1).
  destruct (reserve_phase _ _ _ _ _ _ _ _ E1)
    as (evs1' & Htr1' & Hst1 & Hpg1 & _ & _ & Hln1).
  assert (evs1' = evs1) as -> by (eapply app_inv_head; rewrite <- Htr1', Htr1; reflexivity).
  destruct ok1; cbn [negb] in Hrun.
  - destruct (gc_retry isolate (allocate_pages cfg rs) l1 w1)
      as [[ok2 l2] w2 | w2 |] eqn:E2;
      [ | unfold bind in Hrun; rewrite E2 in Hrun; discriminate Hrun
        | unfold bind in Hrun; rewrite E2 in Hrun; discriminate Hrun ].
    rewrite (bind_Returned _ _ _ _ _ E2) in Hrun.
    destruct (pages_phase _ _ _ _ _ _ _ _ Hc1 E2)
      as (evs2 & Htr2 & Hc2 & Hcount2 & Hst2 & _ & _ & Hpg2 & Hln2).
    destruct ok2; cbn [negb] in Hrun.
    + exfalso. unfold bind in Hrun.
      destruct (gc_retry isolate _ l2 w2) as [[[] l3] w3 | w3 |]; try discriminate Hrun.
      cbn in Hrun. destruct (is_kShared shared); discriminate Hrun.
    + cbn in Hrun. injection Hrun as <-.
      exists (evs1 ++ evs2 ++ [EvReleaseReservation rs; EvRecordStatus isolate kOtherFailure]).
      split_and!.
      * cbn. rewrite Htr2, Htr1, <- !app_assoc. reflexivity.
      * cbn. rewrite Hcount2, Hcount1. unfold ReleaseReservation.
        rewrite to_uint64_sub_idemp, <- Z.sub_add_distr, to_uint64_sub_idemp.
        rewrite !released_by_app, !total_app. cbn. f_equal. fold rs. lia.
      * rewrite !pages_obtained_app, Hpg1, (Hpg2 eq_refl). reflexivity.
      * right. rewrite !statuses_app, Hst1, Hst2. reflexivity.
  - destruct (FLAG_correctness_fuzzer_suppressions cfg); [discriminate Hrun |].
    cbn in Hrun. injection Hrun as <-.
    exists (evs1 ++ [EvRecordStatus isolate kAddressSpaceLimitReachedFailure]).
    split_and!.
    + cbn. rewrite Htr1, <- !app_assoc. reflexivity.
    + cbn. rewrite Hcount1. rewrite !released_by_app, !total_app. cbn.
      f_equal. lia.
    + rewrite !pages_obtained_app, Hpg1. reflexivity.
    + left. rewrite !statuses_app, Hst1. reflexivity.
Qed.

(** X6.  When the allocation entry point returns nothing, no reservation
    and no pages are left behind: the counter is its prior value less what
    collections released, every page request came back empty, and at most
    two results were recorded, one for each attempt made, all of them
    failures. *)
Theorem failed_allocation_leaves_nothing cfg isolate initial_pages maximum_pages shared
    (w : @World P) w' :
  0 <= reserved_address_space_ w < 2 ^ 64 ->
  AllocateWasmMemory cfg isolate initial_pages maximum_pages shared w = Returned None w' ->
  exists evs,
    trace w' = trace w ++ evs /\
    reserved_address_space_ w' =
      to_uint64 (reserved_address_space_ w - total (released_by evs)) /\
    pages_obtained evs = [] /\
    (length (statuses evs) <= 2)%nat /\
    Forall (fun s => s = kAddressSpaceLimitReachedFailure \/ s = kOtherFailure)
      (statuses evs).
Proof.
  intros Hc Hrun. unfold AllocateWasmMemory in Hrun.
  destruct (kV8MaxWasmMemoryPages cfg <? initial_pages).
  { injection Hrun as <-. exists []. rewrite app_nil_r. cbn.
    split_and!; try reflexivity; [| lia | apply List.Forall_nil].
    rewrite Z.sub_0_r. symmetry. apply to_uint64_small. exact Hc. }
  unfold bind in Hrun.
  destruct (TryAllocateWasmMemory cfg isolate initial_pages maximum_pages shared w)
    as [[bs1 |] w1 | w1 |] eqn:E1; try discriminate Hrun.
  destruct (TryAllocateWasmMemory_None _ _ _ _ _ _ _ Hc E1)
    as (evs1 & Htr1 & Hcount1 & Hpg1 & Hst1).
  destruct (initial_pages <? maximum_pages).
  - assert (Hc1 : 0 <= reserved_address_space_ w1 < 2 ^ 64)
      by (rewrite Hcount1; apply to_uint64_range).
    destruct (TryAllocateWasmMemory_None _ _ _ _ _ _ _ Hc1 Hrun)
      as (evs2 & Htr2 & Hcount2 & Hpg2 & Hst2).
    exists (evs1 ++ evs2). split_and!.
    + rewrite Htr2, Htr1, <- app_assoc. reflexivity.
    + rewrite Hcount2, Hcount1, to_uint64_sub_idemp, released_by_app, total_app.
      f_equal. lia.
    + rewrite pages_obtained_app, Hpg1, Hpg2. reflexivity.
    + rewrite statuses_app, length_app.
      destruct Hst1 as [-> | ->], Hst2 as [-> | ->]; cbn; lia.
    + rewrite statuses_app. apply Forall_app.
      destruct Hst1 as [-> | ->], Hst2 as [-> | ->]; split;
        apply List.Forall_cons; auto using List.Forall_nil.
  - injection Hrun as <-. exists evs1. split_and!; try assumption.
    + destruct Hst1 as [-> | ->]; cbn; lia.
    + destruct Hst1 as [-> | ->]; apply List.Forall_cons; auto using List.Forall_nil.
Qed.

End ManagedLife.

Lemma retrying_world_counter : 0 <= reserved_address_space_ retrying_world < 2 ^ 64.
Proof. vm_compute. split; congruence. Defined.

Lemma successful_allocation_witness :
  exists bs w' evs base,
    TryAllocateWasmMemory x64_build 0%nat 1 10 kShared retrying_world
      = Returned (Some bs) w' /\
    trace w' = trace retrying_world ++ evs /\
    pages_obtained evs = [base] /\
    buffer_start_ bs = to_size_t Arch64 (base + guard_offset Arch64) /\
    reserved_address_space_ w' =
      to_uint64 (2 * kFullGuardSize + kFullGuardSize - total (released_by evs)).
Proof.
  eassert (Hrun : TryAllocateWasmMemory x64_build 0%nat 1 10 kShared retrying_world
                  = Returned (Some _) _) by (vm_compute; reflexivity).
  destruct (successful_allocation _ _ _ _ _ _ _ _ retrying_world_counter Hrun)
    as (evs & base & Htr & Hpg & _ & _ & Hstart & _ & Hcount).
  do 4 eexists. split; [exact Hrun |]. split; [exact Htr |]. split; [exact Hpg |].
  split; [exact Hstart | exact Hcount].
Defined.

Lemma allocate_then_destroy_witness :
  exists bs w' w'',
    TryAllocateWasmMemory x64_build 0%nat 1 10 kShared retrying_world
      = Returned (Some bs) w' /\
    destroy bs w' = Returned tt w'' /\
    list_nodes w'' = list_nodes retrying_world.
Proof.
  eassert (Hrun : TryAllocateWasmMemory x64_build 0%nat 1 10 kShared retrying_world
                  = Returned (Some _) _) by (vm_compute; reflexivity).
  destruct (allocate_then_destroy _ _ _ _ _ _ _ _ retrying_world_counter Hrun)
    as (evs & base & Htr & Hpg & Hdestroy).
  - vm_compute. congruence.
  - cbn in Htr. subst evs. vm_compute in Hpg. injection Hpg as <-.
    destruct Hdestroy as (Hfreed & _).
    + vm_compute. congruence.
    + vm_compute. reflexivity.
    + edestruct Hfreed as (w'' & Hd & _ & _ & Hnodes).
      * vm_compute. reflexivity.
      * do 3 eexists. split; [exact Hrun |]. split; [exact Hd | exact Hnodes].
Defined.

Lemma failed_allocation_leaves_nothing_witness :
  exists w' evs,
    AllocateWasmMemory x64_build 0%nat 1 10 kNotShared full_world = Returned None w' /\
    trace w' = trace full_world ++ evs /\
    pages_obtained evs = [] /\
    statuses evs = [kAddressSpaceLimitReachedFailure; kAddressSpaceLimitReachedFailure].
Proof.
  assert (Hc : 0 <= reserved_address_space_ full_world < 2 ^ 64)
    by (vm_compute; split; congruence).
  eassert (Hrun : AllocateWasmMemory x64_build 0%nat 1 10 kNotShared full_world
                  = Returned None _) by (vm_compute; reflexivity).
  destruct (failed_allocation_leaves_nothing _ _ _ _ _ _ _ Hc Hrun)
    as (evs & Htr & _ & Hpg & _).
  do 2 eexists. split; [exact Hrun |]. split; [exact Htr |]. split; [exact Hpg |].
  cbn in Htr. subst evs. reflexivity.
Defined.

Lemma grow_then_destroy_witness :
  exists bs w1 bs' w2 w3,
    TryAllocateWasmMemory x64_build 0%nat 1 10 kShared (fresh_world 0 (obliging (4 * GB)))
      = Returned (Some bs) w1 /\
    GrowWasmMemoryInPlace 0%nat 131072 bs w1 = Returned (true, bs') w2 /\
    byte_length_ bs' = 131072 /\
    destroy bs' w2 = Returned tt w3 /\
    reserved_address_space_ w3 = 0 /\
    list_nodes w3 = ∅.
Proof.
  assert (Hc : 0 <= reserved_address_space_ (fresh_world 0 (obliging (4 * GB))) < 2 ^ 64)
    by (vm_compute; split; congruence).
  eassert (Hrun : TryAllocateWasmMemory x64_build 0%nat 1 10 kShared
                    (fresh_world 0 (obliging (4 * GB)))
                  = Returned (Some _) _) by (vm_compute; reflexivity).
  match type of Hrun with
  | _ = Returned (Some ?bs) ?w1 =>
      eassert (Hgrow : GrowWasmMemoryInPlace 0%nat 131072 bs w1 = Returned (true, _) _)
        by (vm_compute; reflexivity)
  end.
  destruct (grow_then_destroy _ _ _ _ _ _ _ _ _ _ _ _ _ Hc Hrun Hgrow)
    as (evs & base & Htr & Hpg & Hdestroy).
  - vm_compute. congruence.
  - cbn in Htr. subst evs. vm_compute in Hpg. injection Hpg as <-.
    edestruct Hdestroy as (w3 & Hd & _ & Hcount & Hnodes).
    + vm_compute. congruence.
    + vm_compute. reflexivity.
    + vm_compute. reflexivity.
    + do 5 eexists. split; [exact Hrun |]. split; [exact Hgrow |].
      split; [reflexivity |]. split; [exact Hd |]. split; [exact Hcount | exact Hnodes].
Defined.

Lemma allocation_abort_causes_witness :
  exists w' base,
    TryAllocateWasmMemory x64_build 0%nat 1 10 kNotShared (fresh_world 0 refusing)
      = Fatal w' /\
    base <> 0 /\
    trace w' =
      [EvReserveAddressSpace kFullGuardSize true;
       EvAllocatePages kFullGuardSize 65536 kNoAccess (4 * GB);
       EvSetPermissions (6 * GB) 65536 kReadWrite false; EvMemoryPressure 0%nat [];
       EvSetPermissions (6 * GB) 65536 kReadWrite false; EvMemoryPressure 0%nat [];
       EvSetPermissions (6 * GB) 65536 kReadWrite false; EvMemoryPressure 0%nat []] /\
    reserved_address_space_ w' = kFullGuardSize.
Proof.
  assert (Hc : 0 <= reserved_address_space_ (fresh_world 0 refusing) < 2 ^ 64)
    by (vm_compute; split; congruence).
  eassert (Hrun : TryAllocateWasmMemory x64_build 0%nat 1 10 kNotShared
                    (fresh_world 0 refusing) = Fatal _) by (vm_compute; reflexivity).
  destruct (allocation_abort_causes x64_build 0%nat 1 10 kNotShared
              (fresh_world 0 refusing) _ Hc Hrun)
    as [(Hflag & _) | (_ & evs & base & r1 & r2 & r3 & _ & Hbase & _)].
  - discriminate Hflag.
  - eexists. exists base. split; [exact Hrun |]. split; [exact Hbase |].
    split; vm_compute; reflexivity.
Defined.

(** * Further properties: destruction *)

Section Destruction.
Context {P : Type} `{!Platform P}.

Lemma keeps_registry_bind {A B} (m : @M P A) (k : A -> @M P B) :
  keeps_registry m -> (forall a, keeps_registry (k a)) -> keeps_registry (bind m k).
Proof.
  intros Hm Hk w b w' Hrun. unfold bind in Hrun.
  destruct (m w) as [a w1 | w1 |] eqn:E; try discriminate.
  destruct (Hm _ _ _ E) as [<- <-]. exact (Hk a _ _ _ Hrun).
Qed.

Lemma keeps_registry_ret {A} (a : A) : keeps_registry (P := P) (ret a).
Proof. intros w b w' [= _ <-]. auto. Qed.

Lemma keeps_registry_fatal {A} : keeps_registry (P := P) (@fatal P A).
Proof. intros w b w' Hrun. discriminate Hrun. Qed.

Lemma keeps_registry_delete_list fuel :
  forall node, keeps_registry (P := P) (delete_list fuel node).
Proof.
  induction fuel as [| fuel IH]; intros [p |]; cbn [delete_list];
    try apply keeps_registry_ret; try (intros w a w' Hrun; discriminate Hrun).
  apply keeps_registry_bind.
  - intros w a w' Hrun. unfold node_at in Hrun.
    destruct (list_nodes w !! p); [injection Hrun as _ <-; auto | discriminate].
  - intros d. apply keeps_registry_bind; [| intros _; apply IH].
    intros w a w' [= _ <-]. auto.
Qed.

Lemma keeps_registry_get_shared this :
  keeps_registry (P := P) (get_shared_wasm_memory_data this).
Proof.
  unfold get_shared_wasm_memory_data.
  destruct (negb _); [apply keeps_registry_fatal |].
  destruct (type_specific_data_ this);
    first [apply keeps_registry_fatal | apply keeps_registry_ret].
Qed.

Lemma keeps_registry_get_allocator this :
  keeps_registry (P := P) (get_v8_api_array_buffer_allocator this).
Proof.
  unfold get_v8_api_array_buffer_allocator.
  destruct (is_wasm_memory_ this); [apply keeps_registry_fatal |].
  destruct (type_specific_data_ this);
    first [apply keeps_registry_fatal | apply keeps_registry_ret].
Qed.

Lemma keeps_registry_FreePages a s : keeps_registry (P := P) (do_FreePages a s).
Proof.
  intros w b w' Hrun. unfold do_FreePages in Hrun.
  destruct (FreePages a s (platform w)). injection Hrun as _ <-. auto.
Qed.

Lemma keeps_registry_ReleaseReservation n :
  keeps_registry (P := P) (do_ReleaseReservation n).
Proof. intros w b w' [= _ <-]. auto. Qed.

(** The destructor of a registered store is the destructor of the store
    taken out of the registry. *)
Lemma destroy_registered this (w : @World P) :
  globally_registered_ this = true ->
  destroy this w =
  destroy (set_globally_registered false this)
    (set_map (delete (buffer_start_ this) (map_ w)) w).
Proof.
  intros Hreg. unfold destroy. unfold bind at 1 3. unfold Unregister.
  rewrite Hreg. cbn [negb globally_registered_ set_globally_registered ret].
  destruct (map_ w !! buffer_start_ this) eqn:E; [reflexivity |].
  rewrite (delete_id _ _ E). reflexivity.
Qed.

Lemma destroy_unregistered_keeps_registry this :
  globally_registered_ this = false -> keeps_registry (P := P) (destroy this).
Proof.
  intros Hreg. unfold destroy. rewrite Hreg.
  apply keeps_registry_bind; [apply keeps_registry_ret |]. intros [[] this'].
  destruct (buffer_start_ this' =? 0); [apply keeps_registry_ret |].
  destruct (is_wasm_memory_ this').
  - apply keeps_registry_bind.
    + destruct (is_shared_ this'); [| apply keeps_registry_ret].
      apply keeps_registry_bind; [apply keeps_registry_get_shared |].
      intros node w a w' Hrun.
      exact (keeps_registry_delete_list _ _ _ _ _ Hrun).
    + intros _. cbv zeta. apply keeps_registry_bind.
      * destruct (region_size _ =? 0);
          [apply keeps_registry_ret | apply keeps_registry_FreePages].
      * intros []; cbn [negb];
          [apply keeps_registry_ReleaseReservation | apply keeps_registry_fatal].
  - destruct (free_on_destruct_ this'); [| apply keeps_registry_ret].
    apply keeps_registry_bind; [apply keeps_registry_get_allocator |].
    intros _ w a w' [= _ <-]. auto.
Qed.

(** What the destructor does to the stores and the registry: nothing but
    the removal of its own entry. *)
Lemma destroy_registry this (w : @World P) w' :
  destroy this w = Returned tt w' ->
  backing_stores w' = backing_stores w /\
  map_ w' = if globally_registered_ this
            then delete (buffer_start_ this) (map_ w) else map_ w.
Proof.
  destruct (globally_registered_ this) eqn:Hreg.
  - rewrite destroy_registered by exact Hreg. intros Hrun.
    apply destroy_unregistered_keeps_registry in Hrun; [exact Hrun | reflexivity].
  - apply destroy_unregistered_keeps_registry. exact Hreg.
Qed.

(** The registry stays consistent when a store goes. *)
Lemma registry_ok_after_destruction (w w' : @World P) p this :
  registry_ok w -> backing_stores w !! p = Some this ->
  backing_stores w' = delete p (backing_stores w) ->
  map_ w' = (if globally_registered_ this
             then delete (buffer_start_ this) (map_ w) else map_ w) ->
  registry_ok w'.
Proof.
  intros [Hmap Hreg] Hlive Hstores Hentries. split.
  - intros a q Hq. rewrite Hentries in Hq. rewrite Hstores.
    destruct (globally_registered_ this) eqn:Hflag.
    + apply lookup_delete_Some in Hq as [Hne Hq].
      destruct (Hmap a q Hq) as (bs & Hbs & Hstart & Hflag').
      exists bs. rewrite lookup_delete_ne; [auto |].
      intros <-. congruence.
    + destruct (Hmap a q Hq) as (bs & Hbs & Hstart & Hflag').
      exists bs. rewrite lookup_delete_ne; [auto |].
      intros <-. congruence.
  - intros q bs Hq Hflag'. rewrite Hstores in Hq. rewrite Hentries.
    apply lookup_delete_Some in Hq as [Hne Hq].
    pose proof (Hreg q bs Hq Hflag') as Hentry.
    destruct (globally_registered_ this) eqn:Hflag; [| exact Hentry].
    rewrite lookup_delete_ne; [exact Hentry |].
    intros Heq. pose proof (Hreg p this Hlive Hflag) as Hentry'.
    rewrite Heq in Hentry'. congruence.
Qed.

(** X7.  When the last reference to a live store of a consistent registry
    goes and its destructor completes, the store is gone from the heap and
    from the registry, the registry is consistent again, looking up the
    start address of a store that was registered finds nothing, and every
    other lookup answers as before. *)
Theorem destruction_keeps_registry (w w' : @World P) (p : positive)
    (this : BackingStore) :
  registry_ok w -> backing_stores w !! p = Some this ->
  delete_store p w = Returned tt w' ->
  registry_ok w' /\
  backing_stores w' = delete p (backing_stores w) /\
  (globally_registered_ this = true ->
   forall len, Lookup (buffer_start_ this) len w' = Returned None w') /\
  (forall a len r,
     (globally_registered_ this = true -> a <> buffer_start_ this) ->
     Lookup a len w = Returned r w -> Lookup a len w' = Returned r w').
Proof.
  intros Hok Hlive Hrun. unfold delete_store in Hrun. rewrite Hlive in Hrun.
  destruct (destroy this w) as [[] w1 | w1 |] eqn:Hd; try discriminate.
  injection Hrun as <-.
  destruct (destroy_registry _ _ _ Hd) as [Hstores Hentries].
  assert (Hstores' : backing_stores
            (set_backing_stores (delete p (backing_stores w1)) w1) =
          delete p (backing_stores w)) by (cbn; rewrite Hstores; reflexivity).
  assert (Hentries' : map_ (set_backing_stores (delete p (backing_stores w1)) w1) =
          (if globally_registered_ this
           then delete (buffer_start_ this) (map_ w) else map_ w))
    by (cbn; exact Hentries).
  split_and!.
  - eapply registry_ok_after_destruction; eassumption.
  - exact Hstores'.
  - intros Hflag len. unfold Lookup. rewrite Hentries', Hflag, lookup_delete_eq.
    reflexivity.
  - intros a len r Hother Hfound. unfold Lookup in *. rewrite Hentries'.
    assert (Hsame : (if globally_registered_ this
                     then delete (buffer_start_ this) (map_ w) else map_ w) !! a =
                    map_ w !! a).
    { destruct (globally_registered_ this); [| reflexivity].
      apply lookup_delete_ne. intros Heq. exact (Hother eq_refl (eq_sym Heq)). }
    rewrite Hsame. destruct (map_ w !! a) as [q |] eqn:Hq.
    + injection Hfound as <-. f_equal. unfold lock. rewrite Hstores'.
      destruct Hok as [Hmap Hreg].
      destruct (Hmap a q Hq) as (bs & Hbs & Hstart & Hflag').
      rewrite Hbs, lookup_delete_ne; [rewrite Hbs; reflexivity |].
      intros <-. assert (bs = this) by congruence. subst bs.
      exact (Hother Hflag' (eq_sym Hstart)).
    + injection Hfound as <-. reflexivity.
Qed.

(** ** The attachment list of a shared store *)

Lemma lookup_remove_all ks : forall h p,
  remove_all ks h !! p = if bool_decide (p ∈ ks) then None else h !! p.
Proof.
  induction ks as [| k ks IH]; intros h p; cbn.
  - rewrite bool_decide_eq_false_2 by apply not_elem_of_nil. reflexivity.
  - unfold remove_all in IH. rewrite IH.
    destruct (decide (p ∈ ks)) as [Hin | Hout].
    + rewrite !bool_decide_eq_true_2; [reflexivity | | exact Hin].
      apply list_elem_of_further. exact Hin.
    + rewrite (bool_decide_eq_false_2 (p ∈ ks)) by exact Hout.
      destruct (decide (p = k)) as [-> | Hne].
      * rewrite bool_decide_eq_true_2 by apply list_elem_of_here.
        apply lookup_delete_eq.
      * rewrite bool_decide_eq_false_2.
        -- apply lookup_delete_ne. congruence.
        -- intros Hin. apply elem_of_cons in Hin as [-> | Hin]; contradiction.
Qed.

Lemma lseg_delete h o l p :
  lseg h o l -> p ∉ l.*1 -> lseg (delete p h) o l.
Proof.
  intros Hl. induction Hl as [| q d l Hq Hrest IH]; intros Hout; constructor.
  - rewrite lookup_delete_ne; [exact Hq |].
    intros ->. apply Hout. apply list_elem_of_here.
  - apply IH. intros Hin. apply Hout. apply list_elem_of_further. exact Hin.
Qed.

(** The loop of the destructor deletes the nodes of the list, all of
    them and in order, within its bound. *)
Lemma delete_list_lseg l : forall o fuel (w : @World P),
  lseg (list_nodes w) o l -> (length l <= fuel)%nat ->
  delete_list (S fuel) o w =
  Returned tt (set_list_nodes (remove_all l.*1 (list_nodes w)) w).
Proof.
  induction l as [| [p d] l IH]; intros o fuel w Hl Hfuel.
  - inversion Hl; subst. cbn. destruct w; reflexivity.
  - pose proof (lseg_NoDup _ _ _ Hl) as Hnd.
    inversion Hl as [| p' d' l' Hp Hrest]; subst.
    destruct fuel as [| fuel]; [cbn in Hfuel; lia |].
    change (delete_list (S (S fuel)) (Some p) w)
      with (bind (node_at p)
              (fun d => bind (delete_node p) (fun _ => delete_list (S fuel) (next_ d))) w).
    unfold bind, node_at, delete_node. rewrite Hp.
    rewrite IH.
    + reflexivity.
    + cbn. apply lseg_delete; [exact Hrest |].
      cbn in Hnd. apply NoDup_cons in Hnd as [Hout _]. exact Hout.
    + cbn in Hfuel. lia.
Qed.

(** X8.  The destructor of a shared managed store that is not registered
    deletes every node of its attachment list, the anchor included, and no
    other node; it never runs out of rounds; and once the platform has
    freed the region it releases the store's reservation and returns. *)
Theorem shared_store_destruction (w : @World P) (this : BackingStore)
    (anchor : positive) (l : list (positive * SharedWasmMemoryData))
    (platform' : P) :
  globally_registered_ this = false -> buffer_start_ this <> 0 ->
  is_wasm_memory_ this = true -> is_shared_ this = true ->
  type_specific_data_ this = shared_wasm_memory_data anchor ->
  lseg (list_nodes w) (Some anchor) l ->
  region_size (region_of this) <> 0 ->
  FreePages (region_begin (region_of this)) (region_size (region_of this))
    (platform w) = (true, platform') ->
  exists w',
    destroy this w = Returned tt w' /\
    (forall p, p ∈ l.*1 -> list_nodes w' !! p = None) /\
    (forall p, p ∉ l.*1 -> list_nodes w' !! p = list_nodes w !! p) /\
    reserved_address_space_ w' =
      ReleaseReservation (reservation_of this) (reserved_address_space_ w) /\
    trace w' = trace w ++
      [EvFreePages (region_begin (region_of this)) (region_size (region_of this)) true;
       EvReleaseReservation (reservation_of this)].
Proof.
  intros Hreg Hstart Hwasm Hshared Hdata Hl Hsize Hfree.
  pose proof (lseg_length _ _ _ Hl) as Hlen.
  eexists. split.
  - unfold destroy. rewrite Hreg. unfold bind at 1. cbn [ret].
    rewrite (proj2 (Z.eqb_neq _ _) Hstart), Hwasm, Hshared.
    unfold get_shared_wasm_memory_data. rewrite Hwasm, Hshared, Hdata.
    cbn [andb negb]. unfold bind at 1. unfold bind at 1. cbn [ret].
    rewrite (delete_list_lseg l) by assumption.
    fold (region_of this). fold (reservation_of this). cbv zeta.
    rewrite (proj2 (Z.eqb_neq _ _) Hsize).
    unfold bind, do_FreePages. cbn [platform set_list_nodes].
    rewrite Hfree. cbn [negb]. unfold do_ReleaseReservation. reflexivity.
  - cbn. split_and!.
    + intros p Hin. rewrite lookup_remove_all, bool_decide_eq_true_2 by exact Hin.
      reflexivity.
    + intros p Hout. rewrite lookup_remove_all, bool_decide_eq_false_2 by exact Hout.
      reflexivity.
    + reflexivity.
    + rewrite <- app_assoc. reflexivity.
Qed.

(** X9.  A wrapper of external memory is destroyed without touching the
    platform or the reservation counter: one that owns a region at a
    non-null address hands exactly that region back to the embedder's
    allocator, once; one that does not own its memory, or wraps the null
    address, leaves the process as it was. *)
Theorem wrapper_destruction (w : @World P) (isolate : Isolate)
    (allocation_base allocation_length : Z) (shared : SharedFlag)
    (free_on_destruct : bool) :
  exists bs,
    WrapAllocation isolate allocation_base allocation_length shared free_on_destruct w
      = Returned bs w /\
    destroy bs w =
      Returned tt
        (if negb (allocation_base =? 0) && free_on_destruct
         then emit (EvAllocatorFree allocation_base allocation_length) w
         else w).
Proof.
  eexists. split; [reflexivity |].
  unfold destroy, bind. cbn.
  destruct (allocation_base =? 0); [reflexivity |].
  destruct free_on_destruct; reflexivity.
Qed.

End Destruction.

Lemma registered_world_ok : registry_ok registered_world.
Proof.
  split.
  - intros a p Hp. cbn in Hp.
    destruct (decide (a = 8192)) as [-> | Hne].
    + rewrite lookup_insert_eq in Hp. injection Hp as <-.
      eexists. split; [vm_compute; reflexivity |]. split; reflexivity.
    + rewrite lookup_insert_ne in Hp by congruence. discriminate Hp.
  - intros p bs Hp Hflag. cbn in Hp.
    destruct (decide (p = 1%positive)) as [-> | H1].
    + rewrite lookup_insert_eq in Hp. injection Hp as <-. reflexivity.
    + rewrite lookup_insert_ne in Hp by congruence.
      destruct (decide (p = 2%positive)) as [-> | H2].
      * rewrite lookup_insert_eq in Hp. injection Hp as <-. discriminate Hflag.
      * rewrite lookup_insert_ne in Hp by congruence. discriminate Hp.
Defined.

Lemma destruction_keeps_registry_witness :
  exists w',
    delete_store 1%positive registered_world = Returned tt w' /\
    registry_ok w' /\
    backing_stores w' !! 1%positive = None /\
    Lookup 8192 4096 w' = Returned None w'.
Proof.
  eexists. split; [vm_compute; reflexivity |].
  destruct (destruction_keeps_registry registered_world _ 1%positive
              (set_globally_registered true owned_region) registered_world_ok
              eq_refl eq_refl) as (Hok & Hstores & Hgone & _).
  split; [exact Hok |]. split; [vm_compute; reflexivity |].
  exact (Hgone eq_refl 4096).
Defined.

Lemma detachable_world_list :
  lseg (list_nodes detachable_world) (Some 1%positive) attached_list.
Proof. repeat (constructor; [reflexivity |]). constructor. Defined.

Lemma shared_store_destruction_witness :
  exists w',
    destroy shared_store detachable_world = Returned tt w' /\
    list_nodes w' !! 1%positive = None /\
    list_nodes w' !! 2%positive = None /\
    list_nodes w' !! 3%positive = None /\
    reserved_address_space_ w' = 0.
Proof.
  destruct (shared_store_destruction detachable_world shared_store 1%positive
              attached_list
              {| allocations := [0]; permissions := [true; true; true]; frees := [];
                 collections := [] |}
              eq_refl) as (w' & Hrun & Hgone & _ & Hcount & _).
  - vm_compute. discriminate.
  - reflexivity.
  - reflexivity.
  - reflexivity.
  - exact detachable_world_list.
  - vm_compute. discriminate.
  - vm_compute. reflexivity.
  - exists w'. split; [exact Hrun |]. split_and!.
    + apply Hgone. cbn. apply list_elem_of_here.
    + apply Hgone. cbn. do 2 apply list_elem_of_further. apply list_elem_of_here.
    + apply Hgone. cbn. apply list_elem_of_further. apply list_elem_of_here.
    + rewrite Hcount. vm_compute. reflexivity.
Defined.

(** * Further properties: stores allocated by the embedder *)

Section EmbedderAllocation.
Context {P : Type} `{!Platform P} `{!ArrayBufferAllocator P}.

Lemma to_int_small z : 0 <= z < 2 ^ 31 -> to_int z = z.
Proof.
  intros Hz. unfold to_int. rewrite Z.mod_small; lia.
Qed.

(** X10.  [Allocate] always returns.  It changes nothing of the process but
    the state of the embedder's allocator: no pages are requested, the
    reservation counter and the registry are as before.  A store it
    returns owns its memory, is no wasm memory, has no guard regions, is
    not registered, its length and capacity are the length asked for, and
    its start is null exactly when that length is zero; an empty result is
    returned only for a non-zero length, with a failure sample added
    last. *)
Theorem embedder_allocation (w : @World P) (isolate : Isolate) (byte_length : Z)
    (shared : SharedFlag) (initialized : InitializedFlag) :
  exists samples r w',
    Allocate isolate byte_length shared initialized w = Returned (samples, r) w' /\
    trace w' = trace w /\
    reserved_address_space_ w' = reserved_address_space_ w /\
    backing_stores w' = backing_stores w /\ map_ w' = map_ w /\
    list_nodes w' = list_nodes w /\
    (byte_length = 0 -> w' = w /\ samples = [] /\ r <> None) /\
    match r with
    | Some bs =>
        byte_length_ bs = byte_length /\ byte_capacity_ bs = byte_length /\
        (buffer_start_ bs = 0 <-> byte_length = 0) /\
        is_shared_ bs = is_kShared shared /\ is_wasm_memory_ bs = false /\
        free_on_destruct_ bs = true /\ has_guard_regions_ bs = false /\
        globally_registered_ bs = false /\
        type_specific_data_ bs =
          v8_api_array_buffer_allocator (array_buffer_allocator isolate) /\
        forall mb, array_buffer_new_size_failures mb ∉ samples
    | None =>
        byte_length <> 0 /\
        last samples = Some (array_buffer_new_size_failures (to_int (byte_length / MB)))
    end.
Proof.
  unfold Allocate. destruct (byte_length =? 0) eqn:Hzero.
  - apply Z.eqb_eq in Hzero. subst byte_length.
    do 3 eexists. split; [reflexivity |]. cbv zeta. cbn.
    split_and!; try reflexivity.
    + intros _. split_and!; [reflexivity | reflexivity | discriminate].
    + intros mb Hin. inversion Hin.
  - apply Z.eqb_neq in Hzero. cbv zeta.
    destruct (match initialized with
              | kUninitialized => allocator_AllocateUninitialized byte_length (platform w)
              | kZeroInitialized => allocator_Allocate byte_length (platform w)
              end) as [buffer_start p] eqn:Hcall.
    destruct (buffer_start =? 0) eqn:Hnull.
    + do 3 eexists. split; [reflexivity |]. split_and!; try reflexivity.
      * intros Hz. contradiction.
      * exact Hzero.
      * apply last_snoc.
    + apply Z.eqb_neq in Hnull.
      do 3 eexists. split; [reflexivity |]. cbv zeta. split_and!; try reflexivity.
      * intros Hz. contradiction.
      * cbn. split; intros Hz; contradiction.
      * intros mb Hin. apply elem_of_app in Hin as [Hin | Hin].
        -- destruct (0 <? _); [| inversion Hin].
           apply list_elem_of_singleton in Hin. discriminate Hin.
        -- destruct (is_kShared shared); [| inversion Hin].
           apply list_elem_of_singleton in Hin. discriminate Hin.
Qed.

(** X11.  A store obtained from [Allocate] and destroyed at once hands the
    memory it got back to the embedder's allocator, with the start and the
    length of the allocation and in one call; a store of length zero got
    no memory and frees none.  The platform and the reservation counter
    are not involved. *)
Theorem embedder_allocation_freed (w w' : @World P) (isolate : Isolate)
    (byte_length : Z) (shared : SharedFlag) (initialized : InitializedFlag)
    (samples : list CounterSample) (bs : BackingStore) :
  Allocate isolate byte_length shared initialized w = Returned (samples, Some bs) w' ->
  destroy bs w' =
    Returned tt (if byte_length =? 0 then w'
                 else emit (EvAllocatorFree (buffer_start_ bs) byte_length) w') /\
  (byte_length <> 0 -> buffer_start_ bs <> 0).
Proof.
  unfold Allocate. destruct (byte_length =? 0) eqn:Hzero.
  - intros [= _ <- <-]. split; [reflexivity |].
    apply Z.eqb_eq in Hzero. intros Hne. contradiction.
  - cbv zeta.
    destruct (match initialized with
              | kUninitialized => allocator_AllocateUninitialized byte_length (platform w)
              | kZeroInitialized => allocator_Allocate byte_length (platform w)
              end) as [buffer_start p] eqn:Hcall.
    destruct (buffer_start =? 0) eqn:Hnull; [discriminate |].
    intros [= _ <- <-]. split.
    + unfold destroy, bind. cbn. rewrite Hnull. reflexivity.
    + intros _. cbn. apply Z.eqb_neq. exact Hnull.
Qed.

(** X12.  For a length from one byte up to 2 PiB the cast of the megabyte
    count to [int] loses nothing: [Allocate] samples the big allocations
    exactly when the length is one megabyte or more, the shared
    allocations exactly for a shared store, and the failures exactly when
    it returns no store, each time with the megabytes of the length. *)
Theorem embedder_allocation_samples (w w' : @World P) (isolate : Isolate)
    (byte_length : Z) (shared : SharedFlag) (initialized : InitializedFlag)
    (samples : list CounterSample) (r : option BackingStore) :
  0 < byte_length < 2 ^ 31 * MB ->
  Allocate isolate byte_length shared initialized w = Returned (samples, r) w' ->
  samples =
    (if MB <=? byte_length then [array_buffer_big_allocations (byte_length / MB)] else []) ++
    (if is_kShared shared then [shared_array_allocations (byte_length / MB)] else []) ++
    match r with
    | Some _ => []
    | None => [array_buffer_new_size_failures (byte_length / MB)]
    end.
Proof.
  intros Hrange. unfold Allocate.
  rewrite (proj2 (Z.eqb_neq _ _)) by lia. cbv zeta.
  assert (Hmb : 0 <= byte_length / MB < 2 ^ 31).
  { split; [apply Z.div_pos; unfold MB; lia |].
    apply Z.div_lt_upper_bound; unfold MB in *; lia. }
  rewrite (to_int_small _ Hmb).
  assert (Hbig : (0 <? byte_length / MB) = (MB <=? byte_length)).
  { destruct (MB <=? byte_length) eqn:E.
    - apply Z.leb_le in E. apply Z.ltb_lt. apply Z.div_str_pos. unfold MB in *. lia.
    - apply Z.leb_gt in E. apply Z.ltb_ge. rewrite Z.div_small; lia. }
  rewrite Hbig.
  destruct (match initialized with
            | kUninitialized => allocator_AllocateUninitialized byte_length (platform w)
            | kZeroInitialized => allocator_Allocate byte_length (platform w)
            end) as [buffer_start p] eqn:Hcall.
  destruct (buffer_start =? 0); intros [= <- <- _].
  - rewrite <- app_assoc. reflexivity.
  - rewrite app_nil_r. reflexivity.
Qed.

End EmbedderAllocation.

Lemma embedder_allocation_freed_witness :
  exists bs w',
    Allocate 0%nat 4096 kNotShared kZeroInitialized (fresh_world 0 (obliging 8192))
      = Returned ([], Some bs) w' /\
    destroy bs w' = Returned tt (emit (EvAllocatorFree 8192 4096) w').
Proof.
  eexists. eexists. split; [vm_compute; reflexivity |].
  refine (proj1 (embedder_allocation_freed (fresh_world 0 (obliging 8192)) _ 0%nat 4096
                   kNotShared kZeroInitialized [] _ _)).
  vm_compute. reflexivity.
Defined.

Lemma embedder_allocation_samples_witness :
  exists w',
    Allocate 0%nat (3 * MB) kShared kUninitialized (fresh_world 0 no_answers)
      = Returned ([array_buffer_big_allocations 3; shared_array_allocations 3;
                   array_buffer_new_size_failures 3], None) w'.
Proof.
  assert (Hrun : exists samples w',
            Allocate 0%nat (3 * MB) kShared kUninitialized (fresh_world 0 no_answers)
              = Returned (samples, None) w')
    by (eexists; eexists; vm_compute; reflexivity).
  destruct Hrun as (samples & w' & Hrun). exists w'.
  assert (Hrange : 0 < 3 * MB < 2 ^ 31 * MB) by (vm_compute; split; reflexivity).
  rewrite Hrun.
  rewrite (embedder_allocation_samples _ _ _ _ _ _ _ _ Hrange Hrun).
  reflexivity.
Defined.

(** * Further properties: the registry *)

Section RegistryLookups.
Context {P : Type} `{!Platform P}.

(** X13.  In a consistent registry a lookup changes nothing and finds
    exactly the live stores that are registered under the address asked
    for, whatever length is passed. *)
Theorem lookup_finds_registered_stores (w : @World P) (a len : Z) :
  registry_ok w ->
  exists r,
    Lookup a len w = Returned r w /\
    forall p,
      r = Some p <->
      exists bs, backing_stores w !! p = Some bs /\
                 buffer_start_ bs = a /\ globally_registered_ bs = true.
Proof.
  intros [Hmap Hreg]. unfold Lookup, lock.
  destruct (map_ w !! a) as [q |] eqn:Hq.
  - destruct (Hmap a q Hq) as (bs & Hbs & Hstart & Hflag). rewrite Hbs.
    eexists. split; [reflexivity |]. intros p. split.
    + intros [= <-]. exists bs. auto.
    + intros (bs' & Hbs' & Hstart' & Hflag').
      pose proof (Hreg p bs' Hbs' Hflag') as Hentry.
      rewrite Hstart', Hq in Hentry. exact Hentry.
  - eexists. split; [reflexivity |]. intros p. split; [discriminate |].
    intros (bs' & Hbs' & Hstart' & Hflag').
    pose proof (Hreg p bs' Hbs' Hflag') as Hentry.
    rewrite Hstart', Hq in Hentry. discriminate Hentry.
Qed.

Lemma Lookup_eq (w : @World P) a len :
  Lookup a len w =
  Returned (match map_ w !! a with Some q => lock w q | None => None end) w.
Proof. unfold Lookup. destruct (map_ w !! a); reflexivity. Qed.

Lemma lock_update (w w' : @World P) p bs bs' q :
  backing_stores w !! p = Some bs ->
  backing_stores w' = <[p := bs']> (backing_stores w) ->
  lock w' q = lock w q.
Proof.
  intros Hlive Hstores. unfold lock. rewrite Hstores.
  destruct (decide (q = p)) as [-> | Hqp].
  - rewrite lookup_insert_eq, Hlive. reflexivity.
  - rewrite lookup_insert_ne by congruence. reflexivity.
Qed.

(** X14.  Registering or unregistering a live store leaves the answer of
    every lookup of another address as it was. *)
Theorem registration_is_local (w : @World P) (p : positive) (bs : BackingStore)
    (a len : Z) (r : option positive) :
  backing_stores w !! p = Some bs -> a <> buffer_start_ bs ->
  Lookup a len w = Returned r w ->
  (forall w', Register (Some p) w = Returned tt w' -> Lookup a len w' = Returned r w') /\
  (forall w', on_store p Unregister w = Returned tt w' ->
              Lookup a len w' = Returned r w').
Proof.
  intros Hlive Hne Hfound. rewrite Lookup_eq in Hfound. injection Hfound as <-.
  split; intros w' Hrun; rewrite Lookup_eq; f_equal.
  - unfold Register in Hrun. rewrite Hlive in Hrun.
    destruct (globally_registered_ bs); [injection Hrun as <-; reflexivity |].
    destruct (map_ w !! buffer_start_ bs); [discriminate |].
    injection Hrun as <-. cbn [map_ set_backing_stores set_map].
    rewrite lookup_insert_ne by congruence.
    destruct (map_ w !! a) as [q |]; [| reflexivity].
    eapply lock_update; [exact Hlive | reflexivity].
  - unfold on_store, Unregister in Hrun. rewrite Hlive in Hrun.
    destruct (globally_registered_ bs); cbn [negb ret] in Hrun;
      injection Hrun as <-; cbn [map_ set_backing_stores set_map].
    + assert (Hsame : (match map_ w !! buffer_start_ bs with
                       | Some _ => delete (buffer_start_ bs) (map_ w)
                       | None => map_ w
                       end) !! a = map_ w !! a).
      { destruct (map_ w !! buffer_start_ bs); [| reflexivity].
        apply lookup_delete_ne. congruence. }
      rewrite Hsame.
      destruct (map_ w !! a) as [q |]; [| reflexivity].
      eapply lock_update; [exact Hlive | reflexivity].
    + destruct (map_ w !! a) as [q |]; [| reflexivity].
      eapply lock_update; [exact Hlive | reflexivity].
Qed.

(** X15.  Growing a live store in place, through its pointer, keeps the
    registry consistent and leaves the answer of every lookup as it was:
    the store stays where it is and keeps its registration. *)
Theorem growth_keeps_registry (w w' : @World P) (p : positive) (isolate : Isolate)
    (new_byte_length : Z) (ok : bool) :
  registry_ok w ->
  on_store p (GrowWasmMemoryInPlace isolate new_byte_length) w = Returned ok w' ->
  registry_ok w' /\
  (forall a len r, Lookup a len w = Returned r w -> Lookup a len w' = Returned r w').
Proof.
  intros [Hmap Hreg] Hrun. unfold on_store in Hrun.
  destruct (backing_stores w !! p) as [this |] eqn:Hlive; [| discriminate].
  destruct (GrowWasmMemoryInPlace isolate new_byte_length this w)
    as [[ok' this'] w1 | |] eqn:Hgrow; try discriminate.
  injection Hrun as _ <-.
  destruct (GrowWasmMemoryInPlace_frame _ _ _ _ _ _ _ Hgrow)
    as (_ & _ & Hthis' & Hstores & Hentries).
  assert (Hstart : buffer_start_ this' = buffer_start_ this) by (rewrite Hthis'; reflexivity).
  assert (Hflag : globally_registered_ this' = globally_registered_ this)
    by (rewrite Hthis'; reflexivity).
  split; [split |].
  - intros a q Hq. cbn in Hq |- *. rewrite Hentries in Hq. rewrite Hstores.
    destruct (Hmap a q Hq) as (bs & Hbs & Hs & Hf).
    destruct (decide (q = p)) as [-> | Hqp].
    + exists this'. rewrite lookup_insert_eq. rewrite Hbs in Hlive. injection Hlive as ->.
      split; [reflexivity |]. split; congruence.
    + exists bs. rewrite lookup_insert_ne by congruence. auto.
  - intros q bs Hq Hf. cbn in Hq |- *. rewrite Hstores in Hq. rewrite Hentries.
    destruct (decide (q = p)) as [-> | Hqp].
    + rewrite lookup_insert_eq in Hq. injection Hq as <-. rewrite Hstart.
      apply (Hreg p this Hlive). congruence.
    + rewrite lookup_insert_ne in Hq by congruence. exact (Hreg q bs Hq Hf).
  - intros a len r Hfound. rewrite Lookup_eq in Hfound. injection Hfound as <-.
    rewrite Lookup_eq. f_equal. cbn [map_ set_backing_stores]. rewrite Hentries.
    destruct (map_ w !! a) as [q |]; [| reflexivity].
    eapply lock_update; [exact Hlive |]. cbn. rewrite Hstores. reflexivity.
Qed.

End RegistryLookups.

Lemma lookup_finds_registered_stores_witness :
  exists r,
    Lookup 8192 0 registered_world = Returned r registered_world /\
    (r = Some 1%positive <->
     exists bs, backing_stores registered_world !! 1%positive = Some bs /\
                buffer_start_ bs = 8192 /\ globally_registered_ bs = true).
Proof.
  destruct (lookup_finds_registered_stores registered_world 8192 0 registered_world_ok)
    as (r & Hrun & Hiff).
  exists r. split; [exact Hrun | exact (Hiff 1%positive)].
Defined.

Lemma registration_is_local_witness :
  Register (Some 2%positive) registered_world = Returned tt both_registered /\
  Lookup 8192 4096 registered_world = Returned (Some 1%positive) registered_world /\
  Lookup 8192 4096 both_registered = Returned (Some 1%positive) both_registered.
Proof.
  assert (Hrun : Register (Some 2%positive) registered_world = Returned tt both_registered)
    by reflexivity.
  assert (Hne : 8192 <> buffer_start_ other_region) by (vm_compute; discriminate).
  split; [exact Hrun |]. split; [reflexivity |].
  exact (proj1 (registration_is_local registered_world 2%positive other_region 8192 4096
                  (Some 1%positive) eq_refl Hne eq_refl) both_registered Hrun).
Defined.

Lemma growable_world_ok : registry_ok growable_world.
Proof.
  split.
  - intros a p Hp. cbn in Hp.
    destruct (decide (a = 6 * GB)) as [-> | Hne].
    + rewrite lookup_insert_eq in Hp. injection Hp as <-.
      eexists. split; [vm_compute; reflexivity |]. split; reflexivity.
    + rewrite lookup_insert_ne in Hp by congruence. discriminate Hp.
  - intros p bs Hp Hflag. cbn in Hp.
    destruct (decide (p = 1%positive)) as [-> | H1].
    + rewrite lookup_insert_eq in Hp. injection Hp as <-. reflexivity.
    + rewrite lookup_insert_ne in Hp by congruence. discriminate Hp.
Defined.

Lemma growth_keeps_registry_witness :
  exists w',
    on_store 1%positive (GrowWasmMemoryInPlace 0%nat 196608) growable_world
      = Returned true w' /\
    registry_ok w' /\
    Lookup (6 * GB) 0 w' = Returned (Some 1%positive) w'.
Proof.
  eassert (Hrun : on_store 1%positive (GrowWasmMemoryInPlace 0%nat 196608) growable_world
                  = Returned true _) by (vm_compute; reflexivity).
  destruct (growth_keeps_registry growable_world _ 1%positive 0%nat 196608 true
              growable_world_ok Hrun) as (Hok & Hsame).
  eexists. split; [exact Hrun |]. split; [exact Hok |].
  apply Hsame. reflexivity.
Defined.

(** * Further properties: the attachment lists *)

Section AttachmentLists.
Context {P : Type} `{!Platform P}.

Lemma dll_lseg h prev o ks :
  dll h prev o ks -> exists l, lseg h o l /\ l.*1 = ks.
Proof.
  intros Hl. induction Hl as [prev | prev p d ks Hp Hprev _ (l & Hl & Hks)].
  - exists []. split; [constructor | reflexivity].
  - exists ((p, d) :: l). split; [constructor; assumption | cbn; rewrite Hks; reflexivity].
Qed.

Lemma dll_NoDup h prev o ks : dll h prev o ks -> NoDup ks.
Proof.
  intros Hl. destruct (dll_lseg _ _ _ _ Hl) as (l & Hseg & <-).
  exact (lseg_NoDup _ _ _ Hseg).
Qed.

Lemma dll_length h prev o ks : dll h prev o ks -> (length ks <= size h)%nat.
Proof.
  intros Hl. destruct (dll_lseg _ _ _ _ Hl) as (l & Hseg & <-).
  rewrite length_fmap. exact (lseg_length _ _ _ Hseg).
Qed.


Lemma dll_agree h h' prev o ks :
  dll h prev o ks -> (forall k, k ∈ ks -> h' !! k = h !! k) -> dll h' prev o ks.
Proof.
  intros Hl. induction Hl as [prev | prev p d ks Hp Hprev _ IH]; intros Hsame.
  - constructor.
  - econstructor.
    + rewrite Hsame by apply list_elem_of_here. exact Hp.
    + exact Hprev.
    + apply IH. intros k Hk. apply Hsame. apply list_elem_of_further. exact Hk.
Qed.

Lemma kept_agree h h' isolate ks :
  (forall k, k ∈ ks -> payload_at h' k = payload_at h k) ->
  kept h' isolate ks = kept h isolate ks.
Proof.
  induction ks as [| k ks IH]; intros Hsame; [reflexivity |]. cbn.
  assert (Hk : owned_at h' isolate k = owned_at h isolate k).
  { pose proof (Hsame k (list_elem_of_here _ _)) as Hp.
    unfold payload_at, owned_at, owned_by in *.
    destruct (h' !! k), (h !! k); try discriminate; [| reflexivity].
    injection Hp as -> _. reflexivity. }
  rewrite Hk, IH; [reflexivity |].
  intros k' Hk'. apply Hsame. apply list_elem_of_further. exact Hk'.
Qed.

Lemma payload_relink prev next k d :
  (isolate_ (relink prev next k d), memory_object_ (relink prev next k d)) =
  (isolate_ d, memory_object_ d).
Proof. unfold relink. repeat destruct (decide _); reflexivity. Qed.

(** [unlink] makes the neighbours of a node point at each other. *)
Lemma unlink_relinks (w : @World P) p d :
  list_nodes w !! p = Some d ->
  (forall q, prev_ d = Some q -> is_Some (list_nodes w !! q)) ->
  (forall n, next_ d = Some n -> is_Some (list_nodes w !! n)) ->
  (forall q, prev_ d = Some q -> next_ d <> Some q) ->
  exists h2,
    unlink p w = Returned (next_ d) (set_list_nodes h2 w) /\
    forall k, h2 !! k = relink (prev_ d) (next_ d) k <$> (list_nodes w !! k).
Proof.
  intros Hp Hprev Hnext Hapart. unfold unlink, bind, node_at. rewrite Hp.
  destruct (prev_ d) as [q |] eqn:Eq, (next_ d) as [n |] eqn:En.
  - destruct (Hprev q eq_refl) as [dq Hq]. destruct (Hnext n eq_refl) as [dn Hn].
    assert (Hqn : n <> q) by (intros ->; exact (Hapart q eq_refl eq_refl)).
    unfold update_node. rewrite Hq. cbn [list_nodes set_list_nodes].
    rewrite lookup_insert_ne by congruence. rewrite Hn.
    eexists. split; [reflexivity |]. intros k. unfold relink.
    destruct (decide (Some q = Some k)) as [[= <-] | Hkq].
    + rewrite lookup_insert_ne by congruence. rewrite lookup_insert_eq, Hq. reflexivity.
    + destruct (decide (Some n = Some k)) as [[= <-] | Hkn].
      * rewrite lookup_insert_eq, Hn. reflexivity.
      * rewrite !lookup_insert_ne by congruence. destruct (list_nodes w !! k); reflexivity.
  - destruct (Hprev q eq_refl) as [dq Hq].
    unfold update_node, ret. rewrite Hq.
    eexists. split; [reflexivity |]. intros k. unfold relink. cbn [list_nodes set_list_nodes].
    destruct (decide (Some q = Some k)) as [[= <-] | Hkq].
    + rewrite lookup_insert_eq, Hq. reflexivity.
    + rewrite lookup_insert_ne by congruence.
      destruct (decide (None = Some k)); [discriminate |].
      destruct (list_nodes w !! k); reflexivity.
  - destruct (Hnext n eq_refl) as [dn Hn].
    unfold update_node, ret. rewrite Hn.
    eexists. split; [reflexivity |]. intros k. unfold relink. cbn [list_nodes set_list_nodes].
    destruct (decide (None = Some k)); [discriminate |].
    destruct (decide (Some n = Some k)) as [[= <-] | Hkn].
    + rewrite lookup_insert_eq, Hn. reflexivity.
    + rewrite lookup_insert_ne by congruence. destruct (list_nodes w !! k); reflexivity.
  - exists (list_nodes w). split; [destruct w; reflexivity |]. intros k. unfold relink.
    destruct (decide (None = Some k)); [discriminate |].
    destruct (list_nodes w !! k); reflexivity.
Qed.

Lemma relink_other prev next k dk :
  prev <> Some k -> next <> Some k -> relink prev next k dk = dk.
Proof. intros Hp Hn. unfold relink. repeat destruct (decide _); congruence. Qed.

Lemma relink_prev prev next k dk :
  prev = Some k -> relink prev next k dk = set_next next dk.
Proof. intros Hp. unfold relink. destruct (decide _); congruence. Qed.

Lemma relink_next prev next k dk :
  prev <> Some k -> next = Some k -> relink prev next k dk = set_prev prev dk.
Proof. intros Hp Hn. unfold relink. repeat destruct (decide _); congruence. Qed.

Lemma set_next_same d : set_next (next_ d) d = d.
Proof. destruct d; reflexivity. Qed.

(** The loop of [Purge] over a well-formed list, from any node of it:
    the nodes of the isolate are unlinked and deleted, the others stay
    linked in their order. *)
Lemma purge_list_dll isolate ks : forall fuel prev o (w : @World P),
  dll (list_nodes w) prev o ks ->
  links_to (list_nodes w) prev o ->
  (forall q, prev = Some q -> q ∉ ks) ->
  (length ks <= fuel)%nat ->
  exists h',
    purge_list fuel isolate o w = Returned tt (set_list_nodes h' w) /\
    dll h' prev (head (kept (list_nodes w) isolate ks)) (kept (list_nodes w) isolate ks) /\
    (forall q dq, prev = Some q -> list_nodes w !! q = Some dq ->
       h' !! q = Some (set_next (head (kept (list_nodes w) isolate ks)) dq)) /\
    (forall k, k ∈ ks -> owned_at (list_nodes w) isolate k = true -> h' !! k = None) /\
    (forall k, k ∈ ks -> owned_at (list_nodes w) isolate k = false ->
       payload_at h' k = payload_at (list_nodes w) k) /\
    (forall k, k ∉ ks -> prev <> Some k -> h' !! k = list_nodes w !! k).
Proof.
  induction ks as [| p ks IH]; intros fuel prev o w Hl Hlink Hprev Hfuel.
  - inversion Hl; subst. exists (list_nodes w). split_and!.
    + destruct fuel; cbn; destruct w; reflexivity.
    + constructor.
    + intros q dq -> Hq. cbn. cbn in Hlink. destruct Hlink as (dq' & Hq' & Hnext).
      rewrite Hq in Hq'. injection Hq' as <-. rewrite <- Hnext, set_next_same. exact Hq.
    + intros k Hk. inversion Hk.
    + intros k Hk. inversion Hk.
    + reflexivity.
  - pose proof (dll_NoDup _ _ _ _ Hl) as Hnd.
    apply NoDup_cons in Hnd as [Hp_out Hnd].
    inversion Hl as [| prev' p' d ks' Hp Hd Hrest]; subst.
    destruct fuel as [| fuel]; [cbn in Hfuel; lia |].
    assert (Hpp : prev_ d <> Some p).
    { intros Heq. apply (Hprev p Heq). apply list_elem_of_here. }
    cbn [purge_list kept]. unfold bind at 1. unfold node_at. rewrite Hp.
    unfold owned_at at 1 2 3. rewrite Hp.
    destruct (owned_by isolate d) eqn:Howned.
    + (* the node is of the isolate: unlink, delete, go on from its successor *)
      destruct (unlink_relinks w p d Hp) as (h2 & Hunlink & Hh2).
      { intros q Hq. unfold links_to in Hlink. rewrite Hq in Hlink.
        destruct Hlink as (dq' & Hdq' & _). exists dq'. exact Hdq'. }
      { intros n Hn. rewrite Hn in Hrest. inversion Hrest; subst. eexists; eassumption. }
      { intros q Hq Hn. rewrite Hn in Hrest. inversion Hrest; subst.
        apply (Hprev q Hq). apply list_elem_of_further. apply list_elem_of_here. }
      unfold bind. rewrite Hunlink. unfold delete_node. cbn [list_nodes set_list_nodes].
      set (h3 := delete p h2).
      assert (Hh3 : forall k, k <> p ->
                h3 !! k = relink (prev_ d) (next_ d) k <$> (list_nodes w !! k)).
      { intros k Hk. unfold h3. rewrite lookup_delete_ne by congruence. apply Hh2. }
      assert (Hh3p : h3 !! p = None) by apply lookup_delete_eq.
      assert (Hin_next : forall n, next_ d = Some n -> n ∈ ks).
      { intros n Hn. rewrite Hn in Hrest. inversion Hrest; subst. apply list_elem_of_here. }
      assert (Hframe3 : forall k, k ∉ p :: ks -> prev_ d <> Some k ->
                h3 !! k = list_nodes w !! k).
      { intros k Hk Hkprev. rewrite Hh3.
        - destruct (list_nodes w !! k) as [dk |]; [| reflexivity]. cbn.
          rewrite relink_other; [reflexivity | exact Hkprev |].
          intros Hn. apply Hk. apply list_elem_of_further. exact (Hin_next _ Hn).
        - intros ->. apply Hk. apply list_elem_of_here. }
      assert (Hpayload3 : forall k, k ∈ ks -> payload_at h3 k = payload_at (list_nodes w) k).
      { intros k Hk. unfold payload_at. rewrite Hh3 by (intros ->; contradiction).
        destruct (list_nodes w !! k) as [dk |]; [| reflexivity]. cbn.
        f_equal. apply payload_relink. }
      destruct (IH fuel (prev_ d) (next_ d) (set_list_nodes h3 w)) as (h' & Hrun & Hdll & Hq' & Hgone & Hpay & Hframe).
      * cbn [list_nodes set_list_nodes].
        inversion Hrest as [prev0 Hnone | prev0 n dn ks'' Hn Hdn Hrest' Hprev0 Hsome].
        -- constructor.
        -- subst ks. symmetry in Hsome.
           apply NoDup_cons in Hnd as [Hn_out Hnd'].
           assert (Hnp : n <> p).
           { intros ->. apply Hp_out. apply list_elem_of_here. }
           assert (Hnq : prev_ d <> Some n).
           { intros Heq. apply (Hprev n Heq). apply list_elem_of_further.
             apply list_elem_of_here. }
           econstructor.
           ++ rewrite Hh3 by exact Hnp. rewrite Hn. cbn.
              rewrite relink_next by assumption. reflexivity.
           ++ reflexivity.
           ++ cbn [next_ set_prev].
              apply (dll_agree (list_nodes w)); [exact Hrest' |].
              intros k Hk. rewrite Hh3.
              ** destruct (list_nodes w !! k) as [dk |]; [| reflexivity]. cbn.
                 rewrite relink_other; [reflexivity | |].
                 --- intros Heq. apply (Hprev k Heq).
                     do 2 apply list_elem_of_further. exact Hk.
                 --- rewrite Hsome. intros [= ->]. contradiction.
              ** intros ->. apply Hp_out. apply list_elem_of_further. exact Hk.
      * cbn [list_nodes set_list_nodes]. unfold links_to in *.
        destruct (prev_ d) as [q |] eqn:Eq; [| exact I].
        destruct Hlink as (dq & Hdq & _).
        assert (Hqp : q <> p) by congruence.
        exists (set_next (next_ d) dq). split; [| reflexivity].
        rewrite Hh3 by exact Hqp. rewrite Hdq. cbn.
        rewrite relink_prev by reflexivity. reflexivity.
      * intros q Hq Hin. apply (Hprev q Hq). apply list_elem_of_further. exact Hin.
      * cbn in Hfuel. lia.
      * cbn [list_nodes set_list_nodes] in *.
        rewrite (kept_agree (list_nodes w) h3 isolate ks) in * by exact Hpayload3.
        assert (Howned3 : forall k, k ∈ ks ->
                  owned_at h3 isolate k = owned_at (list_nodes w) isolate k).
        { intros k Hk. pose proof (Hpayload3 k Hk) as Hpk.
          unfold payload_at, owned_at, owned_by in *.
          destruct (h3 !! k), (list_nodes w !! k); try discriminate; [| reflexivity].
          injection Hpk as -> _. reflexivity. }
        exists h'. split_and!.
        -- exact Hrun.
        -- exact Hdll.
        -- intros q dq Hq Hdq. assert (Hqp : q <> p) by congruence.
           rewrite (Hq' q (set_next (next_ d) dq) Hq); [reflexivity |].
           rewrite Hh3 by exact Hqp. rewrite Hdq. cbn.
           rewrite relink_prev by exact Hq. reflexivity.
        -- intros k Hk Hown. apply elem_of_cons in Hk as [-> | Hk].
           ++ rewrite Hframe; [exact Hh3p | exact Hp_out | exact Hpp].
           ++ apply Hgone; [exact Hk |]. rewrite Howned3 by exact Hk. exact Hown.
        -- intros k Hk Hown. apply elem_of_cons in Hk as [-> | Hk].
           ++ unfold owned_at in Hown. rewrite Hp in Hown. congruence.
           ++ rewrite Hpay; [apply Hpayload3; exact Hk | exact Hk |].
              rewrite Howned3 by exact Hk. exact Hown.
        -- intros k Hk Hkprev. rewrite Hframe.
           ++ apply Hframe3; assumption.
           ++ intros Hin. apply Hk. apply list_elem_of_further. exact Hin.
           ++ exact Hkprev.
    + (* the node stays: go on from its successor *)
      destruct (IH fuel (Some p) (next_ d) w) as (h' & Hrun & Hdll & Hq' & Hgone & Hpay & Hframe).
      * exact Hrest.
      * exists d. split; [exact Hp | reflexivity].
      * intros q [= <-]. exact Hp_out.
      * cbn in Hfuel. lia.
      * exists h'. cbn [head]. split_and!.
        -- exact Hrun.
        -- econstructor; [apply (Hq' p d eq_refl Hp) | reflexivity | exact Hdll].
        -- intros q dq Hq Hdq. unfold links_to in Hlink. rewrite Hq in Hlink.
           destruct Hlink as (dq' & Hdq' & Hnext).
           rewrite Hdq in Hdq'. injection Hdq' as <-.
           rewrite <- Hnext, set_next_same.
           rewrite Hframe; [exact Hdq | | congruence].
           intros Hin. apply (Hprev q Hq). apply list_elem_of_further. exact Hin.
        -- intros k Hk Hown. apply elem_of_cons in Hk as [-> | Hk].
           ++ unfold owned_at in Hown. rewrite Hp in Hown. congruence.
           ++ apply Hgone; assumption.
        -- intros k Hk Hown. apply elem_of_cons in Hk as [-> | Hk].
           ++ unfold payload_at. rewrite (Hq' p d eq_refl Hp), Hp. reflexivity.
           ++ apply Hpay; assumption.
        -- intros k Hk Hkprev. apply Hframe.
           ++ intros Hin. apply Hk. apply list_elem_of_further. exact Hin.
           ++ intros [= ->]. apply Hk. apply list_elem_of_here.
Qed.

(** ** The loop over the registry *)

Lemma keeps_registry_node_at p : keeps_registry (P := P) (node_at p).
Proof.
  intros w a w' Hrun. unfold node_at in Hrun.
  destruct (list_nodes w !! p); [injection Hrun as _ <-; auto | discriminate].
Qed.

Lemma keeps_registry_update_node p f : keeps_registry (P := P) (update_node p f).
Proof.
  intros w a w' Hrun. unfold update_node in Hrun.
  destruct (list_nodes w !! p); [injection Hrun as _ <-; auto | discriminate].
Qed.

Lemma keeps_registry_unlink p : keeps_registry (P := P) (unlink p).
Proof.
  unfold unlink. apply keeps_registry_bind; [apply keeps_registry_node_at |].
  intros d. cbv zeta. apply keeps_registry_bind.
  { destruct (prev_ d); [apply keeps_registry_update_node | apply keeps_registry_ret]. }
  intros _. apply keeps_registry_bind; [| intros _; apply keeps_registry_ret].
  destruct (next_ d); [apply keeps_registry_update_node | apply keeps_registry_ret].
Qed.

Lemma keeps_registry_purge_list isolate fuel :
  forall o, keeps_registry (P := P) (purge_list fuel isolate o).
Proof.
  induction fuel as [| fuel IH]; intros [p |]; cbn [purge_list];
    try apply keeps_registry_ret; try (intros w a w' Hrun; discriminate Hrun).
  apply keeps_registry_bind; [apply keeps_registry_node_at |].
  intros d. destruct (owned_by isolate d); [| apply IH].
  apply keeps_registry_bind; [apply keeps_registry_unlink |].
  intros next. apply keeps_registry_bind; [| intros _; apply IH].
  intros w a w' [= _ <-]. auto.
Qed.

Lemma purge_entry_keeps_stores isolate weak (w w' : @World P) :
  purge_entry isolate weak w = Returned tt w' ->
  backing_stores w' = backing_stores w /\ map_ w' = map_ w.
Proof.
  unfold purge_entry. destruct (backing_stores w !! weak) as [bs |];
    [| intros [= <-]; auto].
  destruct (negb (is_wasm_memory_ bs)); [intros [= <-]; auto |].
  unfold bind, get_shared_wasm_memory_data.
  destruct (negb _); [discriminate |].
  destruct (type_specific_data_ bs); try discriminate.
  cbn [ret]. apply keeps_registry_purge_list.
Qed.

Lemma purge_entries_app isolate l1 : forall l2 (w : @World P),
  purge_entries isolate (l1 ++ l2) w =
  bind (purge_entries isolate l1) (fun _ => purge_entries isolate l2) w.
Proof.
  induction l1 as [| [a weak] l1 IH]; intros l2 w; [reflexivity |].
  cbn [app purge_entries]. unfold bind.
  destruct (purge_entry isolate weak w) as [[] w1 | |]; try reflexivity.
  rewrite IH. reflexivity.
Qed.

Lemma purge_entries_skipped isolate l : forall (w : @World P),
  (forall a weak, (a, weak) ∈ l -> skipped w weak) ->
  purge_entries isolate l w = Returned tt w.
Proof.
  induction l as [| [a weak] l IH]; intros w Hskip; [reflexivity |].
  cbn [purge_entries]. unfold bind, purge_entry.
  pose proof (Hskip a weak (list_elem_of_here _ _)) as Hweak. unfold skipped in Hweak.
  destruct (backing_stores w !! weak) as [bs |].
  - rewrite (Hweak bs eq_refl). cbn [negb]. apply IH.
    intros a' weak' Hin. exact (Hskip a' weak' (list_elem_of_further _ _ _ Hin)).
  - apply IH. intros a' weak' Hin. exact (Hskip a' weak' (list_elem_of_further _ _ _ Hin)).
Qed.

(** When one entry of the registry is a live shared wasm memory and the
    others are skipped, [Purge] is the loop over the list of that store. *)
Lemma Purge_one_list (w : @World P) isolate a p bs anchor :
  map_ w !! a = Some p -> backing_stores w !! p = Some bs ->
  is_wasm_memory_ bs = true -> is_shared_ bs = true ->
  type_specific_data_ bs = shared_wasm_memory_data anchor ->
  (forall a' p', a' <> a -> map_ w !! a' = Some p' -> skipped w p') ->
  Purge isolate w = purge_list (S (size (list_nodes w))) isolate (Some anchor) w.
Proof.
  intros Hentry Hlive Hwasm Hshared Hdata Hothers. unfold Purge.
  apply elem_of_map_to_list in Hentry.
  pose proof (NoDup_fst_map_to_list (map_ w)) as Hnd.
  apply list_elem_of_split in Hentry as (l1 & l2 & Hsplit).
  rewrite Hsplit in Hnd |- *.
  assert (Hskip : forall a' p', (a', p') ∈ l1 ++ l2 -> skipped w p').
  { intros a' p' Hin. apply (Hothers a' p').
    - intros ->. rewrite fmap_app in Hnd. cbn in Hnd.
      apply NoDup_app in Hnd as (_ & Hdisj & Hnd2).
      apply NoDup_cons in Hnd2 as [Hout _].
      apply elem_of_app in Hin as [Hin | Hin].
      + apply (Hdisj a).
        * apply list_elem_of_fmap. exists (a, p'). split; [reflexivity | exact Hin].
        * apply list_elem_of_here.
      + apply Hout. apply list_elem_of_fmap. exists (a, p'). split; [reflexivity | exact Hin].
    - apply elem_of_map_to_list. rewrite Hsplit.
      apply elem_of_app in Hin as [Hin | Hin]; apply elem_of_app; [left; exact Hin |].
      right. apply list_elem_of_further. exact Hin. }
  rewrite purge_entries_app. unfold bind at 1.
  rewrite purge_entries_skipped
    by (intros a' p' Hin; apply (Hskip a' p'); apply elem_of_app; left; exact Hin).
  cbn [purge_entries]. unfold bind at 1. unfold purge_entry at 1.
  rewrite Hlive, Hwasm. cbn [negb]. unfold bind at 1.
  unfold get_shared_wasm_memory_data. rewrite Hwasm, Hshared, Hdata. cbn [andb negb ret].
  destruct (purge_list _ isolate (Some anchor) w) as [[] w1 | |] eqn:Hrun;
    [| reflexivity | reflexivity].
  apply keeps_registry_purge_list in Hrun as [Hstores _].
  apply purge_entries_skipped. intros a' p' Hin. unfold skipped. rewrite Hstores.
  apply (Hskip a' p'). apply elem_of_app. right. exact Hin.
Qed.



(** X16.  [Purge] over a registry whose only live wasm memory is a shared
    store with a well-formed attachment list returns, having deleted the
    nodes of the list that the isolate owns and no other node: the nodes
    that remain are linked, forwards and backwards, in the order they had,
    with their owners and handles; nothing else of the process changes.
    An anchor that no isolate owns is still the head of the list. *)
Theorem purge_removes_attachments_of_isolate (w : @World P) (isolate : Isolate)
    (a : Z) (p : positive) (bs : BackingStore) (anchor : positive)
    (ks : list positive) :
  map_ w !! a = Some p -> backing_stores w !! p = Some bs ->
  is_wasm_memory_ bs = true -> is_shared_ bs = true ->
  type_specific_data_ bs = shared_wasm_memory_data anchor ->
  dll (list_nodes w) None (Some anchor) ks ->
  (forall a' p', a' <> a -> map_ w !! a' = Some p' -> skipped w p') ->
  exists h',
    Purge isolate w = Returned tt (set_list_nodes h' w) /\
    dll h' None (head (kept (list_nodes w) isolate ks)) (kept (list_nodes w) isolate ks) /\
    (forall k, k ∈ ks -> owned_at (list_nodes w) isolate k = true -> h' !! k = None) /\
    (forall k, k ∈ ks -> owned_at (list_nodes w) isolate k = false ->
       payload_at h' k = payload_at (list_nodes w) k) /\
    (forall k, k ∉ ks -> h' !! k = list_nodes w !! k) /\
    (owned_at (list_nodes w) isolate anchor = false ->
     head (kept (list_nodes w) isolate ks) = Some anchor).
Proof.
  intros Hentry Hlive Hwasm Hshared Hdata Hl Hothers.
  destruct (purge_list_dll isolate ks (S (size (list_nodes w))) None (Some anchor) w Hl I)
    as (h' & Hrun & Hdll & _ & Hgone & Hpay & Hframe).
  { intros q Hq. discriminate Hq. }
  { pose proof (dll_length _ _ _ _ Hl). lia. }
  exists h'. split_and!; try assumption.
  - rewrite (Purge_one_list w isolate a p bs anchor) by assumption. exact Hrun.
  - intros k Hk. apply Hframe; [exact Hk | discriminate].
  - intros Hanchor. inversion Hl; subst. cbn [kept]. rewrite Hanchor. reflexivity.
Qed.

(** X17.  [Purge] does not return when the registry holds a live wasm
    memory that is not shared: the accessor of the attachment list checks
    that the store is shared. *)
Theorem purge_stops_at_unshared_wasm_memory (w : @World P) (isolate : Isolate)
    (a : Z) (p : positive) (bs : BackingStore) :
  map_ w !! a = Some p -> backing_stores w !! p = Some bs ->
  is_wasm_memory_ bs = true -> is_shared_ bs = false ->
  forall w', Purge isolate w <> Returned tt w'.
Proof.
  intros Hentry Hlive Hwasm Hshared w'. unfold Purge.
  apply elem_of_map_to_list in Hentry. revert Hentry Hlive.
  generalize (map_to_list (map_ w)). intros l. revert w.
  induction l as [| [a' weak] l IH]; intros w Hin Hlive Hrun; [inversion Hin |].
  cbn [purge_entries] in Hrun. unfold bind in Hrun.
  destruct (purge_entry isolate weak w) as [[] w1 | |] eqn:Hone; try discriminate.
  apply elem_of_cons in Hin as [[= <- <-] | Hin].
  - unfold purge_entry in Hone. rewrite Hlive, Hwasm in Hone. cbn [negb] in Hone.
    unfold bind, get_shared_wasm_memory_data in Hone. rewrite Hwasm, Hshared in Hone.
    discriminate Hone.
  - apply purge_entry_keeps_stores in Hone as [Hstores _].
    apply (IH w1); [exact Hin | rewrite Hstores; exact Hlive | exact Hrun].
Qed.

End AttachmentLists.

Lemma attached_nodes_dll :
  dll attached_nodes None (Some 1%positive) [1%positive; 3%positive; 2%positive].
Proof.
  econstructor; [vm_compute; reflexivity | reflexivity |].
  econstructor; [vm_compute; reflexivity | reflexivity |].
  econstructor; [vm_compute; reflexivity | reflexivity |].
  constructor.
Defined.

Lemma purge_removes_attachments_of_isolate_witness :
  exists h',
    Purge 1%nat purge_world = Returned tt (set_list_nodes h' purge_world) /\
    dll h' None (Some 1%positive) [1%positive; 3%positive] /\
    h' !! 2%positive = None /\
    payload_at h' 3%positive = Some (Some 2%nat, Some 2%positive).
Proof.
  destruct (purge_removes_attachments_of_isolate purge_world 1%nat (6 * GB) 1%positive
              (set_globally_registered true shared_store) 1%positive
              [1%positive; 3%positive; 2%positive])
    as (h' & Hrun & Hdll & Hgone & Hpay & _).
  - vm_compute. reflexivity.
  - vm_compute. reflexivity.
  - reflexivity.
  - reflexivity.
  - reflexivity.
  - exact attached_nodes_dll.
  - intros a' p' Hne Hentry. cbn in Hentry.
    rewrite lookup_insert_ne in Hentry by congruence. discriminate Hentry.
  - exists h'. split; [exact Hrun |]. split; [exact Hdll |]. split.
    + apply Hgone; [| vm_compute; reflexivity].
      do 2 apply list_elem_of_further. apply list_elem_of_here.
    + rewrite Hpay; [vm_compute; reflexivity | | vm_compute; reflexivity].
      apply list_elem_of_further. apply list_elem_of_here.
Defined.

Lemma purge_stops_at_unshared_wasm_memory_witness :
  Purge 0%nat unshared_world = Fatal unshared_world /\
  forall w', Purge 0%nat unshared_world <> Returned tt w'.
Proof.
  split; [vm_compute; reflexivity |].
  apply (purge_stops_at_unshared_wasm_memory unshared_world 0%nat (16 * GB) 1%positive
           (set_globally_registered true two_page_store));
    vm_compute; reflexivity.
Defined.

(** * Further properties: attaching a memory object *)

Section Attachment.
Context {P : Type} `{!Platform P}.

Lemma dll_live h prev o ks k : dll h prev o ks -> k ∈ ks -> is_Some (h !! k).
Proof.
  intros Hl. induction Hl as [prev | prev p d ks Hp Hprev _ IH]; intros Hk.
  - inversion Hk.
  - apply elem_of_cons in Hk as [-> | Hk]; [eexists; exact Hp | exact (IH Hk)].
Qed.


Lemma update_node_live (w : @World P) p f d :
  list_nodes w !! p = Some d ->
  update_node p f w = Returned tt (set_list_nodes (<[p := f d]> (list_nodes w)) w).
Proof. intros Hp. unfold update_node. rewrite Hp. reflexivity. Qed.

(** The four assignments of [AddSharedWasmMemoryObject], node by node. *)
Lemma AddSharedWasmMemoryObject_nodes (w : @World P) isolate bs memory_object anchor da :
  is_wasm_memory_ bs = true -> is_shared_ bs = true ->
  type_specific_data_ bs = shared_wasm_memory_data anchor ->
  list_nodes w !! anchor = Some da ->
  (forall n, next_ da = Some n -> n <> anchor /\ is_Some (list_nodes w !! n)) ->
  exists h',
    AddSharedWasmMemoryObject isolate bs memory_object w
      = Returned tt (set_list_nodes h' w) /\
    h' !! anchor = Some (set_next (Some (fresh (dom (list_nodes w)))) da) /\
    h' !! fresh (dom (list_nodes w)) =
      Some {| next_ := next_ da; prev_ := Some anchor; isolate_ := Some isolate;
              memory_object_ := Some memory_object |} /\
    (forall n, next_ da = Some n ->
       h' !! n = set_prev (Some (fresh (dom (list_nodes w)))) <$> (list_nodes w !! n)) /\
    (forall k, k <> anchor -> k <> fresh (dom (list_nodes w)) -> next_ da <> Some k ->
       h' !! k = list_nodes w !! k).
Proof.
  intros Hwasm Hshared Hdata Ha Hnext.
  pose proof (fresh_node_absent (list_nodes w)) as Hfresh.
  set (entry := fresh (dom (list_nodes w))) in *.
  assert (Hae : anchor <> entry) by congruence.
  unfold AddSharedWasmMemoryObject, get_shared_wasm_memory_data.
  rewrite Hwasm, Hshared, Hdata. cbn [andb negb].
  unfold bind at 1. unfold new_node at 1. fold entry.
  unfold bind at 1. cbn [ret]. unfold bind at 1. unfold node_at at 1.
  cbn [list_nodes set_list_nodes]. rewrite lookup_insert_ne by congruence. rewrite Ha.
  destruct (next_ da) as [n |] eqn:En.
  - destruct (Hnext n eq_refl) as [Hna [dn Hn]].
    assert (Hne : n <> entry) by congruence.
    unfold bind.
    rewrite (update_node_live _ n _ dn)
      by (cbn; rewrite lookup_insert_ne by congruence; exact Hn).
    cbn [list_nodes set_list_nodes].
    erewrite (update_node_live _ entry)
      by (cbn; rewrite lookup_insert_ne by congruence; apply lookup_insert_eq).
    cbn [list_nodes set_list_nodes].
    rewrite (update_node_live _ anchor _ da)
      by (cbn; rewrite !lookup_insert_ne by congruence; exact Ha).
    cbn [list_nodes set_list_nodes].
    erewrite (update_node_live _ entry)
      by (cbn; rewrite lookup_insert_ne by congruence; apply lookup_insert_eq).
    cbn [list_nodes set_list_nodes].
    eexists. split; [reflexivity |]. split_and!.
    + rewrite lookup_insert_ne by congruence. apply lookup_insert_eq.
    + rewrite lookup_insert_eq. reflexivity.
    + intros n' [= <-]. rewrite !lookup_insert_ne by congruence.
      rewrite lookup_insert_eq, Hn. reflexivity.
    + intros k Hka Hke Hkn. rewrite !lookup_insert_ne by congruence. reflexivity.
  - unfold bind, ret.
    rewrite (update_node_live _ anchor _ da)
      by (cbn; rewrite !lookup_insert_ne by congruence; exact Ha).
    cbn [list_nodes set_list_nodes].
    erewrite (update_node_live _ entry)
      by (cbn; rewrite lookup_insert_ne by congruence; apply lookup_insert_eq).
    cbn [list_nodes set_list_nodes].
    eexists. split; [reflexivity |]. split_and!.
    + rewrite lookup_insert_ne by congruence. apply lookup_insert_eq.
    + rewrite lookup_insert_eq. reflexivity.
    + intros n' Hn'. discriminate Hn'.
    + intros k Hka Hke Hkn. rewrite !lookup_insert_ne by congruence. reflexivity.
Qed.

(** The new node goes in right behind the anchor. *)
Lemma AddSharedWasmMemoryObject_links (w : @World P) isolate bs memory_object
    anchor prev ks :
  is_wasm_memory_ bs = true -> is_shared_ bs = true ->
  type_specific_data_ bs = shared_wasm_memory_data anchor ->
  dll (list_nodes w) prev (Some anchor) (anchor :: ks) ->
  exists h',
    AddSharedWasmMemoryObject isolate bs memory_object w
      = Returned tt (set_list_nodes h' w) /\
    dll h' prev (Some anchor) (anchor :: fresh (dom (list_nodes w)) :: ks) /\
    payload_at h' (fresh (dom (list_nodes w))) = Some (Some isolate, Some memory_object) /\
    (forall k, k ∈ anchor :: ks -> payload_at h' k = payload_at (list_nodes w) k) /\
    (forall k, k ∉ anchor :: ks -> k <> fresh (dom (list_nodes w)) ->
       h' !! k = list_nodes w !! k).
Proof.
  intros Hwasm Hshared Hdata Hl.
  pose proof (dll_NoDup _ _ _ _ Hl) as Hnd.
  pose proof (fresh_node_absent (list_nodes w)) as Hfresh.
  assert (Hentry_out : forall k, k ∈ anchor :: ks -> k <> fresh (dom (list_nodes w))).
  { intros k Hk ->. destruct (dll_live _ _ _ _ _ Hl Hk) as [d Hd]. congruence. }
  inversion Hl as [| prev' p' da ks' Ha Hprev Hrest]; subst.
  apply NoDup_cons in Hnd as [Ha_out Hnd].
  assert (Hin_next : forall n, next_ da = Some n -> n ∈ ks).
  { intros n Hn. rewrite Hn in Hrest. inversion Hrest; subst. apply list_elem_of_here. }
  destruct (AddSharedWasmMemoryObject_nodes w isolate bs memory_object anchor da
              Hwasm Hshared Hdata Ha) as (h' & Hrun & Hh'a & Hh'e & Hh'n & Hh'o).
  { intros n Hn. pose proof (Hin_next n Hn) as Hin. split.
    - intros ->. contradiction.
    - apply (dll_live _ _ _ _ _ Hrest Hin). }
  set (entry := fresh (dom (list_nodes w))) in *.
  exists h'. split; [exact Hrun |]. split_and!.
  - econstructor; [exact Hh'a | reflexivity |]. cbn [next_ set_next].
    econstructor; [exact Hh'e | reflexivity |]. cbn [next_].
    inversion Hrest as [prev0 Hnone | prev0 n dn ks'' Hn Hdn Hrest' Hprev0 Hsome].
    + constructor.
    + subst ks. symmetry in Hsome.
      apply NoDup_cons in Hnd as [Hn_out Hnd'].
      econstructor.
      * rewrite (Hh'n n Hsome), Hn. reflexivity.
      * reflexivity.
      * cbn [next_ set_prev]. apply (dll_agree (list_nodes w)); [exact Hrest' |].
        intros k Hk. apply Hh'o.
        -- intros ->. apply Ha_out. apply list_elem_of_further. exact Hk.
        -- apply Hentry_out. do 2 apply list_elem_of_further. exact Hk.
        -- rewrite Hsome. intros [= ->]. contradiction.
  - unfold payload_at. rewrite Hh'e. reflexivity.
  - intros k Hk. unfold payload_at.
    apply elem_of_cons in Hk as [-> | Hk]; [rewrite Hh'a, Ha; reflexivity |].
    destruct (decide (next_ da = Some k)) as [Hn | Hn].
    + rewrite (Hh'n k Hn). destruct (list_nodes w !! k); reflexivity.
    + rewrite Hh'o; [reflexivity | | | exact Hn].
      * intros ->. contradiction.
      * apply Hentry_out. apply list_elem_of_further. exact Hk.
  - intros k Hk Hke. apply Hh'o; [| exact Hke |].
    + intros ->. apply Hk. apply list_elem_of_here.
    + intros Hn. apply Hk. apply list_elem_of_further. exact (Hin_next k Hn).
Qed.

(** X18.  Attaching a memory object to a shared store whose list is well
    formed allocates one node, which was not live before, and links it in
    right behind the anchor: the list is the old one with the new node
    second, linked forwards and backwards; the new node carries the
    isolate and the handle; every other node keeps its owner and its
    handle, and the nodes outside the list are untouched. *)
Theorem attachment_inserted_after_anchor (w : @World P) (isolate : Isolate)
    (bs : BackingStore) (memory_object anchor : positive) (ks : list positive) :
  is_wasm_memory_ bs = true -> is_shared_ bs = true ->
  type_specific_data_ bs = shared_wasm_memory_data anchor ->
  dll (list_nodes w) None (Some anchor) (anchor :: ks) ->
  exists entry h',
    list_nodes w !! entry = None /\
    AddSharedWasmMemoryObject isolate bs memory_object w
      = Returned tt (set_list_nodes h' w) /\
    dll h' None (Some anchor) (anchor :: entry :: ks) /\
    payload_at h' entry = Some (Some isolate, Some memory_object) /\
    (forall k, k ∈ anchor :: ks -> payload_at h' k = payload_at (list_nodes w) k) /\
    (forall k, k ∉ anchor :: entry :: ks -> h' !! k = list_nodes w !! k).
Proof.
  intros Hwasm Hshared Hdata Hl.
  destruct (AddSharedWasmMemoryObject_links w isolate bs memory_object anchor None ks
              Hwasm Hshared Hdata Hl) as (h' & Hrun & Hdll & Hnew & Hpay & Hframe).
  exists (fresh (dom (list_nodes w))), h'. split_and!; try assumption.
  - apply fresh_node_absent.
  - intros k Hk. apply Hframe.
    + intros Hin. apply Hk. apply elem_of_cons in Hin as [-> | Hin].
      * apply list_elem_of_here.
      * do 2 apply list_elem_of_further. exact Hin.
    + intros ->. apply Hk. apply list_elem_of_further. apply list_elem_of_here.
Qed.


End Attachment.

Lemma attachment_inserted_after_anchor_witness :
  exists entry h',
    list_nodes attached_world !! entry = None /\
    AddSharedWasmMemoryObject 3%nat shared_store 7%positive attached_world
      = Returned tt (set_list_nodes h' attached_world) /\
    dll h' None (Some 1%positive) [1%positive; entry; 3%positive; 2%positive] /\
    payload_at h' entry = Some (Some 3%nat, Some 7%positive).
Proof.
  destruct (attachment_inserted_after_anchor attached_world 3%nat shared_store 7%positive
              1%positive [3%positive; 2%positive] eq_refl eq_refl eq_refl
              attached_nodes_dll)
    as (entry & h' & Hfresh & Hrun & Hdll & Hnew & _).
  exists entry, h'. auto.
Defined.


(** * Further properties: the reservation counter *)

Section CounterUnderContention.
Context {P : Type} `{!Platform P}.

(** X20.  Whatever other threads store in the counter between the rounds
    of the exchange loop, the loop ends on one of the values it loaded: a
    successful reservation adds the bytes to that value and stays within
    the limit; a failed one leaves that value, for which the bytes did not
    fit. *)
Theorem reservation_under_interference (others : list Z) (limit n c : Z)
    (ok : bool) (c' : Z) :
  0 <= n -> 0 <= c -> Forall (fun v => 0 <= v) others -> limit < 2 ^ 64 ->
  ReserveAddressSpace_loop others limit n c = (ok, c') ->
  exists v,
    v ∈ c :: others /\
    if ok then c' = v + n /\ v + n <= limit
    else c' = v /\ limit < v + n.
Proof.
  intros Hn Hc Hothers Hlimit. revert c Hc.
  induction Hothers as [| v others Hv _ IH]; intros c Hc; cbn [ReserveAddressSpace_loop].
  - destruct (Z.ltb_spec limit c);
      [intros [= <- <-]; exists c; split; [apply list_elem_of_here | lia] |].
    destruct (Z.ltb_spec (limit - c) n);
      [intros [= <- <-]; exists c; split; [apply list_elem_of_here | lia] |].
    intros [= <- <-]. exists c. split; [apply list_elem_of_here |].
    rewrite to_uint64_small by lia. lia.
  - destruct (Z.ltb_spec limit c);
      [intros [= <- <-]; exists c; split; [apply list_elem_of_here | lia] |].
    destruct (Z.ltb_spec (limit - c) n);
      [intros [= <- <-]; exists c; split; [apply list_elem_of_here | lia] |].
    destruct (v =? c).
    + intros [= <- <-]. exists c. split; [apply list_elem_of_here |].
      rewrite to_uint64_small by lia. lia.
    + intros Hrun. destruct (IH v Hv Hrun) as (u & Hu & Hres).
      exists u. split; [| exact Hres].
      apply list_elem_of_further. exact Hu.
Qed.

(** X21.  A release of more bytes than are reserved wraps the unsigned
    counter round; it then exceeds every limit, and each reservation that
    follows fails, whatever its size, and leaves the counter there. *)
Theorem unmatched_release_blocks_reservations (a : TargetArch) (c n m : Z) :
  0 <= c < n -> n < 2 ^ 63 ->
  ReleaseReservation n c = c - n + 2 ^ 64 /\
  ReserveAddressSpace a m (ReleaseReservation n c) = (false, ReleaseReservation n c).
Proof.
  intros Hc Hn.
  assert (Hwrap : ReleaseReservation n c = c - n + 2 ^ 64).
  { unfold ReleaseReservation, to_uint64.
    rewrite <- (Z_mod_plus_full (c - n) 1 (2 ^ 64)).
    apply Z.mod_small. lia. }
  split; [exact Hwrap |].
  rewrite ReserveAddressSpace_eq, Hwrap.
  assert (Hlimit : kAddressSpaceLimit a < 2 ^ 63) by (destruct a; vm_compute; reflexivity).
  destruct (Z.ltb_spec (kAddressSpaceLimit a) (c - n + 2 ^ 64)); [reflexivity | lia].
Qed.

(** X22.  On a build with guard regions neither the reservation nor the
    capacity depends on the maximum asked for, so the second attempt of
    the allocation entry point, with the maximum lowered to the initial
    size, is the first attempt over again. *)
Theorem guarded_second_attempt_repeats_first (cfg : Build) (isolate : Isolate)
    (initial_pages maximum_pages : Z) (shared : SharedFlag) (w : @World P) :
  kUseGuardRegions (target_arch cfg) = true ->
  TryAllocateWasmMemory cfg isolate initial_pages initial_pages shared w =
  TryAllocateWasmMemory cfg isolate initial_pages maximum_pages shared w.
Proof.
  intros Hguards. unfold TryAllocateWasmMemory, reservation_size_for, byte_capacity_for.
  rewrite Hguards. reflexivity.
Qed.

End CounterUnderContention.

Lemma reservation_under_interference_witness :
  ReserveAddressSpace_loop [5 * GB; 5 * GB] (kAddressSpaceLimit Arch64) kFullGuardSize 0
    = (true, 15 * GB) /\
  exists v, v ∈ [0; 5 * GB; 5 * GB] /\ 15 * GB = v + kFullGuardSize.
Proof.
  split; [vm_compute; reflexivity |].
  assert (Hn : 0 <= kFullGuardSize) by (vm_compute; discriminate).
  assert (Hothers : Forall (fun v => 0 <= v) [5 * GB; 5 * GB])
    by (repeat (apply List.Forall_cons; [vm_compute; discriminate |]); apply List.Forall_nil).
  assert (Hlimit : kAddressSpaceLimit Arch64 < 2 ^ 64) by (vm_compute; reflexivity).
  destruct (reservation_under_interference [5 * GB; 5 * GB] (kAddressSpaceLimit Arch64)
              kFullGuardSize 0 true (15 * GB) Hn (Z.le_refl 0) Hothers Hlimit eq_refl)
    as (v & Hv & Hsum & _).
  exists v. split; [exact Hv | exact Hsum].
Defined.

Lemma unmatched_release_blocks_reservations_witness :
  ReleaseReservation kFullGuardSize 0 = 2 ^ 64 - kFullGuardSize /\
  ReserveAddressSpace Arch64 65536 (ReleaseReservation kFullGuardSize 0)
    = (false, ReleaseReservation kFullGuardSize 0).
Proof.
  assert (Hc : 0 <= 0 < kFullGuardSize) by (vm_compute; split; congruence).
  assert (Hn : kFullGuardSize < 2 ^ 63) by (vm_compute; reflexivity).
  destruct (unmatched_release_blocks_reservations Arch64 0 kFullGuardSize 65536 Hc Hn)
    as (Hwrap & Hfail).
  split; [rewrite Hwrap; vm_compute; reflexivity | exact Hfail].
Defined.

Lemma guarded_second_attempt_repeats_first_witness :
  TryAllocateWasmMemory x64_build 0%nat 1 1 kNotShared full_world =
  TryAllocateWasmMemory x64_build 0%nat 1 10 kNotShared full_world.
Proof.
  apply (guarded_second_attempt_repeats_first x64_build 0%nat 1 10 kNotShared full_world).
  reflexivity.
Defined.
